(** * Alert matching and notification fan-out of the tender portal backend

    A shallow embedding of
      - [src/models/AlertConfiguration.js]   (predicate evaluator, registry queries),
      - [src/services/alertProcessingService.js] (immediate / daily / weekly runs,
        the processing queue),
      - [src/services/emailService.js]       (summary grouping and the renderers),
      - [src/services/schedulerService.js]   (named jobs and manual triggers),
    followed by the properties established about them.

    Conventions of the embedding.
      - A JavaScript property that may be [undefined] is an [option].
      - A JavaScript [Number] that holds an amount, a counter, a day count or a
        time stamp (milliseconds since the epoch) is an integer of [Z]; a bound
        in days, which the schemas do not restrict to integers, is a rational
        of [Q].
      - A call that may throw returns a [Result].
      - [new Date()] is the parameter [now]; one run reads one clock value. The
        module [Clocked] gives the daily and weekly runs with the clock read at
        every call.
      - Calendar arithmetic on a [Date] goes through the local time of the
        process, given by a [TimeZone].
      - [save()] on a document succeeds; the only failing collaborator is the
        mail transport, an oracle from the mail to an optional error message. *)

From Stdlib Require Import ZArith List String Ascii Bool Lia QArith Qround Sorted.
From stdpp Require Import base gmap strings list.

Import ListNotations.
Local Open Scope Z_scope.

(** ** Results of calls that may throw *)

Inductive Result (A : Type) : Type :=
| Ret (a : A)
| Throw (message : string).
Arguments Ret {A} a.
Arguments Throw {A} message.

Definition bind {A B} (r : Result A) (k : A -> Result B) : Result B :=
  match r with
  | Ret a => k a
  | Throw e => Throw e
  end.

Notation "x <- r ;; k" := (bind r (fun x => k))
  (at level 100, r at next level, right associativity).

(** [if (!c) return false;] in a chain of checks. *)
Definition andThen (c : Result bool) (k : Result bool) : Result bool :=
  b <- c ;; if b then k else Ret false.

Notation "'check' c ;; k" := (andThen c k)
  (at level 100, c at next level, right associativity).

(** Reading a property of an object that is [undefined]. *)
Definition reading {A} (o : option A) (prop : string) : Result A :=
  match o with
  | Some a => Ret a
  | None =>
      Throw ("TypeError: Cannot read properties of undefined (reading '"
             +:+ prop +:+ "')")
  end.

(** ** Strings *)

(** [String.prototype.toLowerCase] on the ASCII letters; other bytes are kept. *)
Definition lowerChar (c : ascii) : ascii :=
  let n := nat_of_ascii c in
  if ((65 <=? n) && (n <=? 90))%nat then ascii_of_nat (n + 32) else c.

Fixpoint toLowerCase (s : string) : string :=
  match s with
  | EmptyString => EmptyString
  | String c r => String (lowerChar c) (toLowerCase r)
  end.

(** [s.startsWith(p)] *)
Fixpoint startsWith (s p : string) : bool :=
  match p, s with
  | EmptyString, _ => true
  | String _ _, EmptyString => false
  | String a p', String b s' => Ascii.eqb a b && startsWith s' p'
  end.

(** [s.includes(p)] *)
Fixpoint includes (s p : string) : bool :=
  startsWith s p ||
  match s with
  | EmptyString => false
  | String _ s' => includes s' p
  end.

(** [s.endsWith(p)] *)
Fixpoint endsWith (s p : string) : bool :=
  String.eqb s p ||
  match s with
  | EmptyString => false
  | String _ s' => endsWith s' p
  end.

(** [arr.includes(x)] for an array of strings and a possibly undefined [x]. *)
Definition arrayIncludes (arr : list string) (x : option string) : bool :=
  match x with
  | Some s => existsb (String.eqb s) arr
  | None => false
  end.

(** [arr.length > 0] *)
Definition nonEmpty {A} (arr : list A) : bool :=
  match arr with
  | [] => false
  | _ :: _ => true
  end.

(** Truthiness of an optional number: [undefined] and [0] are falsy. *)
Definition truthyNumber (n : option Z) : option Z :=
  match n with
  | Some z => if z =? 0 then None else Some z
  | None => None
  end.

(** Truthiness of an optional number that may be a fraction. *)
Definition truthyFraction (n : option Q) : option Q :=
  match n with
  | Some q => if Qeq_bool q 0 then None else Some q
  | None => None
  end.

(** Truthiness of an optional string: [undefined] and the empty string are falsy. *)
Definition truthyString (s : option string) : option string :=
  match s with
  | Some EmptyString => None
  | Some s' => Some s'
  | None => None
  end.

(** [value || ''] *)
Definition orEmpty (s : option string) : string :=
  match truthyString s with
  | Some s' => s'
  | None => EmptyString
  end.

(** ** Data model *)

Inductive MatchType := exact | contains | starts_with | ends_with.

Record Keyword := {
  term : string;
  matchType : MatchType
}.

Record Locations := {
  provinces : list string;
  districts : list string;
  cities : list string
}.

Record ValueRange := {
  range_min : option Z;
  range_max : option Z;
  range_currency : string
}.

Inductive Frequency := immediate | daily | weekly.

Record EmailSettings := {
  enabled : bool;
  frequency : Frequency;
  customEmail : option string;
  lastSentAt : option Z;
  dailySummaryTime : string
}.

Record Stats := {
  totalMatches : Z;
  emailsSent : Z;
  lastMatchedTender : option string;
  lastMatchedAt : option Z
}.

Record AdvancedFilters := {
  excludeKeywords : list string;
  minDaysUntilClosing : option Q;
  maxDaysUntilClosing : option Q;
  includedStatuses : list string;
  includedPriorities : list string
}.

(** The populated owner: [populate('user', 'email subscription')].
    [emailAlerts] is the value of [user.subscription?.features?.emailAlerts]. *)
Record User := {
  user_id : string;
  email : string;
  firstName : option string;
  user_name : option string;
  emailAlerts : option bool
}.

Record AlertConfiguration := {
  alert_id : string;
  user : option User;
  name : string;
  isActive : bool;
  keywords : list Keyword;
  categories : list string;
  locations : Locations;
  organizationTypes : list string;
  estimatedValue : ValueRange;
  emailSettings : EmailSettings;
  stats : Stats;
  advancedFilters : AdvancedFilters
}.

Record Organization := {
  org_name : option string;
  org_type : option string
}.

Record Location := {
  province : option string;
  district : option string;
  city : option string
}.

Record Dates := {
  published : option Z;
  closing : option Z
}.

Record EstimatedValue := {
  amount : option Z;
  currency : option string
}.

Record Financials := {
  financials_estimatedValue : option EstimatedValue
}.

Record Tender := {
  tender_id : string;
  title : option string;
  description : option string;
  fullTextMarkdown : option string;
  category : option string;
  organization : option Organization;
  location : option Location;
  dates : option Dates;
  financials : option Financials;
  status : option string;
  priority : option string
}.

(** ** Predicate evaluator: [shouldTriggerForTender] *)

(** [`${title} ${description} ${fullText}`] with each part lower-cased. *)
Definition textToSearch (tender : Tender) : Result string :=
  t <- reading (title tender) "toLowerCase" ;;
  let title := toLowerCase t in
  let description := toLowerCase (orEmpty (description tender)) in
  let fullText := toLowerCase (orEmpty (fullTextMarkdown tender)) in
  Ret (title +:+ " " +:+ description +:+ " " +:+ fullText).

(** The [switch (keyword.matchType)] on an already built search text. *)
Definition keywordMatchesText (mt : MatchType) (term textToSearch : string) : bool :=
  match mt with
  | exact =>
      includes textToSearch (" " +:+ term +:+ " ") ||
      startsWith textToSearch (term +:+ " ") ||
      endsWith textToSearch (" " +:+ term) ||
      String.eqb textToSearch term
  | starts_with =>
      includes textToSearch (" " +:+ term) || startsWith textToSearch term
  | ends_with =>
      includes textToSearch (term +:+ " ") || endsWith textToSearch term
  | contains =>
      includes textToSearch term
  end.

(** The callback of [this.keywords.some(...)]. *)
Definition keywordMatches (tender : Tender) (keyword : Keyword) : Result bool :=
  let term := toLowerCase (term keyword) in
  text <- textToSearch tender ;;
  Ret (keywordMatchesText (matchType keyword) term text).

(** [arr.some(f)] for a callback that may throw: stops at the first [true]. *)
Fixpoint arraySome {A} (f : A -> Result bool) (arr : list A) : Result bool :=
  match arr with
  | [] => Ret false
  | x :: rest => b <- f x ;; if b then Ret true else arraySome f rest
  end.

Definition checkKeywords (this : AlertConfiguration) (tender : Tender) : Result bool :=
  if nonEmpty (keywords this) then arraySome (keywordMatches tender) (keywords this)
  else Ret true.

Definition checkExcludeKeywords (this : AlertConfiguration) (tender : Tender)
  : Result bool :=
  let excluded := excludeKeywords (advancedFilters this) in
  if nonEmpty excluded then
    text <- textToSearch tender ;;
    let hasExcludedKeyword :=
      existsb (fun keyword => includes text (toLowerCase keyword)) excluded in
    Ret (negb hasExcludedKeyword)
  else Ret true.

Definition checkCategories (this : AlertConfiguration) (tender : Tender) : bool :=
  negb (nonEmpty (categories this) &&
        negb (arrayIncludes (categories this) (category tender))).

Definition checkProvinces (this : AlertConfiguration) (tender : Tender) : Result bool :=
  let locs := locations this in
  if nonEmpty (provinces locs) then
    l <- reading (location tender) "province" ;;
    Ret (arrayIncludes (provinces locs) (province l))
  else Ret true.

Definition checkDistricts (this : AlertConfiguration) (tender : Tender) : Result bool :=
  let locs := locations this in
  if nonEmpty (districts locs) then
    l <- reading (location tender) "district" ;;
    Ret (arrayIncludes (districts locs) (district l))
  else Ret true.

Definition checkCities (this : AlertConfiguration) (tender : Tender) : Result bool :=
  let locs := locations this in
  if nonEmpty (cities locs) then
    l <- reading (location tender) "city" ;;
    match truthyString (city l) with
    | Some c => Ret (arrayIncludes (cities locs) (Some c))
    | None => Ret true
    end
  else Ret true.

Definition checkOrganizationTypes (this : AlertConfiguration) (tender : Tender)
  : Result bool :=
  if nonEmpty (organizationTypes this) then
    o <- reading (organization tender) "type" ;;
    Ret (arrayIncludes (organizationTypes this) (org_type o))
  else Ret true.

(** [tender.financials?.estimatedValue?.amount] *)
Definition tenderAmount (tender : Tender) : option Z :=
  match financials tender with
  | Some f =>
      match financials_estimatedValue f with
      | Some ev => amount ev
      | None => None
      end
  | None => None
  end.

(** [bound && value < bound] *)
Definition belowBound (bound : option Z) (value : Z) : bool :=
  match truthyNumber bound with
  | Some b => value <? b
  | None => false
  end.

(** [bound && value > bound] *)
Definition aboveBound (bound : option Z) (value : Z) : bool :=
  match truthyNumber bound with
  | Some b => b <? value
  | None => false
  end.

Definition checkEstimatedValue (this : AlertConfiguration) (tender : Tender) : bool :=
  let range := estimatedValue this in
  match truthyNumber (range_min range), truthyNumber (range_max range) with
  | None, None => true
  | _, _ =>
      match truthyNumber (tenderAmount tender) with
      | Some tenderValue =>
          negb (belowBound (range_min range) tenderValue) &&
          negb (aboveBound (range_max range) tenderValue)
      | None => true
      end
  end.

Definition msPerDay : Z := 1000 * 60 * 60 * 24.

(** [Math.ceil(a / b)] for integers [a] and positive [b]. *)
Definition ceilDiv (a b : Z) : Z := - ((- a) / b).

(** [bound && days < bound], for a whole number of days and a bound that may
    be a fraction. *)
Definition belowDays (bound : option Q) (days : Z) : bool :=
  match truthyFraction bound with
  | Some b => negb (Qle_bool b (inject_Z days))
  | None => false
  end.

(** [bound && days > bound] *)
Definition aboveDays (bound : option Q) (days : Z) : bool :=
  match truthyFraction bound with
  | Some b => negb (Qle_bool (inject_Z days) b)
  | None => false
  end.

(** A missing closing date gives an invalid date, every comparison with the
    resulting [NaN] is false and the check passes. *)
Definition checkDaysUntilClosing (now : Z) (this : AlertConfiguration) (tender : Tender)
  : Result bool :=
  let adv := advancedFilters this in
  match truthyFraction (minDaysUntilClosing adv),
        truthyFraction (maxDaysUntilClosing adv) with
  | None, None => Ret true
  | _, _ =>
      d <- reading (dates tender) "closing" ;;
      match closing d with
      | Some closingDate =>
          let daysUntilClosing := ceilDiv (closingDate - now) msPerDay in
          Ret (negb (belowDays (minDaysUntilClosing adv) daysUntilClosing) &&
               negb (aboveDays (maxDaysUntilClosing adv) daysUntilClosing))
      | None => Ret true
      end
  end.

Definition checkStatuses (this : AlertConfiguration) (tender : Tender) : bool :=
  let included := includedStatuses (advancedFilters this) in
  negb (nonEmpty included && negb (arrayIncludes included (status tender))).

Definition checkPriorities (this : AlertConfiguration) (tender : Tender) : bool :=
  let included := includedPriorities (advancedFilters this) in
  negb (nonEmpty included && negb (arrayIncludes included (priority tender))).

Definition shouldTriggerForTender (now : Z) (this : AlertConfiguration) (tender : Tender)
  : Result bool :=
  check Ret (isActive this) ;;
  check checkKeywords this tender ;;
  check checkExcludeKeywords this tender ;;
  check Ret (checkCategories this tender) ;;
  check checkProvinces this tender ;;
  check checkDistricts this tender ;;
  check checkCities this tender ;;
  check checkOrganizationTypes this tender ;;
  check Ret (checkEstimatedValue this tender) ;;
  check checkDaysUntilClosing now this tender ;;
  check Ret (checkStatuses this tender) ;;
  check Ret (checkPriorities this tender) ;;
  Ret true.

(** ** Statistics kept on a configuration *)

Definition withStats (this : AlertConfiguration) (s : Stats) : AlertConfiguration :=
  {| alert_id := alert_id this; user := user this; name := name this;
     isActive := isActive this; keywords := keywords this;
     categories := categories this; locations := locations this;
     organizationTypes := organizationTypes this;
     estimatedValue := estimatedValue this; emailSettings := emailSettings this;
     stats := s; advancedFilters := advancedFilters this |}.

Definition withEmailSettings (this : AlertConfiguration) (e : EmailSettings)
  : AlertConfiguration :=
  {| alert_id := alert_id this; user := user this; name := name this;
     isActive := isActive this; keywords := keywords this;
     categories := categories this; locations := locations this;
     organizationTypes := organizationTypes this;
     estimatedValue := estimatedValue this; emailSettings := e;
     stats := stats this; advancedFilters := advancedFilters this |}.

(** [updateStats(tender)]: mutate, then save. The first argument is the document,
    so that the inner loop over the matches is a left fold. *)
Definition updateStats (now : Z) (this : AlertConfiguration) (tender : Tender)
  : AlertConfiguration :=
  withStats this
    {| totalMatches := totalMatches (stats this) + 1;
       emailsSent := emailsSent (stats this);
       lastMatchedTender := Some (tender_id tender);
       lastMatchedAt := Some now |}.

(** [incrementEmailSent()] *)
Definition incrementEmailSent (now : Z) (this : AlertConfiguration) : AlertConfiguration :=
  withEmailSettings
    (withStats this
       {| totalMatches := totalMatches (stats this);
          emailsSent := emailsSent (stats this) + 1;
          lastMatchedTender := lastMatchedTender (stats this);
          lastMatchedAt := lastMatchedAt (stats this) |})
    {| enabled := enabled (emailSettings this);
       frequency := frequency (emailSettings this);
       customEmail := customEmail (emailSettings this);
       lastSentAt := Some now;
       dailySummaryTime := dailySummaryTime (emailSettings this) |}.

(** ** Configuration registry: the eligibility queries

    The collection is a list of documents; a query keeps the documents that
    satisfy its filter, in collection order. *)

Definition frequencyIs (f g : Frequency) : bool :=
  match f, g with
  | immediate, immediate | daily, daily | weekly, weekly => true
  | _, _ => false
  end.

Definition activeWithFrequency (f : Frequency) (a : AlertConfiguration) : bool :=
  isActive a && enabled (emailSettings a) && frequencyIs (frequency (emailSettings a)) f.

Definition findImmediateAlerts (db : list AlertConfiguration) : list AlertConfiguration :=
  List.filter (activeWithFrequency immediate) db.

Definition findDailyAlerts (time : string) (db : list AlertConfiguration)
  : list AlertConfiguration :=
  List.filter
    (fun a => activeWithFrequency daily a &&
              String.eqb (dailySummaryTime (emailSettings a)) time) db.

(** [{ $lte: oneWeekAgo }] or [{ $exists: false }] on [emailSettings.lastSentAt]. *)
Definition dueSince (oneWeekAgo : Z) (a : AlertConfiguration) : bool :=
  match lastSentAt (emailSettings a) with
  | Some sent => sent <=? oneWeekAgo
  | None => true
  end.

(** The time zone of the process. [utcOffset t] is the offset of local time in
    effect at the instant [t]; [localOffset t] is the offset in effect at the
    local time value [t] (the language's [LocalTZA(t, true)] and
    [LocalTZA(t, false)]), both in milliseconds. *)
Record TimeZone := {
  utcOffset : Z -> Z;
  localOffset : Z -> Z
}.

(** [LocalTime(t)] and [UTC(t)] of the language. *)
Definition LocalTime (tz : TimeZone) (t : Z) : Z := t + utcOffset tz t.

Definition UTC (tz : TimeZone) (t : Z) : Z := t - localOffset tz t.

(** [d.setDate(d.getDate() - days)] on [d = new Date()]: the date of the local
    time is moved back and the time within the day is kept, so that the local
    time value goes back by [days] days of 24 hours; the result is read back
    as an instant. *)
Definition daysAgo (tz : TimeZone) (days now : Z) : Z :=
  UTC tz (LocalTime tz now - days * msPerDay).

(** [oneWeekAgo.setDate(oneWeekAgo.getDate() - 7)] *)
Definition findWeeklyAlerts (tz : TimeZone) (now : Z) (db : list AlertConfiguration)
  : list AlertConfiguration :=
  let oneWeekAgo := daysAgo tz 7 now in
  List.filter (fun a => activeWithFrequency weekly a && dueSince oneWeekAgo a) db.

(** ** Notification renderer

    A body is the sequence of the values its template interpolates, in template
    order; the fixed markup and wording between two interpolations carries no
    data of a record and is left out.  A value printed from a possibly missing
    property keeps its [option]. The two date formats the templates use are
    presentations of the same [ClosingDate]. *)

Inductive Fact :=
| AlertName (name : string)
| MatchCount (n : nat)
| ItemNumber (n : nat)
| Title (title : option string)
| Category (category : option string)
| OrganizationType (type : option string)
| DescriptionExcerpt (first200 : string) (ellipsis : bool)
| OrganizationName (name : option string)
| DistrictProvince (district province : option string)
| ClosingDate (closing : option Z)
| EstimatedValueOf (currency : option string) (amount : Z)
| TenderLink (id : string)
| ManageAlertsLink
| UnsubscribeLink
| FrequencyLabel (frequency : Frequency)
| TotalMatches (n : nat)
| Greeting (name : string)
| SectionHeader (configName : string) (matches : nat)
| NoNewMatches (frequency : Frequency).

(** [description.substring(0, 200)] and [description.length > 200]. *)
Definition excerpt (description : string) : Fact :=
  DescriptionExcerpt (String.substring 0 200 description)
                     (200 <? String.length description)%nat.

(** [tender.financials?.estimatedValue ? `... ${currency} ${amount.toLocaleString()}` : ''] *)
Definition estimatedValueFacts (tender : Tender) : Result (list Fact) :=
  match financials tender with
  | Some f =>
      match financials_estimatedValue f with
      | Some ev =>
          a <- reading (amount ev) "toLocaleString" ;;
          Ret [EstimatedValueOf (currency ev) a]
      | None => Ret []
      end
  | None => Ret []
  end.

(** [arr.map(f)] for a callback that may throw. *)
Fixpoint mapM {A B} (f : A -> Result B) (arr : list A) : Result (list B) :=
  match arr with
  | [] => Ret []
  | x :: rest => y <- f x ;; ys <- mapM f rest ;; Ret (y :: ys)
  end.

(** [arr.filter(f)] for a callback that may throw. *)
Fixpoint filterM {A} (f : A -> Result bool) (arr : list A) : Result (list A) :=
  match arr with
  | [] => Ret []
  | x :: rest =>
      b <- f x ;; kept <- filterM f rest ;; Ret (if b then x :: kept else kept)
  end.

(** One card of [generateAlertEmailHTML]. *)
Definition alertCardHTML (tender : Tender) : Result (list Fact) :=
  o <- reading (organization tender) "type" ;;
  d <- reading (description tender) "substring" ;;
  l <- reading (location tender) "district" ;;
  ds <- reading (dates tender) "closing" ;;
  value <- estimatedValueFacts tender ;;
  Ret ([Title (title tender); Category (category tender);
        OrganizationType (org_type o); excerpt d; OrganizationName (org_name o);
        DistrictProvince (district l) (province l); ClosingDate (closing ds)]
       ++ value ++ [TenderLink (tender_id tender)]).

Definition generateAlertEmailHTML (tenderMatches : list Tender)
  (alertConfig : AlertConfiguration) : Result (list Fact) :=
  tenderCards <- mapM alertCardHTML tenderMatches ;;
  Ret ([AlertName (name alertConfig); AlertName (name alertConfig);
        MatchCount (List.length tenderMatches)]
       ++ concat tenderCards ++ [ManageAlertsLink; UnsubscribeLink]).

(** One iteration of the [forEach] of [generateAlertEmailText]. *)
Definition alertItemText (index : nat) (tender : Tender) : Result (list Fact) :=
  o <- reading (organization tender) "name" ;;
  l <- reading (location tender) "district" ;;
  ds <- reading (dates tender) "closing" ;;
  value <- estimatedValueFacts tender ;;
  Ret ([ItemNumber (index + 1); Title (title tender); Category (category tender);
        OrganizationName (org_name o); OrganizationType (org_type o);
        DistrictProvince (district l) (province l); ClosingDate (closing ds)]
       ++ value ++ [TenderLink (tender_id tender)]).

(** [arr.forEach((x, index) => ...)] appending to the text, from index [i]. *)
Fixpoint forEachIndexed {A} (f : nat -> A -> Result (list Fact)) (i : nat) (arr : list A)
  : Result (list Fact) :=
  match arr with
  | [] => Ret []
  | x :: rest => fs <- f i x ;; gs <- forEachIndexed f (S i) rest ;; Ret (fs ++ gs)
  end.

Definition generateAlertEmailText (tenderMatches : list Tender)
  (alertConfig : AlertConfiguration) : Result (list Fact) :=
  items <- forEachIndexed alertItemText 0 tenderMatches ;;
  Ret ([AlertName (name alertConfig); MatchCount (List.length tenderMatches)]
       ++ items ++ [ManageAlertsLink; UnsubscribeLink]).

(** [user.firstName || user.name || 'there'] *)
Definition greetingName (u : User) : string :=
  match truthyString (firstName u) with
  | Some n => n
  | None =>
      match truthyString (user_name u) with
      | Some n => n
      | None => "there"
      end
  end.

(** One row of a section of [generateSummaryEmailHTML]. *)
Definition summaryRowHTML (tender : Tender) : Result (list Fact) :=
  o <- reading (organization tender) "name" ;;
  l <- reading (location tender) "district" ;;
  ds <- reading (dates tender) "closing" ;;
  Ret [Title (title tender); OrganizationName (org_name o);
       DistrictProvince (district l) (province l); ClosingDate (closing ds);
       TenderLink (tender_id tender)].

(** A section of the summary is a configuration with the records listed under it. *)
Definition DigestSection : Type := AlertConfiguration * list Tender.

Definition summarySectionHTML (data : DigestSection) : Result (list Fact) :=
  let '(config, tenders) := data in
  if nonEmpty tenders then
    tenderItems <- mapM summaryRowHTML tenders ;;
    Ret (SectionHeader (name config) (List.length tenders) :: concat tenderItems)
  else Ret [].

(** [totalTenders += data.tenders.length] over all sections. *)
Definition totalTenders (groupedTenders : list DigestSection) : nat :=
  fold_left (fun total (data : DigestSection) => (total + List.length (snd data))%nat)
            groupedTenders 0%nat.

Definition generateSummaryEmailHTML (groupedTenders : list DigestSection)
  (frequency : Frequency) (user : option User) : Result (list Fact) :=
  alertSections <- mapM summarySectionHTML groupedTenders ;;
  if (totalTenders groupedTenders =? 0)%nat then
    Ret [FrequencyLabel frequency; NoNewMatches frequency]
  else
    u <- reading user "firstName" ;;
    Ret ([FrequencyLabel frequency; FrequencyLabel frequency;
          TotalMatches (totalTenders groupedTenders); Greeting (greetingName u);
          FrequencyLabel frequency]
         ++ concat alertSections ++ [ManageAlertsLink; UnsubscribeLink]).

Definition summaryItemText (index : nat) (tender : Tender) : Result (list Fact) :=
  o <- reading (organization tender) "name" ;;
  l <- reading (location tender) "district" ;;
  ds <- reading (dates tender) "closing" ;;
  Ret [ItemNumber (index + 1); Title (title tender); OrganizationName (org_name o);
       DistrictProvince (district l) (province l); ClosingDate (closing ds);
       TenderLink (tender_id tender)].

Definition summarySectionText (data : DigestSection) : Result (list Fact) :=
  let '(config, tenders) := data in
  if nonEmpty tenders then
    items <- forEachIndexed summaryItemText 0 tenders ;;
    Ret (SectionHeader (name config) (List.length tenders) :: items)
  else Ret [].

Definition generateSummaryEmailText (groupedTenders : list DigestSection)
  (frequency : Frequency) (user : option User) : Result (list Fact) :=
  u <- reading user "firstName" ;;
  sections <- mapM summarySectionText groupedTenders ;;
  Ret ([FrequencyLabel frequency; Greeting (greetingName u)]
       ++ concat sections
       ++ (if (totalTenders groupedTenders =? 0)%nat then [NoNewMatches frequency] else [])
       ++ [ManageAlertsLink; UnsubscribeLink]).

(** ** Delivery: [emailService] *)

Inductive Subject :=
| NewTenderAlert (title : option string)
| DailyTenderSummary (matches : nat)
| WeeklyTenderSummary (matches : nat).

Record Mail := {
  mail_to : string;
  mail_subject : Subject;
  mail_text : list Fact;
  mail_html : list Fact
}.

(** [transporter.sendMail(mailOptions)]: [None] when the message was accepted,
    [Some message] when the call threw. *)
Definition Transport : Type := Mail -> option string.

Definition sendMail (transport : Transport) (mailOptions : Mail) : Result Mail :=
  match transport mailOptions with
  | None => Ret mailOptions
  | Some message => Throw message
  end.

Definition sendAlertEmail (transport : Transport) (to : string) (subject : Subject)
  (tenderMatches : list Tender) (alertConfig : AlertConfiguration) : Result Mail :=
  htmlContent <- generateAlertEmailHTML tenderMatches alertConfig ;;
  textContent <- generateAlertEmailText tenderMatches alertConfig ;;
  sendMail transport
    {| mail_to := to; mail_subject := subject;
       mail_text := textContent; mail_html := htmlContent |}.

(** The virtual [effectiveEmail]: [customEmail || user?.email]. *)
Definition effectiveEmail (this : AlertConfiguration) : option string :=
  match truthyString (customEmail (emailSettings this)) with
  | Some custom => Some custom
  | None => option_map email (user this)
  end.

(** [alertConfig.effectiveEmail || user.email] *)
Definition sendImmediateAlert (transport : Transport) (user : User) (tender : Tender)
  (alertConfig : AlertConfiguration) : Result Mail :=
  let to :=
    match truthyString (effectiveEmail alertConfig) with
    | Some e => e
    | None => email user
    end in
  sendAlertEmail transport to (NewTenderAlert (title tender)) [tender] alertConfig.

(** One entry per configuration, holding the records that configuration matches.
    The configurations of a cohort have distinct ids, so that the object keyed by
    id has one entry per configuration, in cohort order. *)
Definition groupTendersByAlert (now : Z) (tenders : list Tender)
  (alertConfigs : list AlertConfiguration) : Result (list DigestSection) :=
  mapM (fun config =>
          matched <- filterM (shouldTriggerForTender now config) tenders ;;
          Ret (config, matched))
       alertConfigs.

Definition sendSummaryEmail (transport : Transport) (user : option User)
  (subject : Subject) (groupedTenders : list DigestSection) (frequency : Frequency)
  : Result Mail :=
  htmlContent <- generateSummaryEmailHTML groupedTenders frequency user ;;
  textContent <- generateSummaryEmailText groupedTenders frequency user ;;
  u <- reading user "email" ;;
  sendMail transport
    {| mail_to := email u; mail_subject := subject;
       mail_text := textContent; mail_html := htmlContent |}.

(** The two digests. *)
Inductive Digest := dailyDigest | weeklyDigest.

Definition digestFrequency (kind : Digest) : Frequency :=
  match kind with
  | dailyDigest => daily
  | weeklyDigest => weekly
  end.

Definition digestSubject (kind : Digest) (matches : nat) : Subject :=
  match kind with
  | dailyDigest => DailyTenderSummary matches
  | weeklyDigest => WeeklyTenderSummary matches
  end.

Definition digestErrorType (kind : Digest) : string :=
  match kind with
  | dailyDigest => "daily_summary"
  | weeklyDigest => "weekly_summary"
  end.

(** [sendDailySummary] and [sendWeeklySummary]: [Ret None] when there is nothing
    to send. *)
Definition sendSummary (kind : Digest) (now : Z) (transport : Transport)
  (user : option User) (tenders : list Tender) (alertConfigs : list AlertConfiguration)
  : Result (option Mail) :=
  if nonEmpty tenders then
    let subject := digestSubject kind (List.length tenders) in
    groupedTenders <- groupTendersByAlert now tenders alertConfigs ;;
    mail <- sendSummaryEmail transport user subject groupedTenders (digestFrequency kind) ;;
    Ret (Some mail)
  else Ret None.

Definition sendDailySummary := sendSummary dailyDigest.
Definition sendWeeklySummary := sendSummary weeklyDigest.

(** ** Processing orchestrator: [alertProcessingService] *)

Record RunError := {
  error_ref : string;
  error_type : string;
  error_message : string
}.

(** The counters and the error list of a run in progress, and the mails the
    transport accepted so far, each with the id the run logs with it (the
    configuration of an immediate alert, the owner of a digest). *)
Record RunState := {
  run_processed : Z;
  run_emailsSent : Z;
  run_errors : list RunError;
  run_outbox : list (string * Mail)
}.

Definition initialState : RunState :=
  {| run_processed := 0; run_emailsSent := 0; run_errors := []; run_outbox := [] |}.

(** [results.processed++] *)
Definition countProcessed (st : RunState) : RunState :=
  {| run_processed := run_processed st + 1; run_emailsSent := run_emailsSent st;
     run_errors := run_errors st; run_outbox := run_outbox st |}.

(** [results.emailsSent++], after the transport accepted [mail]. *)
Definition countEmailSent (ref : string) (mail : Mail) (st : RunState) : RunState :=
  {| run_processed := run_processed st; run_emailsSent := run_emailsSent st + 1;
     run_errors := run_errors st; run_outbox := run_outbox st ++ [(ref, mail)] |}.

(** A mail the transport accepted in a step that failed later on. *)
Definition recordMail (ref : string) (mail : Mail) (st : RunState) : RunState :=
  {| run_processed := run_processed st; run_emailsSent := run_emailsSent st;
     run_errors := run_errors st; run_outbox := run_outbox st ++ [(ref, mail)] |}.

(** [results.errors.push({ ..., type, error })] *)
Definition pushError (ref type message : string) (st : RunState) : RunState :=
  {| run_processed := run_processed st; run_emailsSent := run_emailsSent st;
     run_errors := run_errors st ++
       [{| error_ref := ref; error_type := type; error_message := message |}];
     run_outbox := run_outbox st |}.

(** The object a run returns; the early returns carry no [errors] property. *)
Record Results := {
  processed : Z;
  results_emailsSent : Z;
  errors : option (list RunError)
}.

Definition resultsOf (st : RunState) : Results :=
  {| processed := run_processed st; results_emailsSent := run_emailsSent st;
     errors := Some (run_errors st) |}.

(** *** Immediate run *)

(** [!alert.user || !alert.user.subscription?.features?.emailAlerts] *)
Definition lacksEmailAlerts (alert : AlertConfiguration) : bool :=
  match user alert with
  | Some u =>
      match emailAlerts u with
      | Some true => false
      | _ => true
      end
  | None => true
  end.

(** What one iteration of the loop of [processTenderAlerts] leaves behind: the
    document, whether the predicate was called on it, the state of the run. *)
Record AlertStep := {
  step_doc : AlertConfiguration;
  step_evaluated : bool;
  step_state : RunState
}.

Definition processAlert (now : Z) (transport : Transport) (tender : Tender)
  (alert : AlertConfiguration) (st : RunState) : AlertStep :=
  match user alert with
  | None => {| step_doc := alert; step_evaluated := false; step_state := st |}
  | Some u =>
      if lacksEmailAlerts alert then
        {| step_doc := alert; step_evaluated := false; step_state := st |}
      else
        match shouldTriggerForTender now alert tender with
        | Throw message =>
            {| step_doc := alert; step_evaluated := true;
               step_state := pushError (alert_id alert) "processing" message st |}
        | Ret false =>
            {| step_doc := alert; step_evaluated := true; step_state := st |}
        | Ret true =>
            let alert := updateStats now alert tender in
            if enabled (emailSettings alert) &&
               frequencyIs (frequency (emailSettings alert)) immediate then
              match sendImmediateAlert transport u tender alert with
              | Ret mail =>
                  {| step_doc := incrementEmailSent now alert; step_evaluated := true;
                     step_state :=
                       countProcessed (countEmailSent (alert_id alert) mail st) |}
              | Throw message =>
                  {| step_doc := alert; step_evaluated := true;
                     step_state :=
                       countProcessed (pushError (alert_id alert) "email" message st) |}
              end
            else
              {| step_doc := alert; step_evaluated := true;
                 step_state := countProcessed st |}
        end
  end.

(** What a whole immediate run leaves behind. [imm_evaluated] lists the ids of
    the configurations on which the predicate was called, in call order. *)
Record ImmediateRun := {
  imm_results : Results;
  imm_outbox : list (string * Mail);
  imm_docs : list AlertConfiguration;
  imm_evaluated : list string
}.

(** The [for (const alert of immediateAlerts)] loop. *)
Fixpoint processAlerts (now : Z) (transport : Transport) (tender : Tender)
  (alerts : list AlertConfiguration) (st : RunState)
  : list AlertConfiguration * list string * RunState :=
  match alerts with
  | [] => ([], [], st)
  | alert :: rest =>
      let step := processAlert now transport tender alert st in
      let '(docs, evaluated, final) :=
        processAlerts now transport tender rest (step_state step) in
      (step_doc step :: docs,
       (if step_evaluated step then alert_id alert :: evaluated else evaluated),
       final)
  end.

(** [processTenderAlerts(tender)] on the cohort [immediateAlerts]. *)
Definition processTenderAlertsOn (now : Z) (transport : Transport) (tender : Tender)
  (immediateAlerts : list AlertConfiguration) : ImmediateRun :=
  if nonEmpty immediateAlerts then
    let '(docs, evaluated, final) :=
      processAlerts now transport tender immediateAlerts initialState in
    {| imm_results := resultsOf final; imm_outbox := run_outbox final;
       imm_docs := docs; imm_evaluated := evaluated |}
  else
    {| imm_results := {| processed := 0; results_emailsSent := 0; errors := None |};
       imm_outbox := []; imm_docs := []; imm_evaluated := [] |}.

Definition processTenderAlerts (now : Z) (transport : Transport)
  (db : list AlertConfiguration) (tender : Tender) : ImmediateRun :=
  processTenderAlertsOn now transport tender (findImmediateAlerts db).

(** *** Daily and weekly runs *)

(** [userMap.get(userId).push(alert)], creating the entry at the end of the map
    when the key is new: a [Map] iterates in insertion order. *)
Fixpoint pushToGroup (userId : string) (alert : AlertConfiguration)
  (userMap : list (string * list AlertConfiguration))
  : list (string * list AlertConfiguration) :=
  match userMap with
  | [] => [(userId, [alert])]
  | (key, alerts) :: rest =>
      if String.eqb key userId then (key, alerts ++ [alert]) :: rest
      else (key, alerts) :: pushToGroup userId alert rest
  end.

(** The loop of [groupAlertsByUser], from the map built so far. *)
Fixpoint groupInto (userMap : list (string * list AlertConfiguration))
  (alerts : list AlertConfiguration)
  : Result (list (string * list AlertConfiguration)) :=
  match alerts with
  | [] => Ret userMap
  | alert :: rest =>
      u <- reading (user alert) "_id" ;;
      groupInto (pushToGroup (user_id u) alert userMap) rest
  end.

Definition groupAlertsByUser (alerts : list AlertConfiguration)
  : Result (list (string * list AlertConfiguration)) :=
  groupInto [] alerts.

(** The [filter] of [removeDuplicateTenders], with the set [seen] so far. *)
Fixpoint keepUnseen (seen : gset string) (tenders : list Tender) : list Tender :=
  match tenders with
  | [] => []
  | tender :: rest =>
      let id := tender_id tender in
      if decide (id ∈ seen) then keepUnseen seen rest
      else tender :: keepUnseen ({[id]} ∪ seen) rest
  end.

Definition removeDuplicateTenders (tenders : list Tender) : list Tender :=
  keepUnseen ∅ tenders.

(** [matchingTenders.push(...matches)] for every configuration of the owner. *)
Fixpoint collectMatches (now : Z) (alerts : list AlertConfiguration)
  (recentTenders : list Tender) : Result (list Tender) :=
  match alerts with
  | [] => Ret []
  | alert :: rest =>
      matches <- filterM (shouldTriggerForTender now alert) recentTenders ;;
      more <- collectMatches now rest recentTenders ;;
      Ret (matches ++ more)
  end.

(** The owner's de-duplicated match set. *)
Definition uniqueMatches (now : Z) (alerts : list AlertConfiguration)
  (recentTenders : list Tender) : Result (list Tender) :=
  matchingTenders <- collectMatches now alerts recentTenders ;;
  Ret (removeDuplicateTenders matchingTenders).

(** The statistics of one configuration after a digest was sent:
    [updateStats] for each of its matches, then [incrementEmailSent]. *)
Definition recordMatches (now : Z) (alertMatches : list Tender)
  (alert : AlertConfiguration) : AlertConfiguration :=
  if nonEmpty alertMatches then
    incrementEmailSent now (fold_left (updateStats now) alertMatches alert)
  else alert.

(** "Update statistics for all triggered alerts": the documents as the loop
    leaves them, and the error that stopped it, if any. *)
Fixpoint updateTriggered (now : Z) (uniqueTenders : list Tender)
  (alerts : list AlertConfiguration) : list AlertConfiguration * option string :=
  match alerts with
  | [] => ([], None)
  | alert :: rest =>
      match filterM (shouldTriggerForTender now alert) uniqueTenders with
      | Throw message => (alert :: rest, Some message)
      | Ret alertMatches =>
          let '(rest', failure) := updateTriggered now uniqueTenders rest in
          (recordMatches now alertMatches alert :: rest', failure)
      end
  end.

(** [alerts[0].user] *)
Definition firstUser (alerts : list AlertConfiguration) : Result (option User) :=
  first <- reading (head alerts) "user" ;;
  Ret (user first).

(** The body of the [for (const [userId, alerts] of userAlerts.entries())] loop:
    the owner's documents and the state of the run after the iteration. *)
Definition processOwner (kind : Digest) (now : Z) (transport : Transport)
  (recentTenders : list Tender) (userId : string) (alerts : list AlertConfiguration)
  (st : RunState) : list AlertConfiguration * RunState :=
  let failed message := pushError userId (digestErrorType kind) message st in
  match firstUser alerts with
  | Throw message => (alerts, failed message)
  | Ret user =>
      match uniqueMatches now alerts recentTenders with
      | Throw message => (alerts, failed message)
      | Ret uniqueTenders =>
          if nonEmpty uniqueTenders then
            match sendSummary kind now transport user uniqueTenders alerts with
            | Throw message => (alerts, failed message)
            | Ret sent =>
                let st' :=
                  match sent with
                  | Some mail => recordMail userId mail st
                  | None => st
                  end in
                match updateTriggered now uniqueTenders alerts with
                | (alerts', Some message) =>
                    (alerts', pushError userId (digestErrorType kind) message st')
                | (alerts', None) =>
                    (alerts',
                     countProcessed
                       {| run_processed := run_processed st';
                          run_emailsSent := run_emailsSent st' + 1;
                          run_errors := run_errors st';
                          run_outbox := run_outbox st' |})
                end
            end
          else (alerts, countProcessed st)
      end
  end.

Fixpoint processOwners (kind : Digest) (now : Z) (transport : Transport)
  (recentTenders : list Tender) (userAlerts : list (string * list AlertConfiguration))
  (st : RunState) : list (string * list AlertConfiguration) * RunState :=
  match userAlerts with
  | [] => ([], st)
  | (userId, alerts) :: rest =>
      let '(alerts', st') :=
        processOwner kind now transport recentTenders userId alerts st in
      let '(rest', final) :=
        processOwners kind now transport recentTenders rest st' in
      ((userId, alerts') :: rest', final)
  end.

(** What a digest run leaves behind: the returned object, the mails accepted by
    the transport with the owner they went to, and the documents of the cohort. *)
Record DigestRun := {
  dig_results : Results;
  dig_outbox : list (string * Mail);
  dig_docs : list AlertConfiguration
}.

(** [processDailySummaries] and [processWeeklySummaries] on a cohort and the
    records of the window; grouping throws out of the run. *)
Definition processSummaries (kind : Digest) (now : Z) (transport : Transport)
  (alerts : list AlertConfiguration) (recentTenders : list Tender) : Result DigestRun :=
  if nonEmpty alerts then
    if nonEmpty recentTenders then
      userAlerts <- groupAlertsByUser alerts ;;
      let '(groups, final) :=
        processOwners kind now transport recentTenders userAlerts initialState in
      Ret {| dig_results := resultsOf final; dig_outbox := run_outbox final;
             dig_docs := concat (map snd groups) |}
    else
      Ret {| dig_results := resultsOf initialState; dig_outbox := [];
             dig_docs := alerts |}
  else
    Ret {| dig_results := {| processed := 0; results_emailsSent := 0; errors := None |};
           dig_outbox := []; dig_docs := alerts |}.

Definition processDailySummaries (time : string) (now : Z) (transport : Transport)
  (db : list AlertConfiguration) (recentTenders : list Tender) : Result DigestRun :=
  processSummaries dailyDigest now transport (findDailyAlerts time db) recentTenders.

Definition processWeeklySummaries (tz : TimeZone) (now : Z) (transport : Transport)
  (db : list AlertConfiguration) (weeklyTenders : list Tender) : Result DigestRun :=
  processSummaries weeklyDigest now transport (findWeeklyAlerts tz now db) weeklyTenders.

(** ** Scheduler and processing queue on the event loop

    The process has one event loop: a callback runs until its next [await], and
    callbacks interleave only there. A state records what is suspended at such a
    point; an event is one callback running from one suspension point to the next.

    [jobsInFlight] counts, per job name, the runs of
    [processDailySummaries] / [processWeeklySummaries] / [cleanupOldData] that were
    started by the timer callback of the job or by its manual trigger
    ([triggerDailySummary], [triggerWeeklySummary], [triggerCleanup]) and have not
    resolved. [draining] counts the activations of [processQueue] suspended inside
    the [while] loop. *)

Record Service := {
  jobsInFlight : gmap string nat;
  processingQueue : list Tender;
  isProcessing : bool;
  draining : nat
}.

Definition newService : Service :=
  {| jobsInFlight := ∅; processingQueue := []; isProcessing := false; draining := 0 |}.

Definition executions (s : Service) (jobName : string) : nat :=
  default 0%nat (jobsInFlight s !! jobName).

(** The timer callback and the manual trigger both call the run at once. *)
Definition trigger (jobName : string) (s : Service) : Service :=
  {| jobsInFlight := <[jobName := S (executions s jobName)]> (jobsInFlight s);
     processingQueue := processingQueue s; isProcessing := isProcessing s;
     draining := draining s |}.

(** A run in flight resolves. *)
Definition complete (jobName : string) (s : Service) : Service :=
  {| jobsInFlight := <[jobName := Nat.pred (executions s jobName)]> (jobsInFlight s);
     processingQueue := processingQueue s; isProcessing := isProcessing s;
     draining := draining s |}.

(** [processQueue()] up to its first [await]: the guard, the flag, the first
    [shift()] and the call of [processTenderAlerts]. *)
Definition processQueue (s : Service) : Service :=
  if isProcessing s || negb (nonEmpty (processingQueue s)) then s
  else
    {| jobsInFlight := jobsInFlight s; processingQueue := tail (processingQueue s);
       isProcessing := true; draining := S (draining s) |}.

(** [queueTenderForProcessing(tender)] *)
Definition queueTenderForProcessing (tender : Tender) (s : Service) : Service :=
  let s' :=
    {| jobsInFlight := jobsInFlight s;
       processingQueue := processingQueue s ++ [tender];
       isProcessing := isProcessing s; draining := draining s |} in
  if negb (isProcessing s') then processQueue s' else s'.

(** The suspended activation resumes after [processTenderAlerts] and [delay]
    resolved: the loop test, then either the next [shift()] or the [finally]. *)
Definition itemDone (s : Service) : Service :=
  match draining s with
  | O => s
  | S others =>
      match processingQueue s with
      | [] =>
          {| jobsInFlight := jobsInFlight s; processingQueue := [];
             isProcessing := false; draining := others |}
      | _ :: rest =>
          {| jobsInFlight := jobsInFlight s; processingQueue := rest;
             isProcessing := isProcessing s; draining := draining s |}
      end
  end.

(** [processTenderAlerts] rejected: [catch], then [finally]. *)
Definition itemFailed (s : Service) : Service :=
  match draining s with
  | O => s
  | S others =>
      {| jobsInFlight := jobsInFlight s; processingQueue := processingQueue s;
         isProcessing := false; draining := others |}
  end.

Inductive Event :=
| Trigger (jobName : string)
| Complete (jobName : string)
| QueueTender (tender : Tender)
| ProcessQueue
| ItemDone
| ItemFailed.

Definition step (s : Service) (e : Event) : Service :=
  match e with
  | Trigger jobName => trigger jobName s
  | Complete jobName => complete jobName s
  | QueueTender tender => queueTenderForProcessing tender s
  | ProcessQueue => processQueue s
  | ItemDone => itemDone s
  | ItemFailed => itemFailed s
  end.

Definition afterEvents (events : list Event) : Service :=
  fold_left step events newService.

(** ** Vocabulary of the statements *)

(** The configuration belongs to the owner with id [userId]. *)
Definition ownedBy (userId : string) (alert : AlertConfiguration) : bool :=
  match user alert with
  | Some u => String.eqb (user_id u) userId
  | None => false
  end.

(** The evaluator returns [true]. *)
Definition triggers (now : Z) (alert : AlertConfiguration) (tender : Tender) : bool :=
  match shouldTriggerForTender now alert tender with
  | Ret true => true
  | _ => false
  end.

(** The callback returns [true]. *)
Definition holds {A} (f : A -> Result bool) (x : A) : bool :=
  match f x with
  | Ret true => true
  | _ => false
  end.

(** The entry of [userId] in the map of [groupAlertsByUser]. *)
Fixpoint groupOf (userId : string) (userMap : list (string * list AlertConfiguration))
  : list AlertConfiguration :=
  match userMap with
  | [] => []
  | (key, alerts) :: rest =>
      if String.eqb key userId then alerts else groupOf userId rest
  end.

(** The sections of a digest: under each configuration of the owner, the records
    of the de-duplicated list that the configuration matches. *)
Definition sectionsOf (now : Z) (uniqueTenders : list Tender)
  (alerts : list AlertConfiguration) : list DigestSection :=
  map (fun a => (a, List.filter (triggers now a) uniqueTenders)) alerts.

(** The documents of one owner after the owner's iteration of a digest run, and
    the mails the iteration hands to the transport with success. *)
Definition ownerDocs (kind : Digest) (now : Z) (transport : Transport)
  (recentTenders : list Tender) (alerts : list AlertConfiguration)
  : list AlertConfiguration :=
  fst (processOwner kind now transport recentTenders "" alerts initialState).

Definition ownerMails (kind : Digest) (now : Z) (transport : Transport)
  (recentTenders : list Tender) (userId : string) (alerts : list AlertConfiguration)
  : list (string * Mail) :=
  run_outbox (snd (processOwner kind now transport recentTenders userId alerts
                     initialState)).

(** The error list of [st'] is the one of [st] with entries added at its end. *)
Definition ErrorsExtend (st st' : RunState) : Prop :=
  exists more, run_errors st' = run_errors st ++ more.

(** [word] occurs in [text] between the characters [l] and [r]. *)
Definition OccursBetween (l r : ascii) (word text : string) : Prop :=
  exists pre post, text = pre +:+ String l (word +:+ String r post).

(** [word] occurs in [text] with, on each side, a space or the end of the text. *)
Definition SpaceDelimited (word text : string) : Prop :=
  exists pre post,
    text = pre +:+ word +:+ post /\
    (pre = "" \/ exists a, pre = a +:+ " ") /\
    (post = "" \/ exists b, post = " " +:+ b).

(** The properties of the record that the filters of [this] read without a
    guard are present: the title for keyword and exclude-keyword clauses, the
    location for the location sets, the organization for the organization types,
    the dates for the days-until-closing bounds. *)
Definition ReadsDefined (this : AlertConfiguration) (tender : Tender) : Prop :=
  (nonEmpty (keywords this) || nonEmpty (excludeKeywords (advancedFilters this)) = true ->
   is_Some (title tender)) /\
  (nonEmpty (provinces (locations this)) || nonEmpty (districts (locations this))
   || nonEmpty (cities (locations this)) = true ->
   is_Some (location tender)) /\
  (nonEmpty (organizationTypes this) = true -> is_Some (organization tender)) /\
  (is_Some (truthyFraction (minDaysUntilClosing (advancedFilters this))) \/
   is_Some (truthyFraction (maxDaysUntilClosing (advancedFilters this))) ->
   is_Some (dates tender)).

(** The amount lies within the bounds that are set (and not zero). *)
Definition WithinRange (range : ValueRange) (value : Z) : Prop :=
  (forall lo, truthyNumber (range_min range) = Some lo -> lo <= value) /\
  (forall hi, truthyNumber (range_max range) = Some hi -> value <= hi).

(** The body lists the record with id [id] this many times. *)
Definition linksTo (id : string) (f : Fact) : bool :=
  match f with
  | TenderLink i => String.eqb i id
  | _ => false
  end.

Definition occurrences (id : string) (body : list Fact) : nat :=
  List.length (List.filter (linksTo id) body).

(** The facts that only the HTML bodies carry: the description excerpt of a card
    of the immediate alert, the total of the header of a summary. *)
Definition onlyInHTML (f : Fact) : bool :=
  match f with
  | DescriptionExcerpt _ _ | TotalMatches _ => true
  | _ => false
  end.

(** Every fact of the first body is in the second one or is one of [onlyInHTML]. *)
Definition Mirrors (html text : list Fact) : Prop :=
  forall f, In f html -> In f text \/ onlyInHTML f = true.

(** The flag [isProcessing] is set exactly while one activation of
    [processQueue] is inside its loop, and there is never a second one. *)
Definition QueueSerialized (s : Service) : Prop :=
  (isProcessing s = true /\ draining s = 1%nat) \/
  (isProcessing s = false /\ draining s = 0%nat).

(** ** Sample data *)

Definition noLocations : Locations :=
  {| provinces := []; districts := []; cities := [] |}.

Definition noRange : ValueRange :=
  {| range_min := None; range_max := None; range_currency := "LKR" |}.

Definition noAdvancedFilters : AdvancedFilters :=
  {| excludeKeywords := []; minDaysUntilClosing := None; maxDaysUntilClosing := None;
     includedStatuses := []; includedPriorities := [] |}.

Definition freshStats : Stats :=
  {| totalMatches := 0; emailsSent := 0; lastMatchedTender := None;
     lastMatchedAt := None |}.

Definition settings (f : Frequency) (sent : option Z) : EmailSettings :=
  {| enabled := true; frequency := f; customEmail := None; lastSentAt := sent;
     dailySummaryTime := "09:00" |}.

Definition subscriber (id : string) : User :=
  {| user_id := id; email := id +:+ "@example.com"; firstName := None;
     user_name := None; emailAlerts := Some true |}.

(** An active configuration of [owner] with the given keyword clauses and no
    other filter. *)
Definition configOf (id : string) (owner : option User) (f : Frequency)
  (clauses : list Keyword) : AlertConfiguration :=
  {| alert_id := id; user := owner; name := id; isActive := true;
     keywords := clauses; categories := []; locations := noLocations;
     organizationTypes := []; estimatedValue := noRange;
     emailSettings := settings f None; stats := freshStats;
     advancedFilters := noAdvancedFilters |}.

Definition rangeConfig (lo hi : option Z) : AlertConfiguration :=
  {| alert_id := "range"; user := None; name := "range"; isActive := true;
     keywords := []; categories := []; locations := noLocations;
     organizationTypes := [];
     estimatedValue := {| range_min := lo; range_max := hi; range_currency := "LKR" |};
     emailSettings := settings immediate None; stats := freshStats;
     advancedFilters := noAdvancedFilters |}.

(** A weekly configuration last sent at [sent]. *)
Definition weeklyConfig (id : string) (sent : option Z) : AlertConfiguration :=
  {| alert_id := id; user := Some (subscriber "owner"); name := id; isActive := true;
     keywords := []; categories := []; locations := noLocations;
     organizationTypes := []; estimatedValue := noRange;
     emailSettings := settings weekly sent; stats := freshStats;
     advancedFilters := noAdvancedFilters |}.

(** A zone whose offset never changes, and Coordinated Universal Time. *)
Definition fixedZone (offset : Z) : TimeZone :=
  {| utcOffset := fun _ => offset; localOffset := fun _ => offset |}.

Definition utc : TimeZone := fixedZone 0.

Definition msPerHour : Z := 1000 * 60 * 60.

(** A zone five hours behind Coordinated Universal Time that moves its clocks
    forward by one hour at the instant [switch]: local times before 3 o'clock
    of that night, the skipped hour included, are read with the old offset. *)
Definition springForward (switch : Z) : TimeZone :=
  {| utcOffset := fun t => if t <? switch then -5 * msPerHour else -4 * msPerHour;
     localOffset := fun t =>
       if t <? switch - 4 * msPerHour then -5 * msPerHour else -4 * msPerHour |}.

(** A record as the store holds it: every required property present. *)
Definition tenderOf (id title description : string) (value : option Z) : Tender :=
  {| tender_id := id; title := Some title; description := Some description;
     fullTextMarkdown := None; category := Some "Computer & IT";
     organization := Some {| org_name := Some "Ministry"; org_type := Some "government" |};
     location := Some {| province := Some "Western Province";
                         district := Some "Colombo"; city := None |};
     dates := Some {| published := Some 0; closing := Some 864000000 |};
     financials :=
       Some {| financials_estimatedValue :=
                 Some {| amount := value; currency := Some "LKR" |} |};
     status := Some "published"; priority := Some "medium" |}.

(** A record with nothing but an id. *)
Definition bareTender (id : string) : Tender :=
  {| tender_id := id; title := None; description := None; fullTextMarkdown := None;
     category := None; organization := None; location := None; dates := None;
     financials := None; status := None; priority := None |}.

Definition newline : string := String "010"%char EmptyString.

(** A record whose description has the word on a line of its own. *)
Definition newlineTender : Tender :=
  tenderOf "t-newline" "Notice"
    ("Supply of" +:+ newline +:+ "IT" +:+ newline +:+ "equipment") None.

Definition itExact : Keyword := {| term := "IT"; matchType := exact |}.

Definition laptopClause : Keyword := {| term := "laptop"; matchType := contains |}.

Definition laptopTender : Tender :=
  tenderOf "t1" "Supply of 50 Laptops" "Laptops for schools" (Some 4000).

(** Two daily configurations of one owner that both match [laptopTender], and a
    daily configuration of another owner that does not. *)
Definition laptopsDaily : AlertConfiguration :=
  configOf "laptops" (Some (subscriber "u1")) daily [laptopClause].

Definition suppliesDaily : AlertConfiguration :=
  configOf "supplies" (Some (subscriber "u1")) daily
    [{| term := "supply"; matchType := starts_with |}].

Definition furnitureDaily : AlertConfiguration :=
  configOf "furniture" (Some (subscriber "u2")) daily
    [{| term := "furniture"; matchType := contains |}].

(** A transport that refuses every message. *)
Definition smtpDown : Transport := fun _ => Some "connect ECONNREFUSED".

(** A transport that accepts every message. *)
Definition smtpUp : Transport := fun _ => None.

(** ** Further vocabulary *)

(** The configuration has no filter at all. *)
Definition NoFilters (this : AlertConfiguration) : Prop :=
  keywords this = [] /\
  excludeKeywords (advancedFilters this) = [] /\
  categories this = [] /\
  provinces (locations this) = [] /\
  districts (locations this) = [] /\
  cities (locations this) = [] /\
  organizationTypes this = [] /\
  truthyNumber (range_min (estimatedValue this)) = None /\
  truthyNumber (range_max (estimatedValue this)) = None /\
  truthyFraction (minDaysUntilClosing (advancedFilters this)) = None /\
  truthyFraction (maxDaysUntilClosing (advancedFilters this)) = None /\
  includedStatuses (advancedFilters this) = [] /\
  includedPriorities (advancedFilters this) = [].

(** A configuration with the given advanced filters and nothing else. *)
Definition advancedConfig (adv : AdvancedFilters) : AlertConfiguration :=
  {| alert_id := "adv"; user := None; name := "adv"; isActive := true;
     keywords := []; categories := []; locations := noLocations;
     organizationTypes := []; estimatedValue := noRange;
     emailSettings := settings daily None; stats := freshStats;
     advancedFilters := adv |}.

(** A configuration with the given location sets and nothing else. *)
Definition locationConfig (locs : Locations) : AlertConfiguration :=
  {| alert_id := "loc"; user := None; name := "loc"; isActive := true;
     keywords := []; categories := []; locations := locs;
     organizationTypes := []; estimatedValue := noRange;
     emailSettings := settings daily None; stats := freshStats;
     advancedFilters := noAdvancedFilters |}.

(** [doc] is the configuration [alert] after a run: the same document but for
    its statistics, which did not decrease, and the time of its last mail. *)
Definition UpdatedFrom (alert doc : AlertConfiguration) : Prop :=
  alert_id doc = alert_id alert /\
  user doc = user alert /\
  name doc = name alert /\
  isActive doc = isActive alert /\
  keywords doc = keywords alert /\
  categories doc = categories alert /\
  locations doc = locations alert /\
  organizationTypes doc = organizationTypes alert /\
  estimatedValue doc = estimatedValue alert /\
  advancedFilters doc = advancedFilters alert /\
  enabled (emailSettings doc) = enabled (emailSettings alert) /\
  frequency (emailSettings doc) = frequency (emailSettings alert) /\
  customEmail (emailSettings doc) = customEmail (emailSettings alert) /\
  dailySummaryTime (emailSettings doc) = dailySummaryTime (emailSettings alert) /\
  totalMatches (stats alert) <= totalMatches (stats doc) /\
  emailsSent (stats alert) <= emailsSent (stats doc).

(** The entitled configurations of a cohort: those the immediate run does not
    skip. *)
Definition entitled (alerts : list AlertConfiguration) : list AlertConfiguration :=
  List.filter (fun a => negb (lacksEmailAlerts a)) alerts.

(** The entries of the error list with the given type. *)
Definition errorsOfType (type : string) (errs : list RunError) : list RunError :=
  List.filter (fun e => String.eqb (error_type e) type) errs.

(** What the counters and lists of [final] add to those of [st]: [sent] mails,
    [failed] errors of type "email", [thrown] errors of type "processing". *)
Definition ImmediateDelta (st final : RunState) (sent failed thrown : nat) : Prop :=
  run_emailsSent final = run_emailsSent st + Z.of_nat sent /\
  List.length (run_outbox final) = (List.length (run_outbox st) + sent)%nat /\
  run_processed final = run_processed st + Z.of_nat sent + Z.of_nat failed /\
  List.length (errorsOfType "email" (run_errors final))
  = (List.length (errorsOfType "email" (run_errors st)) + failed)%nat /\
  List.length (errorsOfType "processing" (run_errors final))
  = (List.length (errorsOfType "processing" (run_errors st)) + thrown)%nat /\
  List.length (run_errors final)
  = (List.length (run_errors st) + failed + thrown)%nat.

(** What one owner's iteration of a digest run adds to the state of the run:
    [done] to the processed count, [failed] errors, [sent] mails. *)
Definition DigestDelta (kind : Digest) (st final : RunState) (done failed sent : nat)
  : Prop :=
  run_processed final = run_processed st + Z.of_nat done /\
  List.length (run_errors final) = (List.length (run_errors st) + failed)%nat /\
  run_emailsSent final = run_emailsSent st + Z.of_nat sent /\
  List.length (run_outbox final) = (List.length (run_outbox st) + sent)%nat /\
  (Forall (fun e => error_type e = digestErrorType kind) (run_errors st) ->
   Forall (fun e => error_type e = digestErrorType kind) (run_errors final)).

(** ** The daily and weekly runs with the clock read at every step

    A run is a sequence of steps: every call of the evaluator, of [updateStats]
    and of [incrementEmailSent] is one step, and [clock k] is the time [new Date()]
    gives at the step with number [k]. A computation of [Timed A] starts at a
    step number and returns its result with the number of the next step; a
    [Throw] keeps the number, since the run goes on with the next owner. *)

Module Clocked.

Definition Clock : Type := nat -> Z.

Definition Timed (A : Type) : Type := nat -> Result A * nat.

Definition ret {A} (a : A) : Timed A := fun n => (Ret a, n).

Definition lift {A} (r : Result A) : Timed A := fun n => (r, n).

Definition bindT {A B} (m : Timed A) (k : A -> Timed B) : Timed B :=
  fun n =>
    match m n with
    | (Ret a, n') => k a n'
    | (Throw message, n') => (Throw message, n')
    end.

Notation "x <~ m ;; k" := (bindT m (fun x => k))
  (at level 100, m at next level, right associativity).

(** [alert.shouldTriggerForTender(tender)]: one step. *)
Definition evaluate (clock : Clock) (alert : AlertConfiguration) (tender : Tender)
  : Timed bool :=
  fun n => (shouldTriggerForTender (clock n) alert tender, S n).

(** [tenders.filter(tender => alert.shouldTriggerForTender(tender))] *)
Fixpoint filterMatches (clock : Clock) (alert : AlertConfiguration)
  (tenders : list Tender) : Timed (list Tender) :=
  match tenders with
  | [] => ret []
  | tender :: rest =>
      b <~ evaluate clock alert tender ;;
      kept <~ filterMatches clock alert rest ;;
      ret (if b then tender :: kept else kept)
  end.

(** [matchingTenders.push(...matches)] for every configuration of the owner. *)
Fixpoint collectMatches (clock : Clock) (alerts : list AlertConfiguration)
  (recentTenders : list Tender) : Timed (list Tender) :=
  match alerts with
  | [] => ret []
  | alert :: rest =>
      matches <~ filterMatches clock alert recentTenders ;;
      more <~ collectMatches clock rest recentTenders ;;
      ret (matches ++ more)
  end.

Definition uniqueMatches (clock : Clock) (alerts : list AlertConfiguration)
  (recentTenders : list Tender) : Timed (list Tender) :=
  matchingTenders <~ collectMatches clock alerts recentTenders ;;
  ret (removeDuplicateTenders matchingTenders).

(** [groupTendersByAlert]: one entry per configuration, in cohort order. *)
Fixpoint groupTendersByAlert (clock : Clock) (tenders : list Tender)
  (alertConfigs : list AlertConfiguration) : Timed (list DigestSection) :=
  match alertConfigs with
  | [] => ret []
  | config :: rest =>
      matched <~ filterMatches clock config tenders ;;
      more <~ groupTendersByAlert clock tenders rest ;;
      ret ((config, matched) :: more)
  end.

(** [sendDailySummary] and [sendWeeklySummary] *)
Definition sendSummary (kind : Digest) (clock : Clock) (transport : Transport)
  (user : option User) (tenders : list Tender) (alertConfigs : list AlertConfiguration)
  : Timed (option Mail) :=
  if nonEmpty tenders then
    let subject := digestSubject kind (List.length tenders) in
    groupedTenders <~ groupTendersByAlert clock tenders alertConfigs ;;
    mail <~ lift (sendSummaryEmail transport user subject groupedTenders
                    (digestFrequency kind)) ;;
    ret (Some mail)
  else ret None.

(** [for (const tender of alertMatches) await alert.updateStats(tender)]: the
    document and the number of the next step. *)
Fixpoint updateStatsEach (clock : Clock) (alert : AlertConfiguration)
  (alertMatches : list Tender) (n : nat) : AlertConfiguration * nat :=
  match alertMatches with
  | [] => (alert, n)
  | tender :: rest =>
      updateStatsEach clock (updateStats (clock n) alert tender) rest (S n)
  end.

(** The statistics of one configuration after a digest was sent. *)
Definition recordMatches (clock : Clock) (alertMatches : list Tender)
  (alert : AlertConfiguration) (n : nat) : AlertConfiguration * nat :=
  if nonEmpty alertMatches then
    let '(alert', n') := updateStatsEach clock alert alertMatches n in
    (incrementEmailSent (clock n') alert', S n')
  else (alert, n).

(** "Update statistics for all triggered alerts": the documents as the loop
    leaves them, the error that stopped it, if any, and the next step. *)
Fixpoint updateTriggered (clock : Clock) (uniqueTenders : list Tender)
  (alerts : list AlertConfiguration) (n : nat)
  : list AlertConfiguration * option string * nat :=
  match alerts with
  | [] => ([], None, n)
  | alert :: rest =>
      match filterMatches clock alert uniqueTenders n with
      | (Throw message, n') => (alert :: rest, Some message, n')
      | (Ret alertMatches, n') =>
          let '(alert', n'') := recordMatches clock alertMatches alert n' in
          let '(rest', failure, final) :=
            updateTriggered clock uniqueTenders rest n'' in
          (alert' :: rest', failure, final)
      end
  end.

(** The body of the loop over the owners. *)
Definition processOwner (kind : Digest) (clock : Clock) (transport : Transport)
  (recentTenders : list Tender) (userId : string) (alerts : list AlertConfiguration)
  (st : RunState) (n : nat) : list AlertConfiguration * RunState * nat :=
  let failed message := pushError userId (digestErrorType kind) message st in
  match firstUser alerts with
  | Throw message => (alerts, failed message, n)
  | Ret user =>
      match uniqueMatches clock alerts recentTenders n with
      | (Throw message, n1) => (alerts, failed message, n1)
      | (Ret uniqueTenders, n1) =>
          if nonEmpty uniqueTenders then
            match sendSummary kind clock transport user uniqueTenders alerts n1 with
            | (Throw message, n2) => (alerts, failed message, n2)
            | (Ret sent, n2) =>
                let st' :=
                  match sent with
                  | Some mail => recordMail userId mail st
                  | None => st
                  end in
                match updateTriggered clock uniqueTenders alerts n2 with
                | (alerts', Some message, n3) =>
                    (alerts', pushError userId (digestErrorType kind) message st', n3)
                | (alerts', None, n3) =>
                    (alerts',
                     countProcessed
                       {| run_processed := run_processed st';
                          run_emailsSent := run_emailsSent st' + 1;
                          run_errors := run_errors st';
                          run_outbox := run_outbox st' |},
                     n3)
                end
            end
          else (alerts, countProcessed st, n1)
      end
  end.

Fixpoint processOwners (kind : Digest) (clock : Clock) (transport : Transport)
  (recentTenders : list Tender) (userAlerts : list (string * list AlertConfiguration))
  (st : RunState) (n : nat)
  : list (string * list AlertConfiguration) * RunState * nat :=
  match userAlerts with
  | [] => ([], st, n)
  | (userId, alerts) :: rest =>
      let '(alerts', st', n') :=
        processOwner kind clock transport recentTenders userId alerts st n in
      let '(rest', final, n'') :=
        processOwners kind clock transport recentTenders rest st' n' in
      ((userId, alerts') :: rest', final, n'')
  end.

(** The run on a cohort and the records of the window, the loop over the
    owners beginning at the step [start]. *)
Definition processSummaries (kind : Digest) (clock : Clock) (transport : Transport)
  (alerts : list AlertConfiguration) (recentTenders : list Tender) (start : nat)
  : Result DigestRun :=
  if nonEmpty alerts then
    if nonEmpty recentTenders then
      userAlerts <- groupAlertsByUser alerts ;;
      let '(groups, final, _) :=
        processOwners kind clock transport recentTenders userAlerts initialState
          start in
      Ret {| dig_results := resultsOf final; dig_outbox := run_outbox final;
             dig_docs := concat (map snd groups) |}
    else
      Ret {| dig_results := resultsOf initialState; dig_outbox := [];
             dig_docs := alerts |}
  else
    Ret {| dig_results := {| processed := 0; results_emailsSent := 0; errors := None |};
           dig_outbox := []; dig_docs := alerts |}.

(** [processDailySummaries(time)]: the clock is first read for [yesterday]. *)
Definition processDailySummaries (time : string) (clock : Clock) (transport : Transport)
  (db : list AlertConfiguration) (recentTenders : list Tender) : Result DigestRun :=
  processSummaries dailyDigest clock transport (findDailyAlerts time db) recentTenders 1.

(** [processWeeklySummaries()]: the clock is first read by [findWeeklyAlerts],
    then for [lastWeek]. *)
Definition processWeeklySummaries (tz : TimeZone) (clock : Clock) (transport : Transport)
  (db : list AlertConfiguration) (weeklyTenders : list Tender) : Result DigestRun :=
  processSummaries weeklyDigest clock transport (findWeeklyAlerts tz (clock 0%nat) db)
    weeklyTenders 2.

End Clocked.

(** The verdicts of the evaluator on these configurations and records are the
    same at every step of the run. Only a days-until-closing bound makes a
    verdict depend on the time. *)
Definition Stable (clock : Clocked.Clock) (alerts : list AlertConfiguration)
  (tenders : list Tender) : Prop :=
  forall a t i,
    In a alerts -> In t tenders ->
    shouldTriggerForTender (clock i) a t = shouldTriggerForTender (clock 0%nat) a t.

(** The document without the two time stamps a run writes. *)
Definition withoutStamps (a : AlertConfiguration) : AlertConfiguration :=
  withEmailSettings
    (withStats a
       {| totalMatches := totalMatches (stats a); emailsSent := emailsSent (stats a);
          lastMatchedTender := lastMatchedTender (stats a); lastMatchedAt := None |})
    {| enabled := enabled (emailSettings a); frequency := frequency (emailSettings a);
       customEmail := customEmail (emailSettings a); lastSentAt := None;
       dailySummaryTime := dailySummaryTime (emailSettings a) |}.


(** The mails of the run that are logged for [userId]. *)
Definition mailsOf (userId : string) (outbox : list (string * Mail))
  : list (string * Mail) :=
  List.filter (fun entry => String.eqb (fst entry) userId) outbox.

(** A clock that advances by one millisecond at every step. *)
Definition tickingFrom (start : Z) : Clocked.Clock := fun n => start + Z.of_nat n.

(** ** The scheduler service: the map of named jobs

    A job of the timer library is modelled by what the service gives it (the
    schedule expression, the time zone, the callback) and the one bit the
    service toggles: [start()] sets [running], [stop()] clears it. The callback
    is named by the processing entry point it calls. [jobs] is the [Map] of the
    service, in insertion order. *)

Module SchedulerService.

Inductive Task :=
| DailySummaries (time : string)
| WeeklySummaries
| CleanupTasks.

Record CronJob := {
  expression : string;
  timezone : string;
  task : Task;
  running : bool
}.

Record State := {
  jobs : list (string * CronJob);
  isInitialized : bool
}.

(** [new SchedulerService()] *)
Definition constructor : State := {| jobs := []; isInitialized := false |}.

(** [map.set(key, value)]: a known key keeps its place. *)
Fixpoint mapSet (key : string) (value : CronJob) (m : list (string * CronJob))
  : list (string * CronJob) :=
  match m with
  | [] => [(key, value)]
  | (k, v) :: rest =>
      if String.eqb k key then (k, value) :: rest else (k, v) :: mapSet key value rest
  end.

(** [map.get(key)] *)
Fixpoint mapGet (key : string) (m : list (string * CronJob)) : option CronJob :=
  match m with
  | [] => None
  | (k, v) :: rest => if String.eqb k key then Some v else mapGet key rest
  end.

(** [job.start()] and [job.stop()] *)
Definition start (job : CronJob) : CronJob :=
  {| expression := expression job; timezone := timezone job; task := task job;
     running := true |}.

Definition stop (job : CronJob) : CronJob :=
  {| expression := expression job; timezone := timezone job; task := task job;
     running := false |}.

(** [cron.schedule(expression, callback, { scheduled: false, timezone })], then
    [this.jobs.set(name, job)] and [job.start()]. *)
Definition register (name expr : string) (callback : Task) (s : State) : State :=
  let job :=
    {| expression := expr; timezone := "Asia/Colombo"; task := callback;
       running := false |} in
  {| jobs := mapSet name (start job) (jobs s); isInitialized := isInitialized s |}.

Definition scheduleDailySummaries (s : State) : State :=
  register "daily-09:00" "0 9 * * *" (DailySummaries "09:00") s.

(** The table [times] of [scheduleMultipleDailySummaryTimes]. *)
Definition times : list (string * string) :=
  [("08:00", "0 8 * * *"); ("10:00", "0 10 * * *");
   ("12:00", "0 12 * * *"); ("18:00", "0 18 * * *")].

Definition scheduleMultipleDailySummaryTimes (s : State) : State :=
  fold_left
    (fun s' '(time, cronExpression) =>
       register ("daily-" +:+ time) cronExpression (DailySummaries time) s')
    times s.

Definition scheduleWeeklySummaries (s : State) : State :=
  register "weekly" "0 9 * * 1" WeeklySummaries s.

Definition scheduleCleanupTasks (s : State) : State :=
  register "cleanup" "0 2 * * *" CleanupTasks s.

Definition initialize (s : State) : State :=
  if isInitialized s then s
  else
    let s := scheduleDailySummaries s in
    let s := scheduleWeeklySummaries s in
    let s := scheduleMultipleDailySummaryTimes s in
    let s := scheduleCleanupTasks s in
    {| jobs := jobs s; isInitialized := true |}.

(** [stopJob(jobName)] and [startJob(jobName)]: the returned boolean and the
    service afterwards. *)
Definition stopJob (jobName : string) (s : State) : bool * State :=
  match mapGet jobName (jobs s) with
  | Some job =>
      (true, {| jobs := mapSet jobName (stop job) (jobs s);
                isInitialized := isInitialized s |})
  | None => (false, s)
  end.

Definition startJob (jobName : string) (s : State) : bool * State :=
  match mapGet jobName (jobs s) with
  | Some job =>
      (true, {| jobs := mapSet jobName (start job) (jobs s);
                isInitialized := isInitialized s |})
  | None => (false, s)
  end.

Definition stopAllJobs (s : State) : State :=
  {| jobs := map (fun '(name, job) => (name, stop job)) (jobs s);
     isInitialized := isInitialized s |}.

Definition startAllJobs (s : State) : State :=
  {| jobs := map (fun '(name, job) => (name, start job)) (jobs s);
     isInitialized := isInitialized s |}.

(** [shutdown()]: stop all jobs, clear the map, reset the flag. *)
Definition shutdown (s : State) : State :=
  let s := stopAllJobs s in
  {| jobs := []; isInitialized := false |}.

(** The times of day for which the service holds a daily job. *)
Definition dailyTimes (s : State) : list string :=
  flat_map (fun '(_, job) =>
              match task job with
              | DailySummaries time => [time]
              | _ => []
              end)
           (jobs s).

(** A stored configuration, with the [updatedAt] stamp that the schema option
    [timestamps] maintains. *)
Record StoredAlert := {
  document : AlertConfiguration;
  updatedAt : Z
}.

(** The filter [{ isActive: false, updatedAt: { $lt: ninetyDaysAgo } }]. *)
Definition expired (ninetyDaysAgo : Z) (stored : StoredAlert) : bool :=
  negb (isActive (document stored)) && (updatedAt stored <? ninetyDaysAgo).

(** [cleanupOldData()]: the collection after [deleteMany], and [deletedCount].
    [ninetyDaysAgo.setDate(ninetyDaysAgo.getDate() - 90)] is the calendar
    arithmetic of [daysAgo]. *)
Definition cleanupOldData (tz : TimeZone) (now : Z) (collection : list StoredAlert)
  : list StoredAlert * nat :=
  let ninetyDaysAgo := daysAgo tz 90 now in
  (List.filter (fun stored => negb (expired ninetyDaysAgo stored)) collection,
   List.length (List.filter (expired ninetyDaysAgo) collection)).

End SchedulerService.

(** ** Recipients *)

(** The address of an immediate alert: the custom address of the configuration
    when it is set and not empty, the owner's address otherwise. *)
Definition immediateRecipient (alert : AlertConfiguration) (owner : User) : string :=
  match truthyString (customEmail (emailSettings alert)) with
  | Some custom => custom
  | None => email owner
  end.

(** A mail of an immediate run, logged under [ref], goes back to a configuration
    of the cohort. *)
Definition ImmediateMailOf (tender : Tender) (cohort : list AlertConfiguration)
  (ref : string) (mail : Mail) : Prop :=
  exists alert owner,
    In alert cohort /\ alert_id alert = ref /\ user alert = Some owner /\
    mail_to mail = immediateRecipient alert owner /\
    mail_subject mail = NewTenderAlert (title tender).

(** A configuration of the subscriber [u1] with a custom address. *)
Definition customAddressConfig (f : Frequency) : AlertConfiguration :=
  withEmailSettings (configOf "custom" (Some (subscriber "u1")) f [laptopClause])
    {| enabled := true; frequency := f; customEmail := Some "office@example.org";
       lastSentAt := None; dailySummaryTime := "09:00" |}.

(** ** Records the immediate templates cannot print

    The card of the immediate alert calls [substring] on the description and
    [toLocaleString] on the amount of an estimated value that is there. *)
Definition Unprintable (tender : Tender) : Prop :=
  description tender = None \/
  exists f ev,
    financials tender = Some f /\ financials_estimatedValue f = Some ev /\
    amount ev = None.

(** The mail statistics of [doc] are those of [alert]. *)
Definition SameMailStats (alert doc : AlertConfiguration) : Prop :=
  emailsSent (stats doc) = emailsSent (stats alert) /\
  lastSentAt (emailSettings doc) = lastSentAt (emailSettings alert).

(** A record with an estimated value in which only the currency is set. *)
Definition amountlessTender : Tender := tenderOf "t-amountless" "Laptops" "Supply of laptops" None.

(** ** The processing queue *)

(** No record waits in the queue while no activation of [processQueue] is in
    its loop. *)
Definition NothingStranded (s : Service) : Prop :=
  processingQueue s <> [] -> isProcessing s = true.

(** ** The alert controller

    A handler is modelled by the response it sends and the collection it leaves.
    The authenticated user is [userId]; a stored configuration belongs to the
    user its [user] reference names. *)

Module AlertController.

(** The part of the stored user that the handlers read:
    [subscription.plan] and [subscription.features.emailAlerts]. *)
Record Account := {
  plan : string;
  features_emailAlerts : bool
}.

(** How [new AlertConfiguration(alertData)] followed by [save()] ends. *)
Inductive Saved :=
| Document (alert : AlertConfiguration)
| ValidationError (fields : list string)
| OtherError.

Inductive Response :=
| Created (alert : AlertConfiguration)
| Ok (alert : AlertConfiguration)
| Deleted
| Tested (matchingTenders : list Tender) (matchCount totalTested : nat)
| TestEmailSent (mail : Mail)
| FeatureUnavailable
| LimitReached (maxAlerts : Z) (plan : string)
| BadRequest (fields : list string)
| NotFound
| ServerError.

(** The status code of a response. *)
Definition statusCode (r : Response) : Z :=
  match r with
  | Created _ => 201
  | Ok _ | Deleted | Tested _ _ _ | TestEmailSent _ => 200
  | FeatureUnavailable | LimitReached _ _ => 403
  | BadRequest _ => 400
  | NotFound => 404
  | ServerError => 500
  end.

Definition getMaxAlertsForPlan (plan : string) : Z :=
  if String.eqb plan "professional" then 10
  else if String.eqb plan "enterprise" then -1
  else 0.

(** [countDocuments({ user: userId })] *)
Definition countDocuments (userId : string) (db : list AlertConfiguration) : Z :=
  Z.of_nat (List.length (List.filter (ownedBy userId) db)).

(** [createAlert]: [account] is what [User.findById(userId)] resolves to, [save]
    stands for the construction and validation of the new document from the
    request body and the user id. *)
Definition createAlert {Body : Type} (save : Body -> string -> Saved)
  (account : option Account) (userId : string) (body : Body)
  (db : list AlertConfiguration) : Response * list AlertConfiguration :=
  match account with
  | None => (ServerError, db)
  | Some user =>
      if negb (features_emailAlerts user) then (FeatureUnavailable, db)
      else
        let existingAlertsCount := countDocuments userId db in
        let maxAlerts := getMaxAlertsForPlan (plan user) in
        if existingAlertsCount >=? maxAlerts then
          (LimitReached maxAlerts (plan user), db)
        else
          match save body userId with
          | Document alert => (Created alert, db ++ [alert])
          | ValidationError fields => (BadRequest fields, db)
          | OtherError => (ServerError, db)
          end
  end.

(** [AlertConfiguration.findOne({ _id: id, user: userId })] *)
Definition findOne (id userId : string) (db : list AlertConfiguration)
  : option AlertConfiguration :=
  List.find (fun a => String.eqb (alert_id a) id && ownedBy userId a) db.

(** [alert.save()] of a document that was loaded from the collection: the
    stored document with its [_id] is replaced. *)
Definition saveDocument (alert : AlertConfiguration) (db : list AlertConfiguration)
  : list AlertConfiguration :=
  map (fun a => if String.eqb (alert_id a) (alert_id alert) then alert else a) db.

Definition withActive (this : AlertConfiguration) (active : bool) : AlertConfiguration :=
  {| alert_id := alert_id this; user := user this; name := name this;
     isActive := active; keywords := keywords this;
     categories := categories this; locations := locations this;
     organizationTypes := organizationTypes this;
     estimatedValue := estimatedValue this; emailSettings := emailSettings this;
     stats := stats this; advancedFilters := advancedFilters this |}.

(** [toggleAlert]: [alert.isActive = !alert.isActive], then [save()]. *)
Definition toggleAlert (id userId : string) (db : list AlertConfiguration)
  : Response * list AlertConfiguration :=
  match findOne id userId db with
  | None => (NotFound, db)
  | Some alert =>
      let alert := withActive alert (negb (isActive alert)) in
      (Ok alert, saveDocument alert db)
  end.

(** [findOneAndDelete({ _id: id, user: userId })]: the first match goes. *)
Fixpoint deleteFirst (id userId : string) (db : list AlertConfiguration)
  : list AlertConfiguration :=
  match db with
  | [] => []
  | a :: rest =>
      if String.eqb (alert_id a) id && ownedBy userId a then rest
      else a :: deleteFirst id userId rest
  end.

Definition deleteAlert (id userId : string) (db : list AlertConfiguration)
  : Response * list AlertConfiguration :=
  match findOne id userId db with
  | None => (NotFound, db)
  | Some _ => (Deleted, deleteFirst id userId db)
  end.

(** An entry of [recentMatches]. *)
Record RecentMatch := {
  alertName : string;
  recent_lastMatchedAt : Z;
  recent_totalMatches : Z
}.

(** The object [stats] of [getAlertStats]. *)
Record AlertStats := {
  totalAlerts : nat;
  activeAlerts : nat;
  inactiveAlerts : nat;
  stats_totalMatches : Z;
  totalEmailsSent : Z;
  immediateAlerts : nat;
  dailyAlerts : nat;
  weeklyAlerts : nat;
  recentMatches : list RecentMatch
}.

(** [alerts.filter(a => a.stats.lastMatchedAt)], with the date that was found. *)
Definition matchedAlerts (alerts : list AlertConfiguration) : list RecentMatch :=
  flat_map (fun a =>
              match lastMatchedAt (stats a) with
              | Some matchedAt =>
                  [{| alertName := name a; recent_lastMatchedAt := matchedAt;
                      recent_totalMatches := totalMatches (stats a) |}]
              | None => []
              end)
           alerts.

(** [sort((a, b) => new Date(b.stats.lastMatchedAt) - new Date(a.stats.lastMatchedAt))]:
    the sort of an array is stable, entries of the same date keep their order. *)
Fixpoint insertRecent (entry : RecentMatch) (sorted : list RecentMatch)
  : list RecentMatch :=
  match sorted with
  | [] => [entry]
  | next :: rest =>
      if recent_lastMatchedAt next <=? recent_lastMatchedAt entry
      then entry :: next :: rest
      else next :: insertRecent entry rest
  end.

Definition sortRecent (entries : list RecentMatch) : list RecentMatch :=
  fold_right insertRecent [] entries.

Definition countWhere (p : AlertConfiguration -> bool) (alerts : list AlertConfiguration)
  : nat :=
  List.length (List.filter p alerts).

Definition getAlertStats (userId : string) (db : list AlertConfiguration) : AlertStats :=
  let alerts := List.filter (ownedBy userId) db in
  {| totalAlerts := List.length alerts;
     activeAlerts := countWhere isActive alerts;
     inactiveAlerts := countWhere (fun a => negb (isActive a)) alerts;
     stats_totalMatches :=
       fold_left (fun sum a => sum + totalMatches (stats a)) alerts 0;
     totalEmailsSent :=
       fold_left (fun sum a => sum + emailsSent (stats a)) alerts 0;
     immediateAlerts :=
       countWhere (fun a => frequencyIs (frequency (emailSettings a)) immediate) alerts;
     dailyAlerts :=
       countWhere (fun a => frequencyIs (frequency (emailSettings a)) daily) alerts;
     weeklyAlerts :=
       countWhere (fun a => frequencyIs (frequency (emailSettings a)) weekly) alerts;
     recentMatches := firstn 5 (sortRecent (matchedAlerts alerts)) |}.

(** [arr.slice(0, end)], [end] being what [parseInt] returned ([None] for
    [NaN], which counts as 0): a negative [end] counts from the end of the array. *)
Definition slice0 {A} (end_ : option Z) (arr : list A) : list A :=
  match end_ with
  | None => []
  | Some e =>
      if e <? 0 then firstn (Z.to_nat (Z.of_nat (List.length arr) + e)) arr
      else firstn (Z.to_nat e) arr
  end.

(** [testAlert]: [tenders] is what the query for the hundred most recently
    published records resolves to, [limit] is [parseInt(limit)]. *)
Definition testAlert (now : Z) (id userId : string) (limit : option Z)
  (db : list AlertConfiguration) (tenders : list Tender) : Response :=
  match findOne id userId db with
  | None => NotFound
  | Some alert =>
      match filterM (shouldTriggerForTender now alert) tenders with
      | Throw _ => ServerError
      | Ret matching =>
          let matchingTenders := slice0 limit matching in
          Tested matchingTenders (List.length matchingTenders) (List.length tenders)
      end
  end.

(** The record [mockTender] of [sendTestEmail]. *)
Definition mockTender (now : Z) : Tender :=
  {| tender_id := "test-tender-id";
     title := Some "Test Tender - Sample Construction Project";
     description :=
       Some "This is a test tender notification to verify your email alert configuration is working correctly.";
     fullTextMarkdown := None;
     category := Some "Construction";
     organization :=
       Some {| org_name := Some "Test Organization"; org_type := Some "government" |};
     location :=
       Some {| province := Some "Western"; district := Some "Colombo";
               city := Some "Colombo" |};
     dates := Some {| published := None; closing := Some (now + 7 * msPerDay) |};
     financials :=
       Some {| financials_estimatedValue :=
                 Some {| amount := Some 5000000; currency := Some "LKR" |} |};
     status := None; priority := None |}.

(** [sendTestEmail]: the configuration is loaded with its user, who is the
    authenticated user the query asked for. *)
Definition sendTestEmail (now : Z) (transport : Transport) (id userId : string)
  (db : list AlertConfiguration) : Response :=
  match findOne id userId db with
  | None => NotFound
  | Some alert =>
      match
        owner <- reading (user alert) "email" ;;
        sendImmediateAlert transport owner (mockTender now) alert
      with
      | Ret mail => TestEmailSent mail
      | Throw _ => ServerError
      end
  end.

End AlertController.

(** [later] is not more recent than [earlier]: the order of [recentMatches]. *)
Definition NotMoreRecent (earlier later : AlertController.RecentMatch) : Prop :=
  AlertController.recent_lastMatchedAt later
  <= AlertController.recent_lastMatchedAt earlier.

(** ** The record model: virtuals and the save hook *)

Module TenderModel.

Definition withStatus (this : Tender) (s : option string) : Tender :=
  {| tender_id := tender_id this; title := title this;
     description := description this; fullTextMarkdown := fullTextMarkdown this;
     category := category this; organization := organization this;
     location := location this; dates := dates this; financials := financials this;
     status := s; priority := priority this |}.

(** [this.status === s] *)
Definition statusIs (this : Tender) (s : string) : bool :=
  match status this with
  | Some s' => String.eqb s' s
  | None => false
  end.

(** The virtual [isExpired]: [new Date() > new Date(this.dates.closing)]; a
    missing closing date gives an invalid date and the comparison is false. *)
Definition isExpired (now : Z) (this : Tender) : Result bool :=
  d <- reading (dates this) "closing" ;;
  Ret (match closing d with
       | Some closingDate => closingDate <? now
       | None => false
       end).

(** The virtual [daysRemaining]; [None] is [NaN]. *)
Definition daysRemaining (now : Z) (this : Tender) : Result (option Z) :=
  if negb (statusIs this "published") then Ret (Some 0)
  else
    d <- reading (dates this) "closing" ;;
    Ret (match closing d with
         | Some closingDate => Some (Z.max 0 (ceilDiv (closingDate - now) msPerDay))
         | None => None
         end).

(** The [pre('save')] hook: the record as it is stored. *)
Definition preSave (now : Z) (this : Tender) : Result Tender :=
  expired <- isExpired now this ;;
  Ret (if expired && statusIs this "published"
       then withStatus this (Some "closed")
       else this).

End TenderModel.

(** ** Request validation: the two custom rules of the alert schema

    Each rule returns its value, or a message when both bounds are set with the
    lower above the upper; [true] stands for the value being returned. *)

Module Validation.

(** [value.min && value.max && value.min > value.max] *)
Definition estimatedValueRule (value : ValueRange) : bool :=
  match truthyNumber (range_min value), truthyNumber (range_max value) with
  | Some lo, Some hi => negb (hi <? lo)
  | _, _ => true
  end.

(** [value.minDaysUntilClosing && value.maxDaysUntilClosing &&
     value.minDaysUntilClosing > value.maxDaysUntilClosing] *)
Definition advancedFiltersRule (value : AdvancedFilters) : bool :=
  match truthyFraction (minDaysUntilClosing value),
        truthyFraction (maxDaysUntilClosing value) with
  | Some lo, Some hi => Qle_bool lo hi
  | _, _ => true
  end.

End Validation.

(** Some record with a closing date passes the days-until-closing check of
    the configuration. *)
Definition DaysSatisfiable (now : Z) (this : AlertConfiguration) : Prop :=
  exists closingDate,
    forall tender d, dates tender = Some d -> closing d = Some closingDate ->
                     checkDaysUntilClosing now this tender = Ret true.

(** A record with nothing but an id and a closing date. *)
Definition closingAt (closingDate : Z) : Tender :=
  {| tender_id := "t"; title := None; description := None;
     fullTextMarkdown := None; category := None; organization := None;
     location := None;
     dates := Some {| published := None; closing := Some closingDate |};
     financials := None; status := None; priority := None |}.

(** Day bounds between which no whole number lies. *)
Definition narrowDays : AdvancedFilters :=
  {| excludeKeywords := []; minDaysUntilClosing := Some (1 # 2);
     maxDaysUntilClosing := Some (7 # 10); includedStatuses := [];
     includedPriorities := [] |}.

(** * Properties *)

(** ** Strings *)

Lemma append_cons (c : ascii) (s t : string) : String c s +:+ t = String c (s +:+ t).
Proof. reflexivity. Qed.

Lemma append_nil_l (s : string) : "" +:+ s = s.
Proof. reflexivity. Qed.

Lemma append_nil_r (s : string) : s +:+ "" = s.
Proof. induction s as [|c s IH]; [reflexivity|]. by rewrite append_cons, IH. Qed.

Lemma append_assoc (s t u : string) : (s +:+ t) +:+ u = s +:+ (t +:+ u).
Proof.
  induction s as [|c s IH]; [reflexivity|].
  by rewrite !append_cons, IH.
Qed.

Lemma startsWith_spec (s p : string) :
  startsWith s p = true <-> exists r, s = p +:+ r.
Proof.
  revert s. induction p as [|a p IH]; intros s.
  - split; [intros _; by exists s | by destruct s].
  - destruct s as [|b s]; simpl.
    + split; [done | intros [r Hr]; discriminate Hr].
    + rewrite andb_true_iff, Ascii.eqb_eq, IH. split.
      * intros [-> [r ->]]. by exists r.
      * intros [r Hr]. rewrite append_cons in Hr. injection Hr as -> ->. eauto.
Qed.

Lemma includes_unfold (s p : string) :
  includes s p =
  startsWith s p ||
  match s with
  | EmptyString => false
  | String _ s' => includes s' p
  end.
Proof. by destruct s. Qed.

Lemma includes_spec (s p : string) :
  includes s p = true <-> exists a b, s = a +:+ p +:+ b.
Proof.
  induction s as [|c s IH]; rewrite includes_unfold, orb_true_iff, startsWith_spec.
  - split.
    + intros [[r Hr] | ?]; [|done]. by exists "", r.
    + intros [a [b Hab]]. left. destruct a; [by exists b | discriminate Hab].
  - rewrite IH. split.
    + intros [[r Hr] | [a [b ->]]]; [by exists "", r | by exists (String c a), b].
    + intros [[|c' a] [b Hab]].
      * left. by exists b.
      * right. rewrite append_cons in Hab. injection Hab as -> ->. eauto.
Qed.

Lemma endsWith_unfold (s p : string) :
  endsWith s p =
  String.eqb s p ||
  match s with
  | EmptyString => false
  | String _ s' => endsWith s' p
  end.
Proof. by destruct s. Qed.

Lemma endsWith_spec (s p : string) :
  endsWith s p = true <-> exists a, s = a +:+ p.
Proof.
  induction s as [|c s IH]; rewrite endsWith_unfold, orb_true_iff, String.eqb_eq.
  - split.
    + intros [<- | ?]; [by exists "" | done].
    + intros [a Ha]. left. destruct a; [done | discriminate Ha].
  - rewrite IH. split.
    + intros [<- | [a ->]]; [by exists "" | by exists (String c a)].
    + intros [[|c' a] Ha]; [by left | right].
      rewrite append_cons in Ha. injection Ha as -> ->. eauto.
Qed.

(** ** Keyword clauses (C4) *)

Ltac side := first [by left | right; by eexists].

Lemma exact_spec (term text : string) :
  keywordMatchesText exact term text = true <-> SpaceDelimited term text.
Proof.
  unfold keywordMatchesText, SpaceDelimited.
  rewrite !orb_true_iff, includes_spec, startsWith_spec, endsWith_spec, String.eqb_eq.
  split.
  - intros [[[[a [b ->]] | [r ->]] | [a ->]] | ->].
    + exists (a +:+ " "), (" " +:+ b). split; [|split; side].
      by rewrite !append_assoc.
    + exists "", (" " +:+ r). split; [|split; side].
      by rewrite append_nil_l, append_assoc.
    + exists (a +:+ " "), "". split; [|split; side].
      by rewrite append_nil_r, append_assoc.
    + exists "", "". split; [|split; side]. by rewrite append_nil_r.
  - intros [pre [post [-> [[-> | [a ->]] [-> | [b ->]]]]]].
    + right. by rewrite append_nil_r.
    + left; left; right. exists b. by rewrite append_nil_l, append_assoc.
    + left; right. exists a. by rewrite append_nil_r, append_assoc.
    + left; left; left. exists a, b. by rewrite !append_assoc.
Qed.

(** C4, as stated, fails: a word [IT] that stands on a line of its own, bounded by
    two newline characters, is whitespace-bounded in the search text, and the
    [exact] clause does not match it; the configuration with that clause alone
    does not trigger. *)
Lemma exact_misses_word_between_newlines :
  Ascii.is_space "010" = true /\
  (exists text, textToSearch newlineTender = Ret text /\
                OccursBetween "010" "010" "it" text) /\
  keywordMatches newlineTender itExact = Ret false /\
  shouldTriggerForTender 0 (configOf "c" None immediate [itExact]) newlineTender
  = Ret false.
Proof.
  split; [reflexivity|]. split; [|split; reflexivity].
  eexists. split; [reflexivity|].
  exists "notice supply of", ("equipment" +:+ " "). reflexivity.
Qed.

(** C4, amended: a clause with matchType [exact] matches a record exactly when
    the lower-cased term occurs in the lower-cased concatenation of title,
    description and extended text with a space character, or the end of that
    text, on each side. So the term "IT" does not match inside the text
    "DIGITAL", and it matches the word "IT" standing between two spaces. *)
Theorem exact_clause_matches_space_delimited_word
  (tender : Tender) (keyword : Keyword) (text : string) :
  matchType keyword = exact ->
  textToSearch tender = Ret text ->
  (keywordMatches tender keyword = Ret true <->
   SpaceDelimited (toLowerCase (term keyword)) text) /\
  keywordMatches (tenderOf "t" "DIGITAL" "" None) itExact = Ret false /\
  keywordMatches (tenderOf "t" "Supply of IT equipment" "" None) itExact = Ret true.
Proof.
  intros Hexact Htext. split; [|split; reflexivity].
  unfold keywordMatches. rewrite Htext, Hexact. cbn [bind]. split; intros H.
  - apply exact_spec. by injection H.
  - apply exact_spec in H. by rewrite H.
Qed.

Lemma exact_clause_matches_space_delimited_word_witness :
  (keywordMatches (tenderOf "t" "Need IT now" "" None) itExact = Ret true <->
   SpaceDelimited "it" "need it now  ") /\
  keywordMatches (tenderOf "t" "DIGITAL" "" None) itExact = Ret false /\
  keywordMatches (tenderOf "t" "Supply of IT equipment" "" None) itExact = Ret true.
Proof.
  apply (exact_clause_matches_space_delimited_word
           (tenderOf "t" "Need IT now" "" None) itExact "need it now  ");
    reflexivity.
Defined.

(** ** The chain of checks *)

Lemma andThen_true (c k : Result bool) :
  andThen c k = Ret true <-> c = Ret true /\ k = Ret true.
Proof.
  unfold andThen, bind. destruct c as [[]|]; split; try done.
  - by intros [_ ?].
  - by intros [? _].
  - by intros [? _].
Qed.

Lemma andThen_returns (c k : Result bool) :
  (exists b, c = Ret b) -> (c = Ret true -> exists b, k = Ret b) ->
  exists b, andThen c k = Ret b.
Proof.
  intros [[] ->] Hk; unfold andThen, bind; [by apply Hk | by exists false].
Qed.

(** A configuration triggers exactly when every check of the chain passes. *)
Lemma shouldTrigger_true (now : Z) (this : AlertConfiguration) (tender : Tender) :
  shouldTriggerForTender now this tender = Ret true <->
  isActive this = true /\
  checkKeywords this tender = Ret true /\
  checkExcludeKeywords this tender = Ret true /\
  checkCategories this tender = true /\
  checkProvinces this tender = Ret true /\
  checkDistricts this tender = Ret true /\
  checkCities this tender = Ret true /\
  checkOrganizationTypes this tender = Ret true /\
  checkEstimatedValue this tender = true /\
  checkDaysUntilClosing now this tender = Ret true /\
  checkStatuses this tender = true /\
  checkPriorities this tender = true.
Proof.
  unfold shouldTriggerForTender. rewrite !andThen_true.
  split.
  - intros (H1 & H2 & H3 & H4 & H5 & H6 & H7 & H8 & H9 & H10 & H11 & H12 & _).
    repeat split; congruence.
  - intros (H1 & H2 & H3 & H4 & H5 & H6 & H7 & H8 & H9 & H10 & H11 & H12).
    repeat split; congruence.
Qed.

(** The evaluator on the examples of the specification. *)

Lemma inactive_never_triggers (now : Z) (this : AlertConfiguration) (tender : Tender) :
  isActive this = false -> shouldTriggerForTender now this tender = Ret false.
Proof. intros H. unfold shouldTriggerForTender, andThen, bind. by rewrite H. Qed.

Example contains_computer :
  let this := configOf "c" None immediate [{| term := "computer"; matchType := contains |}] in
  shouldTriggerForTender 0 this (tenderOf "t1" "Office Computer Supply" "" None) = Ret true /\
  shouldTriggerForTender 0 this (tenderOf "t2" "Furniture Procurement" "" None) = Ret false.
Proof. split; reflexivity. Qed.

Example exclude_urgent :
  let this :=
    {| alert_id := "c"; user := None; name := "c"; isActive := true;
       keywords := [laptopClause]; categories := []; locations := noLocations;
       organizationTypes := []; estimatedValue := noRange;
       emailSettings := settings immediate None; stats := freshStats;
       advancedFilters :=
         {| excludeKeywords := ["urgent"]; minDaysUntilClosing := None;
            maxDaysUntilClosing := None; includedStatuses := [];
            includedPriorities := [] |} |} in
  shouldTriggerForTender 0 this (tenderOf "t1" "Laptops" "Delivery is URGENT" None)
  = Ret false /\
  shouldTriggerForTender 0 this (tenderOf "t1" "Laptops" "Delivery in May" None)
  = Ret true.
Proof. split; reflexivity. Qed.

Example laptop_end_to_end :
  let config := configOf "c1" (Some (subscriber "A")) immediate [laptopClause] in
  let run := processTenderAlerts 7 smtpUp [config] laptopTender in
  map fst (imm_outbox run) = ["c1"] /\
  map (fun doc => (totalMatches (stats doc), emailsSent (stats doc))) (imm_docs run)
  = [(1, 1)].
Proof. by vm_compute. Qed.

(** ** Value range (C5) *)

Lemma truthyNumber_Some (n : option Z) (z : Z) :
  truthyNumber n = Some z <-> n = Some z /\ z <> 0.
Proof.
  unfold truthyNumber. destruct n as [y|]; [|by split; [|intros []]].
  destruct (Z.eqb_spec y 0); split; try done.
  - intros [[= ->] ?]. done.
  - intros [= ->]. done.
  - by intros [-> _].
Qed.

Lemma belowBound_false (bound : option Z) (value : Z) :
  belowBound bound value = false <->
  forall lo, truthyNumber bound = Some lo -> lo <= value.
Proof.
  unfold belowBound. destruct (truthyNumber bound) as [b|].
  - rewrite Z.ltb_ge. split; [by intros ? ? [= <-] | eauto].
  - split; done.
Qed.

Lemma aboveBound_false (bound : option Z) (value : Z) :
  aboveBound bound value = false <->
  forall hi, truthyNumber bound = Some hi -> value <= hi.
Proof.
  unfold aboveBound. destruct (truthyNumber bound) as [b|].
  - rewrite Z.ltb_ge. split; [by intros ? ? [= <-] | eauto].
  - split; done.
Qed.

Lemma checkEstimatedValue_present (this : AlertConfiguration) (tender : Tender) (v : Z) :
  truthyNumber (tenderAmount tender) = Some v ->
  checkEstimatedValue this tender = true <-> WithinRange (estimatedValue this) v.
Proof.
  intros Hv. unfold checkEstimatedValue, WithinRange. rewrite Hv.
  rewrite <- belowBound_false, <- aboveBound_false.
  unfold belowBound, aboveBound.
  destruct (truthyNumber (range_min (estimatedValue this))),
           (truthyNumber (range_max (estimatedValue this)));
    rewrite ?andb_true_iff, ?negb_true_iff; tauto.
Qed.

Lemma checkEstimatedValue_absent (this : AlertConfiguration) (tender : Tender) :
  truthyNumber (tenderAmount tender) = None -> checkEstimatedValue this tender = true.
Proof.
  intros Hv. unfold checkEstimatedValue. rewrite Hv.
  by destruct (truthyNumber (range_min (estimatedValue this))),
              (truthyNumber (range_max (estimatedValue this))).
Qed.

(** C5, as stated, fails: the record has the estimated amount 0, the bounds are
    {min: 1000, max: 5000}, the amount is not within them, and the value-range
    check passes and the configuration triggers. *)
Lemma zero_amount_passes_minimum :
  let this := rangeConfig (Some 1000) (Some 5000) in
  let tender := tenderOf "t" "Laptops" "" (Some 0) in
  tenderAmount tender = Some 0 /\
  ~ (1000 <= 0 <= 5000) /\
  checkEstimatedValue this tender = true /\
  shouldTriggerForTender 0 this tender = Ret true.
Proof. repeat split; try reflexivity. lia. Qed.

(** C5, amended: for every configuration and record, a record whose estimated
    amount is present and not zero passes the value-range check exactly when the
    amount is at least the configured minimum and at most the configured maximum,
    each bound applying only if it is set and not zero; a record whose amount is
    absent or zero is never failed by the check; and a record matches only if it
    passes the check. With bounds {min: 1000, max: 5000} the amount 4000 passes
    and the amount 6000 fails. *)
Theorem value_range_check (this : AlertConfiguration) (tender : Tender) :
  (forall v, truthyNumber (tenderAmount tender) = Some v ->
     (checkEstimatedValue this tender = true <-> WithinRange (estimatedValue this) v)) /\
  (truthyNumber (tenderAmount tender) = None -> checkEstimatedValue this tender = true) /\
  (forall now, shouldTriggerForTender now this tender = Ret true ->
     checkEstimatedValue this tender = true) /\
  checkEstimatedValue (rangeConfig (Some 1000) (Some 5000))
    (tenderOf "t" "Laptops" "" (Some 4000)) = true /\
  checkEstimatedValue (rangeConfig (Some 1000) (Some 5000))
    (tenderOf "t" "Laptops" "" (Some 6000)) = false.
Proof.
  split; [|split; [|split; [|split; reflexivity]]].
  - intros v. apply checkEstimatedValue_present.
  - apply checkEstimatedValue_absent.
  - intros now H. apply shouldTrigger_true in H. tauto.
Qed.

Lemma value_range_check_witness :
  (checkEstimatedValue (rangeConfig (Some 1000) None)
     (tenderOf "t" "Laptops" "" (Some 4000)) = true <->
   WithinRange (estimatedValue (rangeConfig (Some 1000) None)) 4000) /\
  checkEstimatedValue (rangeConfig (Some 1000) None) (bareTender "t") = true.
Proof.
  pose proof (value_range_check (rangeConfig (Some 1000) None)
                (tenderOf "t" "Laptops" "" (Some 4000))) as [H _].
  pose proof (value_range_check (rangeConfig (Some 1000) None) (bareTender "t"))
    as [_ [H' _]].
  split; [apply (H 4000); reflexivity | apply H'; reflexivity].
Defined.

(** ** The evaluator never throws on the records of the store (C3) *)

Lemma textToSearch_returns (tender : Tender) :
  is_Some (title tender) -> exists text, textToSearch tender = Ret text.
Proof. intros [t Ht]. unfold textToSearch. rewrite Ht. eexists. reflexivity. Qed.

Lemma arraySome_returns {A} (f : A -> Result bool) (arr : list A) :
  (forall x, exists b, f x = Ret b) -> exists b, arraySome f arr = Ret b.
Proof.
  intros Hf. induction arr as [|x rest IH]; [by exists false|].
  simpl. destruct (Hf x) as [[] ->]; simpl; [by exists true | done].
Qed.

Lemma checkKeywords_returns (this : AlertConfiguration) (tender : Tender) :
  (nonEmpty (keywords this) = true -> is_Some (title tender)) ->
  exists b, checkKeywords this tender = Ret b.
Proof.
  intros H. unfold checkKeywords. destruct (nonEmpty (keywords this)); [|by eexists].
  destruct (textToSearch_returns tender (H eq_refl)) as [text Htext].
  apply arraySome_returns. intros keyword. unfold keywordMatches.
  rewrite Htext. by eexists.
Qed.

Lemma checkExcludeKeywords_returns (this : AlertConfiguration) (tender : Tender) :
  (nonEmpty (excludeKeywords (advancedFilters this)) = true -> is_Some (title tender)) ->
  exists b, checkExcludeKeywords this tender = Ret b.
Proof.
  intros H. unfold checkExcludeKeywords.
  destruct (nonEmpty (excludeKeywords (advancedFilters this))); [|by eexists].
  destruct (textToSearch_returns tender (H eq_refl)) as [text ->]. by eexists.
Qed.

Lemma checkProvinces_returns (this : AlertConfiguration) (tender : Tender) :
  (nonEmpty (provinces (locations this)) = true -> is_Some (location tender)) ->
  exists b, checkProvinces this tender = Ret b.
Proof.
  intros H. unfold checkProvinces.
  destruct (nonEmpty (provinces (locations this))); [|by eexists].
  destruct (H eq_refl) as [l ->]. by eexists.
Qed.

Lemma checkDistricts_returns (this : AlertConfiguration) (tender : Tender) :
  (nonEmpty (districts (locations this)) = true -> is_Some (location tender)) ->
  exists b, checkDistricts this tender = Ret b.
Proof.
  intros H. unfold checkDistricts.
  destruct (nonEmpty (districts (locations this))); [|by eexists].
  destruct (H eq_refl) as [l ->]. by eexists.
Qed.

Lemma checkCities_returns (this : AlertConfiguration) (tender : Tender) :
  (nonEmpty (cities (locations this)) = true -> is_Some (location tender)) ->
  exists b, checkCities this tender = Ret b.
Proof.
  intros H. unfold checkCities.
  destruct (nonEmpty (cities (locations this))); [|by eexists].
  destruct (H eq_refl) as [l ->]. simpl.
  destruct (truthyString (city l)); by eexists.
Qed.

Lemma checkOrganizationTypes_returns (this : AlertConfiguration) (tender : Tender) :
  (nonEmpty (organizationTypes this) = true -> is_Some (organization tender)) ->
  exists b, checkOrganizationTypes this tender = Ret b.
Proof.
  intros H. unfold checkOrganizationTypes.
  destruct (nonEmpty (organizationTypes this)); [|by eexists].
  destruct (H eq_refl) as [o ->]. by eexists.
Qed.

Lemma checkDaysUntilClosing_returns (now : Z) (this : AlertConfiguration)
  (tender : Tender) :
  (is_Some (truthyFraction (minDaysUntilClosing (advancedFilters this))) \/
   is_Some (truthyFraction (maxDaysUntilClosing (advancedFilters this))) ->
   is_Some (dates tender)) ->
  exists b, checkDaysUntilClosing now this tender = Ret b.
Proof.
  intros H. unfold checkDaysUntilClosing.
  destruct (truthyFraction (minDaysUntilClosing (advancedFilters this))) as [lo|] eqn:Hlo,
           (truthyFraction (maxDaysUntilClosing (advancedFilters this))) as [hi|] eqn:Hhi;
    try (by eexists);
    (assert (is_Some (dates tender)) as [d ->]
       by (apply H; rewrite ?Hlo, ?Hhi; first [by left; eexists | by right; eexists]));
    simpl; destruct (closing d); by eexists.
Qed.

(** The clock enters the result through the days-until-closing bounds only. *)
Lemma checkDaysUntilClosing_unset (now now' : Z) (this : AlertConfiguration)
  (tender : Tender) :
  truthyFraction (minDaysUntilClosing (advancedFilters this)) = None ->
  truthyFraction (maxDaysUntilClosing (advancedFilters this)) = None ->
  checkDaysUntilClosing now this tender = checkDaysUntilClosing now' this tender.
Proof. intros Hlo Hhi. unfold checkDaysUntilClosing. by rewrite Hlo, Hhi. Qed.

(** C3, as stated, fails: on a record without a title, a configuration with a
    keyword clause makes the evaluator throw. *)
Lemma missing_title_throws :
  shouldTriggerForTender 0 (configOf "c" None immediate [itExact]) (bareTender "t")
  = Throw "TypeError: Cannot read properties of undefined (reading 'toLowerCase')".
Proof. reflexivity. Qed.

(** C3, amended: the evaluator is a function of the configuration, the record
    and the clock, and the clock matters only when a days-until-closing bound is
    set. It returns a boolean and does not throw on any record that has the
    properties its filters read without a guard: the title when there are keyword
    or exclude-keyword clauses, the location when a location set is not empty,
    the organization when organization types are listed, the dates when a
    days-until-closing bound is set; whether description, extended text, city,
    category, closing date, estimated value, status or priority are present or
    absent makes no difference to that. *)
Theorem evaluator_returns_boolean
  (now : Z) (this : AlertConfiguration) (tender : Tender) :
  ReadsDefined this tender ->
  (exists b, shouldTriggerForTender now this tender = Ret b) /\
  (forall now',
     truthyFraction (minDaysUntilClosing (advancedFilters this)) = None ->
     truthyFraction (maxDaysUntilClosing (advancedFilters this)) = None ->
     shouldTriggerForTender now' this tender = shouldTriggerForTender now this tender).
Proof.
  intros (Htitle & Hloc & Horg & Hdates). split.
  - unfold shouldTriggerForTender.
    repeat (apply andThen_returns; [|intros _]); try by eexists.
    + apply checkKeywords_returns. intros H. apply Htitle. by rewrite H.
    + apply checkExcludeKeywords_returns. intros H. apply Htitle.
      rewrite H. apply orb_true_r.
    + apply checkProvinces_returns. intros H. apply Hloc. by rewrite H.
    + apply checkDistricts_returns. intros H. apply Hloc.
      rewrite H. by rewrite orb_true_r.
    + apply checkCities_returns. intros H. apply Hloc. rewrite H. apply orb_true_r.
    + by apply checkOrganizationTypes_returns.
    + by apply checkDaysUntilClosing_returns.
  - intros now' Hlo Hhi. unfold shouldTriggerForTender.
    by rewrite (checkDaysUntilClosing_unset now' now this tender Hlo Hhi).
Qed.

Lemma evaluator_returns_boolean_witness :
  (exists b, shouldTriggerForTender 0 (configOf "c" None immediate [itExact])
               (tenderOf "t" "Need IT now" "" None) = Ret b) /\
  (forall now',
     truthyFraction None = None -> truthyFraction None = None ->
     shouldTriggerForTender now' (configOf "c" None immediate [itExact])
       (tenderOf "t" "Need IT now" "" None)
     = shouldTriggerForTender 0 (configOf "c" None immediate [itExact])
         (tenderOf "t" "Need IT now" "" None)).
Proof.
  apply (evaluator_returns_boolean 0 (configOf "c" None immediate [itExact])
           (tenderOf "t" "Need IT now" "" None)).
  repeat split; intros _; by eexists.
Defined.

(** ** Weekly eligibility (C6) *)

Lemma frequencyIs_eq (f g : Frequency) : frequencyIs f g = true <-> f = g.
Proof. destruct f, g; simpl; split; congruence. Qed.

Lemma dueSince_spec (oneWeekAgo : Z) (a : AlertConfiguration) :
  dueSince oneWeekAgo a = true <->
  lastSentAt (emailSettings a) = None \/
  exists sent, lastSentAt (emailSettings a) = Some sent /\ sent <= oneWeekAgo.
Proof.
  unfold dueSince. destruct (lastSentAt (emailSettings a)) as [sent|].
  - rewrite Z.leb_le. split.
    + intros H. right. by exists sent.
    + intros [? | [s [[= <-] ?]]]; done.
  - split; [by left | done].
Qed.

Lemma daysAgo_within (tz : TimeZone) (days now shift : Z) :
  Z.abs (utcOffset tz now - localOffset tz (LocalTime tz now - days * msPerDay)) <= shift ->
  now - days * msPerDay - shift <= daysAgo tz days now <= now - days * msPerDay + shift.
Proof. unfold daysAgo, UTC, LocalTime. lia. Qed.

Lemma daysAgo_fixedZone (offset days now : Z) :
  daysAgo (fixedZone offset) days now = now - days * msPerDay.
Proof. unfold daysAgo, UTC, LocalTime. simpl. lia. Qed.

(** C6, as stated, fails: the process runs in a zone that moved its clocks
    forward four days before the run (New York, run on 2024-03-13 at noon); a
    weekly configuration last sent 6 days 23.5 hours before the run is selected,
    because the cut-off is noon of 2024-03-06 in local time, which is 6 days 23
    hours before the run. *)
Lemma weekly_selects_less_than_seven_days_ago :
  let tz := springForward 1710054000000 in
  let now := 1710345600000 in
  let sent := now - 7 * msPerDay + 1800000 in
  findWeeklyAlerts tz now [weeklyConfig "recent" (Some sent)]
  = [weeklyConfig "recent" (Some sent)] /\
  daysAgo tz 7 now = now - 7 * msPerDay + msPerHour /\
  ~ sent + 7 * msPerDay <= now.
Proof. by vm_compute. Qed.

(** C6, amended: the weekly query selects exactly the configurations of the
    collection that are active, email-enabled and of weekly frequency, and that
    were never sent or were last sent no later than the cut-off: the instant
    that has, in the local time of the process, the time of day of the run seven
    calendar days earlier. The cut-off is 7 days of 24 hours before the run when
    the offset of local time is the same at both ends, and within [shift] of
    that when the two offsets differ by at most [shift]. When they differ by at
    most a day, a configuration last sent 3 days ago is left out and one last
    sent 8 days ago and one never sent are selected. *)
Theorem weekly_eligibility (tz : TimeZone) (now : Z) (db : list AlertConfiguration)
  (a : AlertConfiguration) :
  (In a (findWeeklyAlerts tz now db) <->
   In a db /\
   isActive a = true /\
   enabled (emailSettings a) = true /\
   frequency (emailSettings a) = weekly /\
   (lastSentAt (emailSettings a) = None \/
    exists sent, lastSentAt (emailSettings a) = Some sent /\
                 sent <= daysAgo tz 7 now)) /\
  (forall shift,
     Z.abs (utcOffset tz now - localOffset tz (LocalTime tz now - 7 * msPerDay))
     <= shift ->
     now - 7 * msPerDay - shift <= daysAgo tz 7 now <= now - 7 * msPerDay + shift) /\
  (utcOffset tz now = localOffset tz (LocalTime tz now - 7 * msPerDay) ->
   daysAgo tz 7 now = now - 7 * msPerDay) /\
  (Z.abs (utcOffset tz now - localOffset tz (LocalTime tz now - 7 * msPerDay))
   <= msPerDay ->
   findWeeklyAlerts tz now
     [weeklyConfig "three" (Some (now - 3 * msPerDay));
      weeklyConfig "eight" (Some (now - 8 * msPerDay));
      weeklyConfig "never" None]
   = [weeklyConfig "eight" (Some (now - 8 * msPerDay)); weeklyConfig "never" None]).
Proof.
  split; [|split; [|split]].
  - unfold findWeeklyAlerts. rewrite filter_In.
    unfold activeWithFrequency.
    rewrite !andb_true_iff, frequencyIs_eq, dueSince_spec.
    split.
    + intros (Hin & ((Hact & Hen) & Hfreq) & Hdue). by repeat split.
    + intros (Hin & Hact & Hen & Hfreq & Hdue). by repeat split.
  - intros shift. apply daysAgo_within.
  - intros Hsame. pose proof (daysAgo_within tz 7 now 0) as H. lia.
  - intros Hshift. apply daysAgo_within in Hshift.
    assert ((now - 3 * msPerDay <=? daysAgo tz 7 now) = false) as H3
      by (apply Z.leb_gt; unfold msPerDay in *; lia).
    assert ((now - 8 * msPerDay <=? daysAgo tz 7 now) = true) as H8
      by (apply Z.leb_le; unfold msPerDay in *; lia).
    unfold findWeeklyAlerts, weeklyConfig, List.filter, activeWithFrequency, dueSince.
    cbn [isActive enabled emailSettings frequency settings lastSentAt frequencyIs andb].
    by rewrite H3, H8.
Qed.

Lemma weekly_eligibility_witness :
  findWeeklyAlerts utc 1710345600000
    [weeklyConfig "three" (Some (1710345600000 - 3 * msPerDay));
     weeklyConfig "eight" (Some (1710345600000 - 8 * msPerDay));
     weeklyConfig "never" None]
  = [weeklyConfig "eight" (Some (1710345600000 - 8 * msPerDay));
     weeklyConfig "never" None] /\
  daysAgo utc 7 1710345600000 = 1710345600000 - 7 * msPerDay.
Proof.
  destruct (weekly_eligibility utc 1710345600000 [] (weeklyConfig "never" None))
    as (_ & _ & Hsame & Hexamples).
  split; [apply Hexamples; by vm_compute | by apply Hsame].
Defined.

(** ** Immediate run *)

Lemma processAlerts_app (now : Z) (transport : Transport) (tender : Tender)
  (before after : list AlertConfiguration) (st : RunState) :
  processAlerts now transport tender (before ++ after) st =
  let '(docs1, evaluated1, st1) := processAlerts now transport tender before st in
  let '(docs2, evaluated2, st2) := processAlerts now transport tender after st1 in
  (docs1 ++ docs2, evaluated1 ++ evaluated2, st2).
Proof.
  revert st. induction before as [|alert before IH]; intros st; simpl.
  - by destruct (processAlerts now transport tender after st) as [[? ?] ?].
  - rewrite IH.
    destruct (processAlerts now transport tender before _) as [[docs1 ev1] st1].
    destruct (processAlerts now transport tender after st1) as [[docs2 ev2] st2].
    by destruct (step_evaluated _).
Qed.

Lemma processAlert_skips (now : Z) (transport : Transport) (tender : Tender)
  (alert : AlertConfiguration) (st : RunState) :
  lacksEmailAlerts alert = true ->
  processAlert now transport tender alert st =
  {| step_doc := alert; step_evaluated := false; step_state := st |}.
Proof.
  intros Hlacks. unfold processAlert. rewrite Hlacks. by destruct (user alert).
Qed.

(** C10: in an immediate run, a configuration whose populated user is absent, or
    whose user's [subscription.features.emailAlerts] flag is not true, is skipped
    before the predicate is called. The run is the run over the other
    configurations of the cohort: the document is left as it was, the predicate
    is not called on it, no mail is dispatched for it, nothing is added to the
    error list and the processed count does not move. *)
Theorem skipped_without_email_alerts_feature
  (now : Z) (transport : Transport) (tender : Tender)
  (before after : list AlertConfiguration) (alert : AlertConfiguration) :
  lacksEmailAlerts alert = true ->
  (forall st, processAlert now transport tender alert st =
              {| step_doc := alert; step_evaluated := false; step_state := st |}) /\
  processTenderAlertsOn now transport tender (before ++ alert :: after) =
  let '(docs1, evaluated1, st1) :=
    processAlerts now transport tender before initialState in
  let '(docs2, evaluated2, st2) := processAlerts now transport tender after st1 in
  {| imm_results := resultsOf st2; imm_outbox := run_outbox st2;
     imm_docs := docs1 ++ alert :: docs2; imm_evaluated := evaluated1 ++ evaluated2 |}.
Proof.
  intros Hlacks. split; [intros st; by apply processAlert_skips|].
  unfold processTenderAlertsOn.
  replace (nonEmpty (before ++ alert :: after)) with true by (by destruct before).
  rewrite processAlerts_app.
  destruct (processAlerts now transport tender before initialState)
    as [[docs1 ev1] st1].
  simpl. rewrite processAlert_skips by done. simpl.
  by destruct (processAlerts now transport tender after st1) as [[docs2 ev2] st2].
Qed.

Lemma skipped_without_email_alerts_feature_witness :
  let orphan := configOf "orphan" None immediate [laptopClause] in
  let paying := configOf "paying" (Some (subscriber "u1")) immediate [laptopClause] in
  let run := processTenderAlertsOn 7 smtpUp laptopTender [orphan; paying] in
  imm_docs run = [orphan; incrementEmailSent 7 (updateStats 7 paying laptopTender)] /\
  imm_evaluated run = ["paying"] /\
  processed (imm_results run) = 1 /\
  map fst (imm_outbox run) = ["paying"].
Proof.
  pose proof (skipped_without_email_alerts_feature 7 smtpUp laptopTender []
                [configOf "paying" (Some (subscriber "u1")) immediate [laptopClause]]
                (configOf "orphan" None immediate [laptopClause])
                eq_refl) as [_ H].
  cbv zeta. simpl app in H. rewrite H. by vm_compute.
Defined.

(** ** The error list of a run only grows *)

Lemma ErrorsExtend_refl (st : RunState) : ErrorsExtend st st.
Proof. exists []. by rewrite app_nil_r. Qed.

Lemma ErrorsExtend_trans (st1 st2 st3 : RunState) :
  ErrorsExtend st1 st2 -> ErrorsExtend st2 st3 -> ErrorsExtend st1 st3.
Proof.
  intros [m1 H1] [m2 H2]. exists (m1 ++ m2). by rewrite H2, H1, app_assoc.
Qed.

Lemma ErrorsExtend_same (st st' : RunState) :
  run_errors st' = run_errors st -> ErrorsExtend st st'.
Proof. intros H. exists []. by rewrite app_nil_r. Qed.

Lemma ErrorsExtend_pushError (ref type message : string) (st : RunState) :
  ErrorsExtend st (pushError ref type message st).
Proof. by eexists. Qed.

Lemma ErrorsExtend_In (st st' : RunState) (e : RunError) :
  ErrorsExtend st st' -> In e (run_errors st) -> In e (run_errors st').
Proof. intros [more ->] Hin. apply in_or_app. by left. Qed.

Lemma pushError_In (ref type message : string) (st : RunState) :
  In {| error_ref := ref; error_type := type; error_message := message |}
     (run_errors (pushError ref type message st)).
Proof. simpl. apply in_or_app. right. by left. Qed.

Lemma processAlert_errors (now : Z) (transport : Transport) (tender : Tender)
  (alert : AlertConfiguration) (st : RunState) :
  ErrorsExtend st (step_state (processAlert now transport tender alert st)).
Proof.
  unfold processAlert.
  destruct (user alert) as [u|]; [|apply ErrorsExtend_refl].
  destruct (lacksEmailAlerts alert); [apply ErrorsExtend_refl|].
  destruct (shouldTriggerForTender now alert tender) as [[]|message]; simpl.
  - destruct (_ && _); [|by apply ErrorsExtend_same].
    destruct (sendImmediateAlert _ _ _ _) as [mail|message]; simpl.
    + by apply ErrorsExtend_same.
    + by eexists.
  - apply ErrorsExtend_refl.
  - apply ErrorsExtend_pushError.
Qed.

Lemma processAlerts_errors (now : Z) (transport : Transport) (tender : Tender)
  (alerts : list AlertConfiguration) (st : RunState) :
  ErrorsExtend st (snd (processAlerts now transport tender alerts st)).
Proof.
  revert st. induction alerts as [|alert rest IH]; intros st; simpl.
  - apply ErrorsExtend_refl.
  - specialize (IH (step_state (processAlert now transport tender alert st))).
    destruct (processAlerts now transport tender rest _) as [[docs ev] final].
    eapply ErrorsExtend_trans; [apply processAlert_errors | exact IH].
Qed.

Lemma processOwner_errors (kind : Digest) (now : Z) (transport : Transport)
  (recentTenders : list Tender) (userId : string) (alerts : list AlertConfiguration)
  (st : RunState) :
  ErrorsExtend st (snd (processOwner kind now transport recentTenders userId alerts st)).
Proof.
  unfold processOwner.
  destruct (firstUser alerts) as [u|?]; [|apply ErrorsExtend_pushError].
  destruct (uniqueMatches now alerts recentTenders) as [unique|?];
    [|apply ErrorsExtend_pushError].
  destruct (nonEmpty unique); [|by apply ErrorsExtend_same].
  destruct (sendSummary kind now transport u unique alerts) as [sent|?];
    [|apply ErrorsExtend_pushError].
  destruct (updateTriggered now unique alerts) as [alerts' [message|]]; simpl.
  - destruct sent; by eexists.
  - destruct sent; by apply ErrorsExtend_same.
Qed.

Lemma processOwners_errors (kind : Digest) (now : Z) (transport : Transport)
  (recentTenders : list Tender) (userAlerts : list (string * list AlertConfiguration))
  (st : RunState) :
  ErrorsExtend st (snd (processOwners kind now transport recentTenders userAlerts st)).
Proof.
  revert st. induction userAlerts as [|[userId alerts] rest IH]; intros st; simpl.
  - apply ErrorsExtend_refl.
  - pose proof (processOwner_errors kind now transport recentTenders userId alerts st)
      as Hstep.
    destruct (processOwner kind now transport recentTenders userId alerts st)
      as [alerts' st'].
    specialize (IH st').
    destruct (processOwners kind now transport recentTenders rest st')
      as [rest' final].
    eapply ErrorsExtend_trans; [exact Hstep | exact IH].
Qed.

(** ** A failed dispatch (C2) *)

(** C2, as stated, fails for the immediate run: the transport refuses the mail,
    the failure is in the error list and nothing counts as sent, and yet the
    configuration's match statistics have been updated before the dispatch. *)
Lemma immediate_failure_keeps_match_stats :
  let config := configOf "c1" (Some (subscriber "u1")) immediate [laptopClause] in
  let run := processTenderAlertsOn 7 smtpDown laptopTender [config] in
  errors (imm_results run)
  = Some [{| error_ref := "c1"; error_type := "email";
             error_message := "connect ECONNREFUSED" |}] /\
  imm_outbox run = [] /\
  results_emailsSent (imm_results run) = 0 /\
  totalMatches (stats config) = 0 /\
  lastMatchedTender (stats config) = None /\
  map (fun doc => totalMatches (stats doc)) (imm_docs run) = [1] /\
  map (fun doc => lastMatchedTender (stats doc)) (imm_docs run) = [Some "t1"] /\
  map (fun doc => lastMatchedAt (stats doc)) (imm_docs run) = [Some 7].
Proof. by vm_compute. Qed.

(** C2, amended: when the dispatch to one recipient fails, the failure is
    appended to the run's error list and the remaining recipients are still
    processed. In a daily or weekly run none of the statistics of that
    recipient's configurations is updated. In an immediate run the
    configuration's emailsSent and lastSentAt are not updated, while its match
    statistics (totalMatches, lastMatchedTender, lastMatchedAt) have been updated
    before the dispatch and the configuration counts as processed. *)
Theorem failed_dispatch_is_isolated (now : Z) (transport : Transport) :
  (forall kind recentTenders userId alerts rest st user uniqueTenders message,
     firstUser alerts = Ret user ->
     uniqueMatches now alerts recentTenders = Ret uniqueTenders ->
     sendSummary kind now transport user uniqueTenders alerts = Throw message ->
     exists rest' final,
       processOwners kind now transport recentTenders ((userId, alerts) :: rest) st
       = ((userId, alerts) :: rest', final) /\
       processOwners kind now transport recentTenders rest
         (pushError userId (digestErrorType kind) message st) = (rest', final) /\
       In {| error_ref := userId; error_type := digestErrorType kind;
             error_message := message |} (run_errors final)) /\
  (forall tender alert u rest st message,
     user alert = Some u ->
     lacksEmailAlerts alert = false ->
     shouldTriggerForTender now alert tender = Ret true ->
     enabled (emailSettings alert) &&
       frequencyIs (frequency (emailSettings alert)) immediate = true ->
     sendImmediateAlert transport u tender (updateStats now alert tender)
     = Throw message ->
     exists docs evaluated final,
       processAlerts now transport tender (alert :: rest) st
       = (updateStats now alert tender :: docs, alert_id alert :: evaluated, final) /\
       processAlerts now transport tender rest
         (countProcessed (pushError (alert_id alert) "email" message st))
       = (docs, evaluated, final) /\
       In {| error_ref := alert_id alert; error_type := "email";
             error_message := message |} (run_errors final) /\
       emailsSent (stats (updateStats now alert tender)) = emailsSent (stats alert) /\
       lastSentAt (emailSettings (updateStats now alert tender))
       = lastSentAt (emailSettings alert) /\
       totalMatches (stats (updateStats now alert tender))
       = totalMatches (stats alert) + 1).
Proof.
  split.
  - intros kind recentTenders userId alerts rest st user unique message
      Huser Hunique Hsend.
    assert (nonEmpty unique = true) as Hne.
    { unfold sendSummary in Hsend. by destruct (nonEmpty unique). }
    pose proof (processOwners_errors kind now transport recentTenders rest
                  (pushError userId (digestErrorType kind) message st)) as Hext.
    destruct (processOwners kind now transport recentTenders rest
                (pushError userId (digestErrorType kind) message st))
      as [rest' final] eqn:Hrest.
    exists rest', final. split; [|split; [done|]].
    + simpl. unfold processOwner. by rewrite Huser, Hunique, Hne, Hsend, Hrest.
    + eapply ErrorsExtend_In; [exact Hext | apply pushError_In].
  - intros tender alert u rest st message Huser Hlacks Htrig Himm Hsend.
    pose proof (processAlerts_errors now transport tender rest
                  (countProcessed (pushError (alert_id alert) "email" message st)))
      as Hext.
    destruct (processAlerts now transport tender rest
                (countProcessed (pushError (alert_id alert) "email" message st)))
      as [[docs evaluated] final] eqn:Hrest.
    exists docs, evaluated, final.
    assert (processAlert now transport tender alert st =
            {| step_doc := updateStats now alert tender; step_evaluated := true;
               step_state :=
                 countProcessed (pushError (alert_id alert) "email" message st) |})
      as Hstep.
    { unfold processAlert. rewrite Huser, Hlacks, Htrig.
      change (emailSettings (updateStats now alert tender)) with (emailSettings alert).
      by rewrite Himm, Hsend. }
    repeat split; try done.
    + simpl. by rewrite Hstep; simpl; rewrite Hrest.
    + eapply ErrorsExtend_In; [exact Hext | apply pushError_In].
Qed.

Lemma failed_dispatch_is_isolated_witness :
  let config := configOf "c1" (Some (subscriber "u1")) immediate [laptopClause] in
  let digest := configOf "d1" (Some (subscriber "u1")) daily [laptopClause] in
  (exists rest' final,
     processOwners dailyDigest 7 smtpDown [laptopTender] [("u1", [digest])] initialState
     = (("u1", [digest]) :: rest', final) /\
     processOwners dailyDigest 7 smtpDown [laptopTender] []
       (pushError "u1" "daily_summary" "connect ECONNREFUSED" initialState)
     = (rest', final) /\
     In {| error_ref := "u1"; error_type := "daily_summary";
           error_message := "connect ECONNREFUSED" |} (run_errors final)) /\
  (exists docs evaluated final,
     processAlerts 7 smtpDown laptopTender [config] initialState
     = (updateStats 7 config laptopTender :: docs, "c1" :: evaluated, final) /\
     processAlerts 7 smtpDown laptopTender []
       (countProcessed (pushError "c1" "email" "connect ECONNREFUSED" initialState))
     = (docs, evaluated, final) /\
     In {| error_ref := "c1"; error_type := "email";
           error_message := "connect ECONNREFUSED" |} (run_errors final) /\
     emailsSent (stats (updateStats 7 config laptopTender)) = 0 /\
     lastSentAt (emailSettings (updateStats 7 config laptopTender)) = None /\
     totalMatches (stats (updateStats 7 config laptopTender)) = 0 + 1).
Proof.
  pose proof (failed_dispatch_is_isolated 7 smtpDown) as [Hdigest Himmediate].
  split.
  - apply (Hdigest dailyDigest [laptopTender] "u1"
             [configOf "d1" (Some (subscriber "u1")) daily [laptopClause]]
             [] initialState (Some (subscriber "u1")) [laptopTender]
             "connect ECONNREFUSED"); by vm_compute.
  - apply (Himmediate laptopTender
             (configOf "c1" (Some (subscriber "u1")) immediate [laptopClause])
             (subscriber "u1") [] initialState "connect ECONNREFUSED");
      reflexivity.
Defined.

(** ** Filters whose callback may throw *)

Lemma filterM_Ret {A} (f : A -> Result bool) (arr kept : list A) :
  filterM f arr = Ret kept ->
  (forall x, In x arr -> exists b, f x = Ret b) /\ kept = List.filter (holds f) arr.
Proof.
  revert kept. induction arr as [|x rest IH]; intros kept; simpl.
  - intros [= <-]. split; [by intros ? [] | done].
  - unfold holds at 1. destruct (f x) as [b|] eqn:Hx; [|done]. simpl.
    destruct (filterM f rest) as [kept'|]; [|done]. simpl. intros [= <-].
    destruct (IH kept' eq_refl) as [Hdef ->]. split.
    + intros y [<- | Hy]; [by exists b | by apply Hdef].
    + by destruct b.
Qed.

Lemma filterM_defined {A} (f : A -> Result bool) (arr : list A) :
  (forall x, In x arr -> exists b, f x = Ret b) ->
  filterM f arr = Ret (List.filter (holds f) arr).
Proof.
  induction arr as [|x rest IH]; intros Hdef; simpl; [done|].
  destruct (Hdef x (or_introl eq_refl)) as [b Hx].
  unfold holds at 1. rewrite Hx. simpl.
  rewrite IH by (intros y Hy; apply Hdef; by right). simpl. by destruct b.
Qed.

Lemma mapM_defined {A B} (f : A -> Result B) (g : A -> B) (arr : list A) :
  (forall x, In x arr -> f x = Ret (g x)) -> mapM f arr = Ret (map g arr).
Proof.
  induction arr as [|x rest IH]; intros Hdef; simpl; [done|].
  rewrite (Hdef x (or_introl eq_refl)). simpl.
  by rewrite IH by (intros y Hy; apply Hdef; by right).
Qed.

Lemma holds_triggers (now : Z) (alert : AlertConfiguration) :
  holds (shouldTriggerForTender now alert) = triggers now alert.
Proof. reflexivity. Qed.

(** ** De-duplication *)

Lemma keepUnseen_In (seen : gset string) (tenders : list Tender) (t : Tender) :
  In t (keepUnseen seen tenders) -> In t tenders /\ tender_id t ∉ seen.
Proof.
  revert seen. induction tenders as [|x rest IH]; intros seen; simpl; [done|].
  destruct (decide (tender_id x ∈ seen)) as [Hseen|Hnew].
  - intros Hin. destruct (IH _ Hin). auto.
  - intros [<- | Hin]; [auto|].
    destruct (IH _ Hin) as [? Hnot]. split; [auto|].
    intros ?. apply Hnot, elem_of_union. by right.
Qed.

Lemma keepUnseen_NoDup (seen : gset string) (tenders : list Tender) :
  List.NoDup (map tender_id (keepUnseen seen tenders)).
Proof.
  revert seen. induction tenders as [|x rest IH]; intros seen; simpl.
  - constructor.
  - destruct (decide (tender_id x ∈ seen)); [apply IH|].
    simpl. constructor; [|apply IH].
    intros Hin. apply in_map_iff in Hin as [t [Hid Hin]].
    apply keepUnseen_In in Hin as [_ Hnot]. set_solver.
Qed.

Lemma keepUnseen_keeps_ids (seen : gset string) (tenders : list Tender) (id : string) :
  In id (map tender_id tenders) -> id ∉ seen ->
  In id (map tender_id (keepUnseen seen tenders)).
Proof.
  revert seen. induction tenders as [|x rest IH]; intros seen; simpl; [done|].
  intros [Hid | Hin] Hnot.
  - subst id. destruct (decide (tender_id x ∈ seen)); [done | by left].
  - destruct (decide (tender_id x ∈ seen)); [by apply IH|].
    destruct (decide (id = tender_id x)) as [-> | Hne]; [by left|].
    right. apply IH; [done|].
    by intros [?%elem_of_singleton | ?]%elem_of_union.
Qed.

(** The de-duplicated list holds every id of the input exactly once, and only
    records of the input. *)
Lemma removeDuplicateTenders_spec (tenders : list Tender) :
  List.NoDup (map tender_id (removeDuplicateTenders tenders)) /\
  (forall t, In t (removeDuplicateTenders tenders) -> In t tenders) /\
  (forall id, In id (map tender_id (removeDuplicateTenders tenders)) <->
              In id (map tender_id tenders)).
Proof.
  unfold removeDuplicateTenders. split; [apply keepUnseen_NoDup|]. split.
  - intros t Hin. by apply keepUnseen_In in Hin as [? _].
  - intros id. split.
    + intros Hin. apply in_map_iff in Hin as [t [<- Hin]].
      apply in_map. by apply keepUnseen_In in Hin as [? _].
    + intros Hin. apply keepUnseen_keeps_ids; [done | set_solver].
Qed.

(** ** The matches of one owner *)

Lemma collectMatches_Ret (now : Z) (alerts : list AlertConfiguration)
  (recentTenders matching : list Tender) :
  collectMatches now alerts recentTenders = Ret matching ->
  (forall a t, In a alerts -> In t recentTenders ->
               exists b, shouldTriggerForTender now a t = Ret b) /\
  matching = flat_map (fun a => List.filter (triggers now a) recentTenders) alerts.
Proof.
  revert matching. induction alerts as [|alert rest IH]; intros matching; simpl.
  - intros [= <-]. split; [by intros ? ? [] | done].
  - destruct (filterM _ recentTenders) as [matches|] eqn:Hfilter; [|done]. simpl.
    destruct (collectMatches now rest recentTenders) as [more|]; [|done]. simpl.
    intros [= <-]. apply filterM_Ret in Hfilter as [Hdef ->].
    destruct (IH more eq_refl) as [Hrest ->]. split; [|done].
    intros a t [<- | Ha] Ht; [by apply Hdef | by apply Hrest].
Qed.

Lemma uniqueMatches_Ret (now : Z) (alerts : list AlertConfiguration)
  (recentTenders uniqueTenders : list Tender) :
  uniqueMatches now alerts recentTenders = Ret uniqueTenders ->
  (forall a t, In a alerts -> In t recentTenders ->
               exists b, shouldTriggerForTender now a t = Ret b) /\
  (forall t, In t uniqueTenders -> In t recentTenders) /\
  List.NoDup (map tender_id uniqueTenders) /\
  (forall id, In id (map tender_id uniqueTenders) <->
              exists a t, In a alerts /\ In t recentTenders /\
                          tender_id t = id /\ triggers now a t = true).
Proof.
  unfold uniqueMatches.
  destruct (collectMatches now alerts recentTenders) as [matching|] eqn:Hcollect;
    [|done].
  simpl. intros [= <-]. apply collectMatches_Ret in Hcollect as [Hdef ->].
  destruct (removeDuplicateTenders_spec
              (flat_map (fun a => List.filter (triggers now a) recentTenders) alerts))
    as (Hnodup & Hsub & Hids).
  split; [done|]. split; [|split; [done|]].
  - intros t Hin. apply Hsub in Hin. apply in_flat_map in Hin as [a [_ Hin]].
    by apply filter_In in Hin as [? _].
  - intros id. rewrite Hids, in_map_iff. split.
    + intros [t [<- Hin]]. apply in_flat_map in Hin as [a [Ha Hin]].
      apply filter_In in Hin as [Ht Htrig]. by exists a, t.
    + intros (a & t & Ha & Ht & <- & Htrig). exists t. split; [done|].
      apply in_flat_map. exists a. split; [done|]. by apply filter_In.
Qed.

(** ** Statistics after a digest *)

Lemma updateStats_fold_user (now : Z) (matches : list Tender) (alert : AlertConfiguration) :
  user (fold_left (updateStats now) matches alert) = user alert.
Proof.
  revert alert. induction matches as [|t rest IH]; intros alert; simpl; [done|].
  by rewrite IH.
Qed.

Lemma updateStats_fold_stats (now : Z) (matches : list Tender) (alert : AlertConfiguration) :
  totalMatches (stats (fold_left (updateStats now) matches alert))
  = totalMatches (stats alert) + Z.of_nat (List.length matches) /\
  emailsSent (stats (fold_left (updateStats now) matches alert))
  = emailsSent (stats alert).
Proof.
  revert alert. induction matches as [|t rest IH]; intros alert.
  - simpl. split; [lia | done].
  - cbn [fold_left List.length]. destruct (IH (updateStats now alert t)) as [-> ->].
    simpl. split; [lia | done].
Qed.

Lemma recordMatches_user (now : Z) (matches : list Tender) (alert : AlertConfiguration) :
  user (recordMatches now matches alert) = user alert.
Proof.
  unfold recordMatches. destruct (nonEmpty matches); [|done].
  simpl. apply updateStats_fold_user.
Qed.

(** After a digest each configuration has one more match per record listed
    under it, and one more email if at least one record is listed. *)
Lemma recordMatches_stats (now : Z) (matches : list Tender) (alert : AlertConfiguration) :
  totalMatches (stats (recordMatches now matches alert))
  = totalMatches (stats alert) + Z.of_nat (List.length matches) /\
  emailsSent (stats (recordMatches now matches alert))
  = emailsSent (stats alert) + (if nonEmpty matches then 1 else 0).
Proof.
  unfold recordMatches. destruct matches as [|t rest].
  - simpl. split; lia.
  - cbn [nonEmpty]. destruct (updateStats_fold_stats now (t :: rest) alert) as [H1 H2].
    cbn [incrementEmailSent withEmailSettings withStats stats totalMatches emailsSent].
    rewrite H1, H2. done.
Qed.

Lemma updateTriggered_defined (now : Z) (uniqueTenders : list Tender)
  (alerts : list AlertConfiguration) :
  (forall a t, In a alerts -> In t uniqueTenders ->
               exists b, shouldTriggerForTender now a t = Ret b) ->
  updateTriggered now uniqueTenders alerts
  = (map (fun a => recordMatches now (List.filter (triggers now a) uniqueTenders) a)
         alerts, None).
Proof.
  induction alerts as [|alert rest IH]; intros Hdef; simpl; [done|].
  rewrite filterM_defined by (intros t Ht; apply Hdef; [by left | done]).
  rewrite IH by (intros a t Ha Ht; apply Hdef; [by right | done]).
  by rewrite holds_triggers.
Qed.

Lemma updateTriggered_users (now : Z) (uniqueTenders : list Tender)
  (alerts : list AlertConfiguration) :
  map user (fst (updateTriggered now uniqueTenders alerts)) = map user alerts.
Proof.
  induction alerts as [|alert rest IH]; simpl; [done|].
  destruct (filterM _ uniqueTenders) as [matches|]; [|done].
  destruct (updateTriggered now uniqueTenders rest) as [rest' failure].
  simpl in *. by rewrite recordMatches_user, IH.
Qed.

Lemma groupTendersByAlert_defined (now : Z) (uniqueTenders : list Tender)
  (alerts : list AlertConfiguration) :
  (forall a t, In a alerts -> In t uniqueTenders ->
               exists b, shouldTriggerForTender now a t = Ret b) ->
  groupTendersByAlert now uniqueTenders alerts
  = Ret (sectionsOf now uniqueTenders alerts).
Proof.
  intros Hdef. unfold groupTendersByAlert, sectionsOf.
  apply mapM_defined. intros a Ha.
  rewrite filterM_defined by (intros t Ht; by apply Hdef).
  by rewrite holds_triggers.
Qed.

(** ** One owner in a digest run *)

Lemma processOwner_docs (kind : Digest) (now : Z) (transport : Transport)
  (recentTenders : list Tender) (userId : string) (alerts : list AlertConfiguration)
  (st : RunState) :
  fst (processOwner kind now transport recentTenders userId alerts st)
  = ownerDocs kind now transport recentTenders alerts.
Proof.
  unfold ownerDocs, processOwner.
  destruct (firstUser alerts) as [u|]; [|done].
  destruct (uniqueMatches now alerts recentTenders) as [unique|]; [|done].
  destruct (nonEmpty unique); [|done].
  destruct (sendSummary kind now transport u unique alerts) as [sent|]; [|done].
  by destruct (updateTriggered now unique alerts) as [alerts' [message|]].
Qed.

Lemma processOwner_outbox (kind : Digest) (now : Z) (transport : Transport)
  (recentTenders : list Tender) (userId : string) (alerts : list AlertConfiguration)
  (st : RunState) :
  run_outbox (snd (processOwner kind now transport recentTenders userId alerts st))
  = run_outbox st ++ ownerMails kind now transport recentTenders userId alerts.
Proof.
  unfold ownerMails, processOwner.
  destruct (firstUser alerts) as [u|]; [|by rewrite app_nil_r].
  destruct (uniqueMatches now alerts recentTenders) as [unique|];
    [|by rewrite app_nil_r].
  destruct (nonEmpty unique); [|by rewrite app_nil_r].
  destruct (sendSummary kind now transport u unique alerts) as [[mail|]|];
    destruct (updateTriggered now unique alerts) as [alerts' [failure|]];
    simpl; by rewrite ?app_nil_r.
Qed.

Lemma ownerMails_ref (kind : Digest) (now : Z) (transport : Transport)
  (recentTenders : list Tender) (userId : string) (alerts : list AlertConfiguration)
  (ref : string) (mail : Mail) :
  In (ref, mail) (ownerMails kind now transport recentTenders userId alerts) ->
  ref = userId.
Proof.
  unfold ownerMails, processOwner.
  destruct (firstUser alerts) as [u|]; [|done].
  destruct (uniqueMatches now alerts recentTenders) as [unique|]; [|done].
  destruct (nonEmpty unique); [|done].
  destruct (sendSummary kind now transport u unique alerts) as [[m|]|];
    destruct (updateTriggered now unique alerts) as [alerts' [failure|]];
    simpl; try done; by intros [[= <- _] | []].
Qed.

Lemma ownerDocs_users (kind : Digest) (now : Z) (transport : Transport)
  (recentTenders : list Tender) (alerts : list AlertConfiguration) :
  map user (ownerDocs kind now transport recentTenders alerts) = map user alerts.
Proof.
  unfold ownerDocs, processOwner.
  destruct (firstUser alerts) as [u|]; [|done].
  destruct (uniqueMatches now alerts recentTenders) as [unique|]; [|done].
  destruct (nonEmpty unique); [|done].
  destruct (sendSummary kind now transport u unique alerts) as [sent|]; [|done].
  pose proof (updateTriggered_users now unique alerts) as H.
  by destruct (updateTriggered now unique alerts) as [alerts' [message|]].
Qed.


(** An owner whose digest was accepted by the transport. *)
Lemma accepted_digest_effect (kind : Digest) (now : Z) (transport : Transport)
  (recentTenders : list Tender) (userId : string) (alerts : list AlertConfiguration)
  (uniqueTenders : list Tender) (mail : Mail) :
  uniqueMatches now alerts recentTenders = Ret uniqueTenders ->
  In (userId, mail) (ownerMails kind now transport recentTenders userId alerts) ->
  ownerMails kind now transport recentTenders userId alerts = [(userId, mail)] /\
  (exists user,
     firstUser alerts = Ret user /\
     sendSummaryEmail transport user
       (digestSubject kind (List.length uniqueTenders))
       (sectionsOf now uniqueTenders alerts) (digestFrequency kind) = Ret mail) /\
  ownerDocs kind now transport recentTenders alerts
  = map (fun a => recordMatches now (List.filter (triggers now a) uniqueTenders) a)
        alerts.
Proof.
  intros Hunique. pose proof (uniqueMatches_Ret _ _ _ _ Hunique) as (Hdef & Hsub & _).
  assert (forall a t, In a alerts -> In t uniqueTenders ->
                      exists b, shouldTriggerForTender now a t = Ret b) as Hdef'
    by (intros a t Ha Ht; apply Hdef; auto).
  unfold ownerDocs, ownerMails, processOwner. rewrite Hunique.
  destruct (firstUser alerts) as [u|]; [|done].
  destruct (nonEmpty uniqueTenders) eqn:Hne; [|done].
  unfold sendSummary. rewrite Hne, groupTendersByAlert_defined by done.
  rewrite updateTriggered_defined by done. cbn [bind].
  destruct (sendSummaryEmail _ _ _ _ _) as [m|] eqn:Hsend; [|done]. simpl.
  intros [[= <-] | []]. split; [done|]. split; [|done]. exists u. by split.
Qed.

(** ** Grouping by owner *)

Lemma pushToGroup_keys_old (userId : string) (alert : AlertConfiguration)
  (userMap : list (string * list AlertConfiguration)) :
  In userId (map fst userMap) ->
  map fst (pushToGroup userId alert userMap) = map fst userMap.
Proof.
  induction userMap as [|[key alerts] rest IH]; simpl; [done|].
  destruct (String.eqb_spec key userId) as [-> | Hne]; [done|].
  intros [? | Hin]; [done|]. simpl. by rewrite IH.
Qed.

Lemma pushToGroup_keys_new (userId : string) (alert : AlertConfiguration)
  (userMap : list (string * list AlertConfiguration)) :
  ~ In userId (map fst userMap) ->
  map fst (pushToGroup userId alert userMap) = map fst userMap ++ [userId].
Proof.
  induction userMap as [|[key alerts] rest IH]; simpl; [done|].
  intros Hnot. destruct (String.eqb_spec key userId) as [-> | Hne].
  - destruct Hnot. by left.
  - simpl. rewrite IH; [done|]. intros ?. apply Hnot. by right.
Qed.

Lemma pushToGroup_groupOf (userId key : string) (alert : AlertConfiguration)
  (userMap : list (string * list AlertConfiguration)) :
  groupOf key (pushToGroup userId alert userMap)
  = if String.eqb userId key then groupOf userId userMap ++ [alert]
    else groupOf key userMap.
Proof.
  induction userMap as [|[k alerts] rest IH]; simpl.
  - by destruct (String.eqb userId key).
  - destruct (String.eqb_spec k userId) as [-> | Hne]; simpl.
    + by destruct (String.eqb_spec userId key) as [-> | ?].
    + rewrite IH. destruct (String.eqb_spec userId key) as [<- | ?]; [|done].
      by destruct (String.eqb_spec k userId).
Qed.

Lemma groupInto_spec (userMap grouped : list (string * list AlertConfiguration))
  (seen alerts : list AlertConfiguration) :
  groupInto userMap alerts = Ret grouped ->
  List.NoDup (map fst userMap) ->
  (forall key, groupOf key userMap = List.filter (ownedBy key) seen) ->
  List.NoDup (map fst grouped) /\
  (forall key, groupOf key grouped = List.filter (ownedBy key) (seen ++ alerts)).
Proof.
  revert userMap seen. induction alerts as [|alert rest IH]; intros userMap seen; simpl.
  - intros [= <-] Hnodup Hgroups. by rewrite app_nil_r.
  - destruct (user alert) as [u|] eqn:Huser; [|done]. simpl.
    intros Hrest Hnodup Hgroups.
    replace (seen ++ alert :: rest) with ((seen ++ [alert]) ++ rest)
      by (by rewrite <- app_assoc).
    apply (IH _ _ Hrest).
    + destruct (in_dec string_dec (user_id u) (map fst userMap)) as [Hin | Hnot].
      * by rewrite pushToGroup_keys_old.
      * rewrite pushToGroup_keys_new by done.
        apply List.NoDup_app;
          [done | apply List.NoDup_cons; [by intros [] | apply List.NoDup_nil] |].
        by intros x Hx [<- | []].
    + intros key. rewrite pushToGroup_groupOf, List.filter_app, !Hgroups. simpl.
      assert (ownedBy key alert = String.eqb (user_id u) key) as ->
        by (unfold ownedBy; by rewrite Huser).
      destruct (String.eqb_spec (user_id u) key) as [<- | ?];
        [done | by rewrite app_nil_r].
Qed.

Lemma groupAlertsByUser_spec (alerts : list AlertConfiguration)
  (grouped : list (string * list AlertConfiguration)) :
  groupAlertsByUser alerts = Ret grouped ->
  List.NoDup (map fst grouped) /\
  (forall key, groupOf key grouped = List.filter (ownedBy key) alerts).
Proof.
  intros H. apply (groupInto_spec [] grouped [] alerts H); [constructor | done].
Qed.

Lemma groupOf_absent (key : string) (userMap : list (string * list AlertConfiguration)) :
  ~ In key (map fst userMap) -> groupOf key userMap = [].
Proof.
  induction userMap as [|[k alerts] rest IH]; simpl; [done|].
  intros Hnot. destruct (String.eqb_spec k key) as [-> | ?].
  - destruct Hnot. by left.
  - apply IH. intros ?. apply Hnot. by right.
Qed.

Lemma groupOf_In (key : string) (alerts : list AlertConfiguration)
  (userMap : list (string * list AlertConfiguration)) :
  List.NoDup (map fst userMap) -> In (key, alerts) userMap ->
  groupOf key userMap = alerts.
Proof.
  induction userMap as [|[k group] rest IH]; simpl; [done|].
  intros Hnodup. apply List.NoDup_cons_iff in Hnodup as [Hnot Hnodup].
  intros [[= -> ->] | Hin].
  - by rewrite String.eqb_refl.
  - destruct (String.eqb_spec k key) as [-> | ?]; [|by apply IH].
    destruct Hnot. apply in_map_iff. by exists (key, alerts).
Qed.

Lemma ownedBy_functional (key key' : string) (alert : AlertConfiguration) :
  ownedBy key alert = true -> ownedBy key' alert = true -> key = key'.
Proof.
  unfold ownedBy. destruct (user alert) as [u|]; [|done].
  intros H1%String.eqb_eq H2%String.eqb_eq. congruence.
Qed.

Lemma ownedBy_users (key : string) (docs alerts : list AlertConfiguration) :
  map user docs = map user alerts ->
  (forall a, In a alerts -> ownedBy key a = true) ->
  forall d, In d docs -> ownedBy key d = true.
Proof.
  revert alerts. induction docs as [|doc docs IH]; intros [|alert alerts]; simpl;
    try done.
  intros [= Huser Husers] Howned d [<- | Hin].
  - unfold ownedBy. rewrite Huser. apply (Howned alert). by left.
  - apply (IH alerts Husers); [|done]. intros a Ha. apply Howned. by right.
Qed.

Lemma filter_all {A} (f : A -> bool) (l : list A) :
  (forall x, In x l -> f x = true) -> List.filter f l = l.
Proof.
  induction l as [|x rest IH]; intros H; simpl; [done|].
  rewrite (H x) by (by left). rewrite IH; [done|]. intros y Hy. apply H. by right.
Qed.

Lemma filter_none {A} (f : A -> bool) (l : list A) :
  (forall x, In x l -> f x = false) -> List.filter f l = [].
Proof.
  induction l as [|x rest IH]; intros H; simpl; [done|].
  rewrite (H x) by (by left). apply IH. intros y Hy. apply H. by right.
Qed.

(** The documents of one owner in the documents of all groups. *)
Lemma grouped_docs_of_owner (F : list AlertConfiguration -> list AlertConfiguration)
  (userId : string) (userMap : list (string * list AlertConfiguration)) :
  F [] = [] ->
  List.NoDup (map fst userMap) ->
  (forall key alerts d, In (key, alerts) userMap -> In d (F alerts) ->
                        ownedBy key d = true) ->
  List.filter (ownedBy userId) (concat (map (fun group => F (snd group)) userMap))
  = F (groupOf userId userMap).
Proof.
  intros Hnil. induction userMap as [|[key alerts] rest IH]; simpl; [done|].
  intros Hnodup Howned. apply List.NoDup_cons_iff in Hnodup as [Hnot Hnodup].
  rewrite List.filter_app, IH; [|done|]; cycle 1.
  { intros k group d Hin. apply Howned. by right. }
  destruct (String.eqb_spec key userId) as [-> | Hne].
  - rewrite (groupOf_absent userId rest Hnot), Hnil, app_nil_r.
    apply filter_all. intros d Hd. apply (Howned userId alerts); [by left | done].
  - rewrite filter_none; [done|]. intros d Hd.
    destruct (ownedBy userId d) eqn:Hmine; [|done].
    destruct Hne. eapply ownedBy_functional; [|exact Hmine].
    apply (Howned key alerts); [by left | done].
Qed.

(** ** The whole digest run, seen from one owner *)

Lemma processOwners_spec (kind : Digest) (now : Z) (transport : Transport)
  (recentTenders : list Tender) (userAlerts : list (string * list AlertConfiguration))
  (st : RunState) :
  fst (processOwners kind now transport recentTenders userAlerts st)
  = map (fun group =>
           (fst group, ownerDocs kind now transport recentTenders (snd group)))
        userAlerts /\
  run_outbox (snd (processOwners kind now transport recentTenders userAlerts st))
  = run_outbox st ++
    flat_map (fun group =>
                ownerMails kind now transport recentTenders (fst group) (snd group))
             userAlerts.
Proof.
  revert st. induction userAlerts as [|[userId alerts] rest IH]; intros st; simpl.
  - by rewrite app_nil_r.
  - pose proof (processOwner_docs kind now transport recentTenders userId alerts st)
      as Hdocs.
    pose proof (processOwner_outbox kind now transport recentTenders userId alerts st)
      as Hout.
    destruct (processOwner kind now transport recentTenders userId alerts st)
      as [alerts' st'].
    destruct (IH st') as [IHdocs IHout].
    destruct (processOwners kind now transport recentTenders rest st')
      as [rest' final].
    simpl in *. subst. split; [done|]. by rewrite IHout, Hout, app_assoc.
Qed.

Lemma groupOf_present (key : string) (userMap : list (string * list AlertConfiguration)) :
  groupOf key userMap <> [] -> In (key, groupOf key userMap) userMap.
Proof.
  induction userMap as [|[k alerts] rest IH]; simpl; [done|].
  destruct (String.eqb_spec k key) as [-> | ?]; [by left | right; by apply IH].
Qed.

Lemma ownerDocs_nil (kind : Digest) (now : Z) (transport : Transport)
  (recentTenders : list Tender) :
  ownerDocs kind now transport recentTenders [] = [].
Proof. reflexivity. Qed.

Lemma ownerMails_nil (kind : Digest) (now : Z) (transport : Transport)
  (recentTenders : list Tender) (userId : string) :
  ownerMails kind now transport recentTenders userId [] = [].
Proof. reflexivity. Qed.

(** In a run that reaches the loop over the owners, the documents of an owner
    and the mails logged for that owner are those of the owner's iteration on
    the owner's configurations of the cohort. *)
Lemma digest_run_owner (kind : Digest) (now : Z) (transport : Transport)
  (alerts : list AlertConfiguration) (recentTenders : list Tender) (run : DigestRun)
  (userId : string) :
  processSummaries kind now transport alerts recentTenders = Ret run ->
  nonEmpty alerts = true -> nonEmpty recentTenders = true ->
  List.filter (ownedBy userId) (dig_docs run)
  = ownerDocs kind now transport recentTenders (List.filter (ownedBy userId) alerts) /\
  (forall mail,
     In (userId, mail) (dig_outbox run) <->
     In (userId, mail)
        (ownerMails kind now transport recentTenders userId
           (List.filter (ownedBy userId) alerts))).
Proof.
  intros Hrun Ha Ht. unfold processSummaries in Hrun. rewrite Ha, Ht in Hrun.
  destruct (groupAlertsByUser alerts) as [grouped|] eqn:Hgroup; [|done].
  apply groupAlertsByUser_spec in Hgroup as [Hnodup Hgroups].
  simpl in Hrun.
  destruct (processOwners_spec kind now transport recentTenders grouped initialState)
    as [Hdocs Hout].
  destruct (processOwners kind now transport recentTenders grouped initialState)
    as [groups final].
  injection Hrun as <-. simpl in *. subst groups. rewrite Hout. split.
  - rewrite map_map. simpl. rewrite <- Hgroups.
    apply (grouped_docs_of_owner (ownerDocs kind now transport recentTenders));
      [done | done |].
    intros key group d Hin Hd.
    apply (ownedBy_users key _ group
             (ownerDocs_users kind now transport recentTenders group)); [|done].
    rewrite <- (groupOf_In key group grouped Hnodup Hin), Hgroups.
    intros a Hfa. by apply filter_In in Hfa as [_ ?].
  - intros mail. rewrite in_flat_map. split.
    + intros [[key group] [Hin Hmail]]. simpl in Hmail.
      pose proof (ownerMails_ref _ _ _ _ _ _ _ _ Hmail) as ->.
      by rewrite <- Hgroups, (groupOf_In key group grouped Hnodup Hin).
    + intros Hmail. rewrite <- Hgroups in Hmail.
      exists (userId, groupOf userId grouped). split; [|done].
      apply groupOf_present. intros Hnil. by rewrite Hnil in Hmail.
Qed.

(** ** An owner without matches (C7) *)




(** ** The clock of a run

    As long as the verdicts of the evaluator do not change during the run, the
    run with the clock read at every step gives the results, the mails and, up
    to the time stamps, the documents of the run at the first clock reading. *)

Lemma filterMatches_stable (clock : Clocked.Clock) (alert : AlertConfiguration)
  (tenders : list Tender) (n : nat) :
  (forall t i, In t tenders ->
     shouldTriggerForTender (clock i) alert t
     = shouldTriggerForTender (clock 0%nat) alert t) ->
  fst (Clocked.filterMatches clock alert tenders n)
  = filterM (shouldTriggerForTender (clock 0%nat) alert) tenders.
Proof.
  revert n. induction tenders as [|t rest IH]; intros n Hstable; [done|].
  cbn [Clocked.filterMatches filterM]. unfold Clocked.bindT at 1, Clocked.evaluate.
  rewrite (Hstable t n) by (by left).
  destruct (shouldTriggerForTender (clock 0%nat) alert t) as [b|message]; [|done].
  cbn [bind]. unfold Clocked.bindT.
  specialize (IH (S n) (fun t' i H => Hstable t' i (or_intror H))).
  destruct (Clocked.filterMatches clock alert rest (S n)) as [[kept|message] n'];
    simpl in IH; by rewrite <- IH.
Qed.

Lemma collectMatches_stable (clock : Clocked.Clock) (alerts : list AlertConfiguration)
  (recentTenders : list Tender) (n : nat) :
  Stable clock alerts recentTenders ->
  fst (Clocked.collectMatches clock alerts recentTenders n)
  = collectMatches (clock 0%nat) alerts recentTenders.
Proof.
  revert n. induction alerts as [|alert rest IH]; intros n Hstable; [done|].
  cbn [Clocked.collectMatches collectMatches]. unfold Clocked.bindT at 1.
  pose proof (filterMatches_stable clock alert recentTenders n
                (fun t i H => Hstable alert t i (or_introl eq_refl) H)) as Hfilter.
  destruct (Clocked.filterMatches clock alert recentTenders n) as [[matches|message] n'];
    simpl in Hfilter; rewrite <- Hfilter; [|done].
  cbn [bind]. unfold Clocked.bindT.
  specialize (IH n' (fun a t i Ha Ht => Hstable a t i (or_intror Ha) Ht)).
  destruct (Clocked.collectMatches clock rest recentTenders n') as [[more|message] n''];
    simpl in IH; by rewrite <- IH.
Qed.

Lemma uniqueMatches_stable (clock : Clocked.Clock) (alerts : list AlertConfiguration)
  (recentTenders : list Tender) (n : nat) :
  Stable clock alerts recentTenders ->
  fst (Clocked.uniqueMatches clock alerts recentTenders n)
  = uniqueMatches (clock 0%nat) alerts recentTenders.
Proof.
  intros Hstable. unfold Clocked.uniqueMatches, uniqueMatches, Clocked.bindT.
  pose proof (collectMatches_stable clock alerts recentTenders n Hstable) as H.
  destruct (Clocked.collectMatches clock alerts recentTenders n) as [[m|message] n'];
    simpl in H; by rewrite <- H.
Qed.

Lemma groupTendersByAlert_stable (clock : Clocked.Clock) (tenders : list Tender)
  (alertConfigs : list AlertConfiguration) (n : nat) :
  Stable clock alertConfigs tenders ->
  fst (Clocked.groupTendersByAlert clock tenders alertConfigs n)
  = groupTendersByAlert (clock 0%nat) tenders alertConfigs.
Proof.
  unfold groupTendersByAlert.
  revert n. induction alertConfigs as [|config rest IH]; intros n Hstable; [done|].
  cbn [Clocked.groupTendersByAlert mapM]. unfold Clocked.bindT at 1.
  pose proof (filterMatches_stable clock config tenders n
                (fun t i H => Hstable config t i (or_introl eq_refl) H)) as Hfilter.
  destruct (Clocked.filterMatches clock config tenders n) as [[matched|message] n'];
    simpl in Hfilter; rewrite <- Hfilter; [|done].
  cbn [bind]. unfold Clocked.bindT.
  specialize (IH n' (fun a t i Ha Ht => Hstable a t i (or_intror Ha) Ht)).
  destruct (Clocked.groupTendersByAlert clock tenders rest n') as [[more|message] n''];
    simpl in IH; by rewrite <- IH.
Qed.

Lemma sendSummary_stable (kind : Digest) (clock : Clocked.Clock) (transport : Transport)
  (user : option User) (tenders : list Tender) (alertConfigs : list AlertConfiguration)
  (n : nat) :
  Stable clock alertConfigs tenders ->
  fst (Clocked.sendSummary kind clock transport user tenders alertConfigs n)
  = sendSummary kind (clock 0%nat) transport user tenders alertConfigs.
Proof.
  intros Hstable. unfold Clocked.sendSummary, sendSummary.
  destruct (nonEmpty tenders); [|done]. unfold Clocked.bindT at 1.
  pose proof (groupTendersByAlert_stable clock tenders alertConfigs n Hstable) as H.
  destruct (Clocked.groupTendersByAlert clock tenders alertConfigs n)
    as [[grouped|message] n']; simpl in H; rewrite <- H; [|done].
  cbn [bind]. unfold Clocked.bindT, Clocked.lift.
  by destruct (sendSummaryEmail _ _ _ _ _).
Qed.

Lemma withoutStamps_updateStats (now : Z) (a : AlertConfiguration) (tender : Tender) :
  withoutStamps (updateStats now a tender)
  = withoutStamps (updateStats 0 (withoutStamps a) tender).
Proof. reflexivity. Qed.

Lemma withoutStamps_incrementEmailSent (now : Z) (a : AlertConfiguration) :
  withoutStamps (incrementEmailSent now a)
  = withoutStamps (incrementEmailSent 0 (withoutStamps a)).
Proof. reflexivity. Qed.

Lemma withoutStamps_fields (a : AlertConfiguration) :
  alert_id (withoutStamps a) = alert_id a /\
  user (withoutStamps a) = user a /\
  totalMatches (stats (withoutStamps a)) = totalMatches (stats a) /\
  emailsSent (stats (withoutStamps a)) = emailsSent (stats a).
Proof. done. Qed.

Lemma updateStatsEach_stamps (clock : Clocked.Clock) (now : Z)
  (a a' : AlertConfiguration) (alertMatches : list Tender) (n : nat) :
  withoutStamps a = withoutStamps a' ->
  withoutStamps (fst (Clocked.updateStatsEach clock a alertMatches n))
  = withoutStamps (fold_left (updateStats now) alertMatches a').
Proof.
  revert a a' n. induction alertMatches as [|t rest IH]; intros a a' n Ha; [done|].
  simpl. apply IH.
  by rewrite (withoutStamps_updateStats (clock n)), (withoutStamps_updateStats now), Ha.
Qed.

Lemma recordMatches_stamps (clock : Clocked.Clock) (now : Z)
  (alertMatches : list Tender) (a : AlertConfiguration) (n : nat) :
  withoutStamps (fst (Clocked.recordMatches clock alertMatches a n))
  = withoutStamps (recordMatches now alertMatches a).
Proof.
  unfold Clocked.recordMatches, recordMatches.
  destruct (nonEmpty alertMatches); [|done].
  pose proof (updateStatsEach_stamps clock now a a alertMatches n eq_refl) as H.
  destruct (Clocked.updateStatsEach clock a alertMatches n) as [a' n']. simpl in *.
  by rewrite (withoutStamps_incrementEmailSent (clock n')),
    (withoutStamps_incrementEmailSent now), H.
Qed.

Lemma updateTriggered_stable (clock : Clocked.Clock) (uniqueTenders : list Tender)
  (alerts : list AlertConfiguration) (n : nat) :
  Stable clock alerts uniqueTenders ->
  map withoutStamps (fst (fst (Clocked.updateTriggered clock uniqueTenders alerts n)))
  = map withoutStamps (fst (updateTriggered (clock 0%nat) uniqueTenders alerts)) /\
  snd (fst (Clocked.updateTriggered clock uniqueTenders alerts n))
  = snd (updateTriggered (clock 0%nat) uniqueTenders alerts).
Proof.
  revert n. induction alerts as [|alert rest IH]; intros n Hstable; [done|].
  cbn [Clocked.updateTriggered updateTriggered].
  pose proof (filterMatches_stable clock alert uniqueTenders n
                (fun t i H => Hstable alert t i (or_introl eq_refl) H)) as Hfilter.
  destruct (Clocked.filterMatches clock alert uniqueTenders n)
    as [[alertMatches|message] n']; simpl in Hfilter; rewrite <- Hfilter; [|done].
  pose proof (recordMatches_stamps clock (clock 0%nat) alertMatches alert n') as Hrecord.
  destruct (Clocked.recordMatches clock alertMatches alert n') as [alert' n''].
  specialize (IH n'' (fun a t i Ha Ht => Hstable a t i (or_intror Ha) Ht)).
  destruct (Clocked.updateTriggered clock uniqueTenders rest n'')
    as [[restC failureC] final].
  destruct (updateTriggered (clock 0%nat) uniqueTenders rest) as [rest' failure].
  simpl in *. destruct IH as [IHdocs IHfail]. split; [|done].
  by rewrite Hrecord, IHdocs.
Qed.

Lemma processOwner_stable (kind : Digest) (clock : Clocked.Clock) (transport : Transport)
  (recentTenders : list Tender) (userId : string) (alerts : list AlertConfiguration)
  (st : RunState) (n : nat) :
  Stable clock alerts recentTenders ->
  map withoutStamps
    (fst (fst (Clocked.processOwner kind clock transport recentTenders userId alerts
                 st n)))
  = map withoutStamps
      (fst (processOwner kind (clock 0%nat) transport recentTenders userId alerts st)) /\
  snd (fst (Clocked.processOwner kind clock transport recentTenders userId alerts st n))
  = snd (processOwner kind (clock 0%nat) transport recentTenders userId alerts st).
Proof.
  intros Hstable. unfold Clocked.processOwner, processOwner.
  destruct (firstUser alerts) as [user|message]; [|done].
  pose proof (uniqueMatches_stable clock alerts recentTenders n Hstable) as Hunique.
  destruct (Clocked.uniqueMatches clock alerts recentTenders n)
    as [[uniqueTenders|message] n1]; simpl in Hunique; rewrite <- Hunique; [|done].
  destruct (nonEmpty uniqueTenders); [|done].
  assert (Stable clock alerts uniqueTenders) as Hstable'.
  { symmetry in Hunique. apply uniqueMatches_Ret in Hunique as (_ & Hsub & _).
    intros a t i Ha Ht. apply Hstable; [done | by apply Hsub]. }
  pose proof (sendSummary_stable kind clock transport user uniqueTenders alerts n1
                Hstable') as Hsend.
  destruct (Clocked.sendSummary kind clock transport user uniqueTenders alerts n1)
    as [[sent|message] n2]; simpl in Hsend; rewrite <- Hsend; [|done].
  pose proof (updateTriggered_stable clock uniqueTenders alerts n2 Hstable')
    as [Hdocs Hfailure].
  destruct (Clocked.updateTriggered clock uniqueTenders alerts n2)
    as [[alertsC failureC] n3].
  destruct (updateTriggered (clock 0%nat) uniqueTenders alerts) as [alerts' failure].
  simpl in Hdocs, Hfailure. subst failureC. by destruct failure.
Qed.

Lemma processOwners_stable (kind : Digest) (clock : Clocked.Clock) (transport : Transport)
  (recentTenders : list Tender) (userAlerts : list (string * list AlertConfiguration))
  (st : RunState) (n : nat) :
  (forall key alerts, In (key, alerts) userAlerts -> Stable clock alerts recentTenders) ->
  map withoutStamps
    (concat (map snd (fst (fst (Clocked.processOwners kind clock transport
                                  recentTenders userAlerts st n)))))
  = map withoutStamps
      (concat (map snd (fst (processOwners kind (clock 0%nat) transport
                               recentTenders userAlerts st)))) /\
  snd (fst (Clocked.processOwners kind clock transport recentTenders userAlerts st n))
  = snd (processOwners kind (clock 0%nat) transport recentTenders userAlerts st).
Proof.
  revert st n. induction userAlerts as [|[userId alerts] rest IH]; intros st n Hstable;
    [done|].
  cbn [Clocked.processOwners processOwners].
  pose proof (processOwner_stable kind clock transport recentTenders userId alerts st n
                (Hstable userId alerts (or_introl eq_refl))) as [Hdocs Hstate].
  destruct (Clocked.processOwner kind clock transport recentTenders userId alerts st n)
    as [[alertsC stC] n'].
  destruct (processOwner kind (clock 0%nat) transport recentTenders userId alerts st)
    as [alerts' st'].
  simpl in Hdocs, Hstate. subst stC.
  specialize (IH st' n' (fun key group H => Hstable key group (or_intror H))).
  destruct (Clocked.processOwners kind clock transport recentTenders rest st' n')
    as [[restC finalC] n''].
  destruct (processOwners kind (clock 0%nat) transport recentTenders rest st')
    as [rest' final].
  simpl in *. destruct IH as [IHdocs IHstate]. split; [|done].
  by rewrite !map_app, Hdocs, IHdocs.
Qed.

Lemma grouped_alerts_In (alerts : list AlertConfiguration)
  (grouped : list (string * list AlertConfiguration)) (key : string)
  (group : list AlertConfiguration) (a : AlertConfiguration) :
  groupAlertsByUser alerts = Ret grouped -> In (key, group) grouped -> In a group ->
  In a alerts.
Proof.
  intros Hgroup Hin Ha. apply groupAlertsByUser_spec in Hgroup as [Hnodup Hgroups].
  rewrite <- (groupOf_In key group grouped Hnodup Hin), Hgroups in Ha.
  by apply filter_In in Ha as [? _].
Qed.

(** The run with a clock and the run at its first reading. *)
Lemma processSummaries_stable (kind : Digest) (clock : Clocked.Clock)
  (transport : Transport) (alerts : list AlertConfiguration)
  (recentTenders : list Tender) (start : nat) (timed : DigestRun) :
  Clocked.processSummaries kind clock transport alerts recentTenders start = Ret timed ->
  Stable clock alerts recentTenders ->
  exists run,
    processSummaries kind (clock 0%nat) transport alerts recentTenders = Ret run /\
    dig_results timed = dig_results run /\
    dig_outbox timed = dig_outbox run /\
    map withoutStamps (dig_docs timed) = map withoutStamps (dig_docs run).
Proof.
  unfold Clocked.processSummaries, processSummaries. intros Hrun Hstable.
  destruct (nonEmpty alerts); [|by eexists].
  destruct (nonEmpty recentTenders); [|by eexists].
  destruct (groupAlertsByUser alerts) as [grouped|message] eqn:Hgroup; [|done].
  cbn [bind] in *.
  pose proof (processOwners_stable kind clock transport recentTenders grouped
                initialState start) as Hsim.
  destruct (Clocked.processOwners kind clock transport recentTenders grouped
              initialState start) as [[groupsC finalC] n'].
  destruct (processOwners kind (clock 0%nat) transport recentTenders grouped
              initialState) as [groups final].
  destruct Hsim as [Hdocs Hstate].
  { intros key group Hin a t i Ha Ht. apply Hstable; [|done].
    by apply (grouped_alerts_In alerts grouped key group). }
  simpl in Hdocs, Hstate. subst finalC. injection Hrun as <-.
  eexists. split; [done|]. by repeat split.
Qed.

(** Without a days-until-closing bound the verdict does not depend on the
    time, so that every clock is stable for such configurations. *)
Lemma Stable_without_day_bounds (clock : Clocked.Clock)
  (alerts : list AlertConfiguration) (tenders : list Tender) :
  (forall a, In a alerts ->
     truthyFraction (minDaysUntilClosing (advancedFilters a)) = None /\
     truthyFraction (maxDaysUntilClosing (advancedFilters a)) = None) ->
  Stable clock alerts tenders.
Proof.
  intros Hunset a t i Ha _. destruct (Hunset a Ha) as [Hlo Hhi].
  unfold shouldTriggerForTender.
  by rewrite (checkDaysUntilClosing_unset (clock i) (clock 0%nat) a t Hlo Hhi).
Qed.

(** ** The mails of one owner *)

Lemma mailsOf_grouped (G : string -> list AlertConfiguration -> list (string * Mail))
  (userId : string) (userMap : list (string * list AlertConfiguration)) :
  G userId [] = [] ->
  List.NoDup (map fst userMap) ->
  (forall key alerts entry, In (key, alerts) userMap -> In entry (G key alerts) ->
                            fst entry = key) ->
  mailsOf userId (flat_map (fun group => G (fst group) (snd group)) userMap)
  = G userId (groupOf userId userMap).
Proof.
  intros Hnil. unfold mailsOf.
  induction userMap as [|[key alerts] rest IH]; simpl; [done|].
  intros Hnodup Hkey. apply List.NoDup_cons_iff in Hnodup as [Hnot Hnodup].
  rewrite List.filter_app, IH; [|done|]; cycle 1.
  { intros k group entry Hin. apply Hkey. by right. }
  destruct (String.eqb_spec key userId) as [-> | Hne].
  - rewrite (groupOf_absent userId rest Hnot), Hnil, app_nil_r.
    apply filter_all. intros entry Hentry.
    rewrite (Hkey userId alerts entry); [apply String.eqb_refl | by left | done].
  - rewrite filter_none; [done|]. intros entry Hentry.
    rewrite (Hkey key alerts entry); [|by left | done].
    by apply String.eqb_neq.
Qed.

Lemma digest_run_mailsOf (kind : Digest) (now : Z) (transport : Transport)
  (alerts : list AlertConfiguration) (recentTenders : list Tender) (run : DigestRun)
  (userId : string) :
  processSummaries kind now transport alerts recentTenders = Ret run ->
  nonEmpty alerts = true -> nonEmpty recentTenders = true ->
  mailsOf userId (dig_outbox run)
  = ownerMails kind now transport recentTenders userId
      (List.filter (ownedBy userId) alerts).
Proof.
  intros Hrun Ha Ht. unfold processSummaries in Hrun. rewrite Ha, Ht in Hrun.
  destruct (groupAlertsByUser alerts) as [grouped|] eqn:Hgroup; [|done].
  apply groupAlertsByUser_spec in Hgroup as [Hnodup Hgroups].
  simpl in Hrun.
  destruct (processOwners_spec kind now transport recentTenders grouped initialState)
    as [_ Hout].
  destruct (processOwners kind now transport recentTenders grouped initialState)
    as [groups final].
  injection Hrun as <-. simpl in *. rewrite Hout, <- Hgroups.
  apply (mailsOf_grouped (ownerMails kind now transport recentTenders));
    [done | done |].
  intros key group [ref mail] _ Hmail. simpl.
  exact (ownerMails_ref kind now transport recentTenders key group ref mail Hmail).
Qed.

(** ** One record, two configurations of one owner (C1) *)

Lemma sendSummaryEmail_Ret (transport : Transport) (user : option User)
  (subject : Subject) (groupedTenders : list DigestSection) (frequency : Frequency)
  (mail : Mail) :
  sendSummaryEmail transport user subject groupedTenders frequency = Ret mail ->
  mail_subject mail = subject /\
  generateSummaryEmailHTML groupedTenders frequency user = Ret (mail_html mail) /\
  generateSummaryEmailText groupedTenders frequency user = Ret (mail_text mail) /\
  (exists u, user = Some u /\ mail_to mail = email u) /\
  transport mail = None.
Proof.
  unfold sendSummaryEmail.
  destruct (generateSummaryEmailHTML groupedTenders frequency user) as [html|]; [|done].
  destruct (generateSummaryEmailText groupedTenders frequency user) as [text|]; [|done].
  destruct user as [u|]; [|done]. simpl. unfold sendMail.
  destruct (transport _) eqn:Hsent; [done|]. intros [= <-]. simpl.
  repeat split; try done. by exists u.
Qed.

(** C1, as stated, fails: two daily configurations of one owner both match the
    same record; the owner gets one mail whose subject counts one match, and both
    bodies of that mail list the record twice, once in the section of each
    configuration; the HTML header counts two matches. *)
Lemma digest_lists_shared_record_twice :
  exists run mail,
    Clocked.processDailySummaries "09:00" (tickingFrom 7) smtpUp
      [laptopsDaily; suppliesDaily] [laptopTender]
    = Ret run /\
    dig_outbox run = [("u1", mail)] /\
    mail_subject mail = DailyTenderSummary 1 /\
    occurrences "t1" (mail_text mail) = 2%nat /\
    occurrences "t1" (mail_html mail) = 2%nat /\
    In (TotalMatches 2) (mail_html mail).
Proof.
  eexists. eexists. split; [by vm_compute|]. split; [reflexivity|].
  split; [reflexivity|]. split; [reflexivity|]. split; [reflexivity|].
  simpl. tauto.
Qed.

(** The effect of a run at one clock reading on an owner whose digest the
    transport accepts. *)
Lemma digest_owner_effect
  (kind : Digest) (now : Z) (transport : Transport) (alerts : list AlertConfiguration)
  (recentTenders : list Tender) (run : DigestRun) (userId : string)
  (uniqueTenders : list Tender) (mail : Mail) :
  processSummaries kind now transport alerts recentTenders = Ret run ->
  uniqueMatches now (List.filter (ownedBy userId) alerts) recentTenders
  = Ret uniqueTenders ->
  In (userId, mail) (dig_outbox run) ->
  let mine := List.filter (ownedBy userId) alerts in
  mailsOf userId (dig_outbox run) = [(userId, mail)] /\
  mail_subject mail = digestSubject kind (List.length uniqueTenders) /\
  List.NoDup (map tender_id uniqueTenders) /\
  (forall id, In id (map tender_id uniqueTenders) <->
              exists a t, In a mine /\ In t recentTenders /\
                          tender_id t = id /\ triggers now a t = true) /\
  (exists user,
     generateSummaryEmailHTML (sectionsOf now uniqueTenders mine)
       (digestFrequency kind) user = Ret (mail_html mail) /\
     generateSummaryEmailText (sectionsOf now uniqueTenders mine)
       (digestFrequency kind) user = Ret (mail_text mail)) /\
  List.filter (ownedBy userId) (dig_docs run)
  = map (fun a => recordMatches now (List.filter (triggers now a) uniqueTenders) a)
        mine.
Proof.
  intros Hrun Hunique Hmail mine.
  assert (nonEmpty alerts = true /\ nonEmpty recentTenders = true) as [Ha Ht].
  { unfold processSummaries in Hrun.
    destruct (nonEmpty alerts); [|by injection Hrun as <-].
    destruct (nonEmpty recentTenders); [done | by injection Hrun as <-]. }
  destruct (digest_run_owner kind now transport alerts recentTenders run userId
              Hrun Ha Ht) as [Hdocs Hout].
  pose proof (digest_run_mailsOf kind now transport alerts recentTenders run userId
                Hrun Ha Ht) as Hmails.
  pose proof (proj1 (Hout mail) Hmail) as Hsent.
  destruct (accepted_digest_effect kind now transport recentTenders userId mine
              uniqueTenders mail Hunique Hsent)
    as (Honly & (user & _ & Hsend) & Hstats).
  apply sendSummaryEmail_Ret in Hsend as (Hsubject & Hhtml & Htext & _ & _).
  destruct (uniqueMatches_Ret now mine recentTenders uniqueTenders Hunique)
    as (_ & _ & Hnodup & Hids).
  split; [by rewrite Hmails|].
  split; [done|]. split; [done|]. split; [done|].
  split; [by exists user|]. by rewrite Hdocs.
Qed.

Lemma filter_ownedBy_withoutStamps (userId : string) (docs : list AlertConfiguration) :
  map withoutStamps (List.filter (ownedBy userId) docs)
  = List.filter (ownedBy userId) (map withoutStamps docs).
Proof.
  induction docs as [|d rest IH]; simpl; [done|].
  change (ownedBy userId (withoutStamps d)) with (ownedBy userId d).
  destruct (ownedBy userId d); simpl; by rewrite IH.
Qed.

Lemma totalMatches_withoutStamps (docs : list AlertConfiguration) :
  map (fun doc => totalMatches (stats doc)) (map withoutStamps docs)
  = map (fun doc => totalMatches (stats doc)) docs.
Proof. by rewrite map_map. Qed.

(** C1, amended: in a daily or weekly run during which the verdicts of the
    evaluator on the configurations of the cohort and the records of the window
    do not change, for every owner whose digest is accepted by the transport,
    that mail is the one mail the run logs for the owner; the de-duplicated list
    of records from which it is built, and which its subject counts, holds the
    id of every record that at least one of the owner's configurations matches
    exactly once; the bodies are built from one section per configuration of the
    owner, each listing the records of the de-duplicated list that this
    configuration matches, so a record matched by two configurations is listed
    under both; and every configuration of the owner has its totalMatches
    incremented once for each record of the de-duplicated list that it
    matches. *)
Theorem digest_deduplicates_per_owner
  (kind : Digest) (clock : Clocked.Clock) (transport : Transport)
  (alerts : list AlertConfiguration) (recentTenders : list Tender) (start : nat)
  (run : DigestRun) (userId : string) (uniqueTenders : list Tender) (mail : Mail) :
  Clocked.processSummaries kind clock transport alerts recentTenders start = Ret run ->
  Stable clock alerts recentTenders ->
  uniqueMatches (clock 0%nat) (List.filter (ownedBy userId) alerts) recentTenders
  = Ret uniqueTenders ->
  In (userId, mail) (dig_outbox run) ->
  let now := clock 0%nat in
  let mine := List.filter (ownedBy userId) alerts in
  mailsOf userId (dig_outbox run) = [(userId, mail)] /\
  mail_subject mail = digestSubject kind (List.length uniqueTenders) /\
  List.NoDup (map tender_id uniqueTenders) /\
  (forall id, In id (map tender_id uniqueTenders) <->
              exists a t, In a mine /\ In t recentTenders /\
                          tender_id t = id /\ triggers now a t = true) /\
  (exists user,
     generateSummaryEmailHTML (sectionsOf now uniqueTenders mine)
       (digestFrequency kind) user = Ret (mail_html mail) /\
     generateSummaryEmailText (sectionsOf now uniqueTenders mine)
       (digestFrequency kind) user = Ret (mail_text mail)) /\
  map (fun doc => totalMatches (stats doc))
      (List.filter (ownedBy userId) (dig_docs run))
  = map (fun a => totalMatches (stats a)
                  + Z.of_nat (List.length (List.filter (triggers now a) uniqueTenders)))
        mine.
Proof.
  intros Hrun Hstable Hunique Hmail now mine.
  destruct (processSummaries_stable kind clock transport alerts recentTenders start run
              Hrun Hstable) as (atFirst & Hfirst & _ & Hout & Hdocs).
  rewrite Hout in Hmail |- *.
  destruct (digest_owner_effect kind now transport alerts recentTenders atFirst userId
              uniqueTenders mail Hfirst Hunique Hmail)
    as (Hone & Hsubject & Hnodup & Hids & Hbodies & Hstats).
  split; [done|]. split; [done|]. split; [done|]. split; [done|]. split; [done|].
  rewrite <- totalMatches_withoutStamps, filter_ownedBy_withoutStamps, Hdocs,
    <- filter_ownedBy_withoutStamps, totalMatches_withoutStamps, Hstats, map_map.
  apply map_ext. intros a. apply recordMatches_stats.
Qed.

Lemma digest_deduplicates_per_owner_witness :
  exists run mail,
    Clocked.processSummaries dailyDigest (tickingFrom 7) smtpUp
      [laptopsDaily; suppliesDaily] [laptopTender] 1
    = Ret run /\
    mailsOf "u1" (dig_outbox run) = [("u1", mail)] /\
    mail_subject mail = DailyTenderSummary 1 /\
    List.NoDup (map tender_id [laptopTender]) /\
    map (fun doc => totalMatches (stats doc)) (List.filter (ownedBy "u1") (dig_docs run))
    = [1; 1].
Proof.
  destruct (Clocked.processSummaries dailyDigest (tickingFrom 7) smtpUp
              [laptopsDaily; suppliesDaily] [laptopTender] 1) as [run|] eqn:Hrun;
    [|by vm_compute in Hrun].
  assert (exists mail, dig_outbox run = [("u1", mail)]) as [mail Hbox].
  { vm_compute in Hrun. injection Hrun as <-. by eexists. }
  exists run, mail. split; [done|].
  assert (In ("u1", mail) (dig_outbox run)) as Hin by (rewrite Hbox; by left).
  assert (Stable (tickingFrom 7) [laptopsDaily; suppliesDaily] [laptopTender])
    as Hstable.
  { apply Stable_without_day_bounds. by intros a [<- | [<- | []]]. }
  destruct (digest_deduplicates_per_owner dailyDigest (tickingFrom 7) smtpUp
              [laptopsDaily; suppliesDaily] [laptopTender] 1 run "u1" [laptopTender]
              mail Hrun Hstable eq_refl Hin)
    as (Hone & Hsubject & Hnodup & _ & _ & Hdocs).
  split; [done|]. split; [done|]. split; [done|]. by rewrite Hdocs.
Defined.

(** ** Re-entrancy (C8) *)

Lemma processQueue_serialized (s : Service) :
  QueueSerialized s -> QueueSerialized (processQueue s).
Proof.
  unfold QueueSerialized, processQueue. intros [[Hflag Hn] | [Hflag Hn]]; rewrite Hflag.
  - simpl. by left.
  - simpl. destruct (nonEmpty (processingQueue s)); simpl; [|by right].
    left. by rewrite Hn.
Qed.

Lemma step_serialized (s : Service) (e : Event) :
  QueueSerialized s -> QueueSerialized (step s e).
Proof.
  intros Hs. destruct e as [jobName | jobName | tender | | |]; simpl.
  - exact Hs.
  - exact Hs.
  - unfold queueTenderForProcessing. simpl.
    destruct (isProcessing s) eqn:Hflag; simpl.
    + destruct Hs as [[_ Hn] | [? _]]; [left | congruence]. by simpl.
    + apply processQueue_serialized. destruct Hs as [[? _] | [_ Hn]]; [congruence|].
      right. by simpl.
  - by apply processQueue_serialized.
  - unfold itemDone. destruct Hs as [[Hflag Hn] | [Hflag Hn]]; rewrite Hn.
    + destruct (processingQueue s); [right | left]; by simpl.
    + by right.
  - unfold itemFailed. destruct Hs as [[Hflag Hn] | [Hflag Hn]]; rewrite Hn.
    + right. by simpl.
    + by right.
Qed.

Lemma events_serialized (events : list Event) (s : Service) :
  QueueSerialized s -> QueueSerialized (fold_left step events s).
Proof.
  revert s. induction events as [|e rest IH]; intros s Hs; simpl; [done|].
  apply IH. by apply step_serialized.
Qed.

Lemma executions_trigger (jobName : string) (s : Service) :
  executions (trigger jobName s) jobName = S (executions s jobName).
Proof. unfold executions at 1, trigger. simpl. by rewrite lookup_insert_eq. Qed.

(** C8, as stated, fails: the same named job is triggered twice before its first
    run has resolved, and two runs of that job are in flight. *)
Lemma same_job_runs_twice_at_once :
  executions (afterEvents [Trigger "daily-09:00"; Trigger "daily-09:00"]) "daily-09:00"
  = 2%nat.
Proof. by vm_compute. Qed.

(** C8, amended: serialization exists for the processing queue only. Whatever
    the order in which triggers, completions, queued records and resumptions
    occur, at most one activation of [processQueue] is in flight, and the flag
    [isProcessing] is set exactly then. A named scheduled job has no guard: each
    trigger, from the timer or by hand, starts a run at once, whatever the number
    of runs of that job already in flight. *)
Theorem only_the_queue_is_serialized :
  (forall events,
     (draining (afterEvents events) <= 1)%nat /\
     (isProcessing (afterEvents events) = true <->
      draining (afterEvents events) = 1%nat)) /\
  (forall events jobName,
     executions (step (afterEvents events) (Trigger jobName)) jobName
     = S (executions (afterEvents events) jobName)).
Proof.
  split.
  - intros events.
    assert (QueueSerialized (afterEvents events)) as [[Hflag Hn] | [Hflag Hn]].
    { apply events_serialized. by right. }
    + rewrite Hflag, Hn. split; [lia | done].
    + rewrite Hflag, Hn. split; [lia | done].
  - intros events jobName. apply executions_trigger.
Qed.

(** ** The text bodies against the HTML bodies (C9) *)

Lemma mapM_forEachIndexed_mirrors {A} (f : A -> Result (list Fact))
  (g : nat -> A -> Result (list Fact)) :
  (forall x i c, f x = Ret c -> exists d, g i x = Ret d /\ Mirrors c d) ->
  forall arr i cs, mapM f arr = Ret cs ->
  exists ds, forEachIndexed g i arr = Ret ds /\ Mirrors (concat cs) ds.
Proof.
  intros Hfg. induction arr as [|x rest IH]; intros i cs; simpl.
  - intros [= <-]. exists []. split; [done | by intros ? []].
  - destruct (f x) as [c|] eqn:Hx; [|done]. simpl.
    destruct (mapM f rest) as [cs'|] eqn:Hrest; [|done]. simpl. intros [= <-].
    destruct (Hfg x i c Hx) as (d & -> & Hcd).
    destruct (IH (S i) cs' eq_refl) as (ds & -> & Hds). simpl.
    eexists. split; [done|]. intros fact. simpl. rewrite !in_app_iff.
    intros [Hin | Hin]; [destruct (Hcd _ Hin) | destruct (Hds _ Hin)]; auto.
Qed.

Lemma mapM_mapM_mirrors {A} (f g : A -> Result (list Fact)) :
  (forall x c, f x = Ret c -> exists d, g x = Ret d /\ Mirrors c d) ->
  forall arr cs, mapM f arr = Ret cs ->
  exists ds, mapM g arr = Ret ds /\ Mirrors (concat cs) (concat ds).
Proof.
  intros Hfg. induction arr as [|x rest IH]; intros cs; simpl.
  - intros [= <-]. exists []. split; [done | by intros ? []].
  - destruct (f x) as [c|] eqn:Hx; [|done]. simpl.
    destruct (mapM f rest) as [cs'|] eqn:Hrest; [|done]. simpl. intros [= <-].
    destruct (Hfg x c Hx) as (d & -> & Hcd).
    destruct (IH cs' eq_refl) as (ds & -> & Hds). simpl.
    eexists. split; [done|]. intros fact. simpl. rewrite !in_app_iff.
    intros [Hin | Hin]; [destruct (Hcd _ Hin) | destruct (Hds _ Hin)]; auto.
Qed.

Ltac facts := intros fact; simpl; rewrite ?in_app_iff; simpl; intuition (subst; auto).

Lemma alertCard_mirrored (tender : Tender) (index : nat) (card : list Fact) :
  alertCardHTML tender = Ret card ->
  exists item, alertItemText index tender = Ret item /\ Mirrors card item.
Proof.
  unfold alertCardHTML, alertItemText.
  destruct (organization tender) as [o|]; [|done].
  destruct (description tender) as [d|]; [|done].
  destruct (location tender) as [l|]; [|done].
  destruct (dates tender) as [ds|]; [|done]. simpl.
  destruct (estimatedValueFacts tender) as [value|]; [|done]. simpl.
  intros [= <-]. eexists. split; [done|]. facts.
Qed.

Lemma summaryRow_mirrored (tender : Tender) (index : nat) (row : list Fact) :
  summaryRowHTML tender = Ret row ->
  exists item, summaryItemText index tender = Ret item /\ Mirrors row item.
Proof.
  unfold summaryRowHTML, summaryItemText.
  destruct (organization tender) as [o|]; [|done].
  destruct (location tender) as [l|]; [|done].
  destruct (dates tender) as [ds|]; [|done]. simpl.
  intros [= <-]. eexists. split; [done|]. facts.
Qed.

Lemma summarySection_mirrored (data : DigestSection) (section : list Fact) :
  summarySectionHTML data = Ret section ->
  exists text, summarySectionText data = Ret text /\ Mirrors section text.
Proof.
  destruct data as [config tenders]. unfold summarySectionHTML, summarySectionText.
  destruct (nonEmpty tenders).
  - destruct (mapM summaryRowHTML tenders) as [rows|] eqn:Hrows; [|done]. simpl.
    intros [= <-].
    destruct (mapM_forEachIndexed_mirrors summaryRowHTML summaryItemText
                (fun x i c => summaryRow_mirrored x i c) tenders 0%nat rows Hrows)
      as (items & -> & Hitems).
    simpl. eexists. split; [done|].
    intros fact [<- | Hin]; [left; by left|].
    destruct (Hitems _ Hin); [left; by right | by right].
  - intros [= <-]. exists []. split; [done | by intros ? []].
Qed.

(** C9, as stated, fails: the HTML body of an immediate alert shows an excerpt
    of the description and the text body does not; the HTML body of a summary
    shows the total number of matches and the text body does not. *)
Lemma text_bodies_omit_html_facts :
  (exists html text,
     generateAlertEmailHTML [laptopTender] laptopsDaily = Ret html /\
     generateAlertEmailText [laptopTender] laptopsDaily = Ret text /\
     In (DescriptionExcerpt "Laptops for schools" false) html /\
     ~ In (DescriptionExcerpt "Laptops for schools" false) text) /\
  (exists html text,
     generateSummaryEmailHTML [(laptopsDaily, [laptopTender])] daily
       (Some (subscriber "u1")) = Ret html /\
     generateSummaryEmailText [(laptopsDaily, [laptopTender])] daily
       (Some (subscriber "u1")) = Ret text /\
     In (TotalMatches 1) html /\ ~ In (TotalMatches 1) text).
Proof.
  split; eexists; eexists; (split; [by vm_compute|]); (split; [by vm_compute|]);
    (split; [simpl; tauto|]); simpl; intuition discriminate.
Qed.

(** C9, amended: for every record list, configuration, frequency and user, when
    both bodies of a notification render, every fact of the HTML body appears in
    the text body, except the description excerpt of the cards of an immediate
    alert and the total number of matches in the header of a summary, which the
    text bodies do not carry; and the text body of an immediate alert renders
    whenever its HTML body does. *)
Theorem text_mirrors_html_but_excerpt_and_total :
  (forall tenderMatches alertConfig html,
     generateAlertEmailHTML tenderMatches alertConfig = Ret html ->
     exists text,
       generateAlertEmailText tenderMatches alertConfig = Ret text /\
       Mirrors html text) /\
  (forall groupedTenders frequency user html text,
     generateSummaryEmailHTML groupedTenders frequency user = Ret html ->
     generateSummaryEmailText groupedTenders frequency user = Ret text ->
     Mirrors html text).
Proof.
  split.
  - intros tenderMatches alertConfig html.
    unfold generateAlertEmailHTML, generateAlertEmailText.
    destruct (mapM alertCardHTML tenderMatches) as [cards|] eqn:Hcards; [|done].
    simpl. intros [= <-].
    destruct (mapM_forEachIndexed_mirrors alertCardHTML alertItemText
                (fun x i c => alertCard_mirrored x i c) tenderMatches 0%nat cards Hcards)
      as (items & -> & Hitems).
    simpl. eexists. split; [done|].
    intros fact. specialize (Hitems fact). simpl. rewrite !in_app_iff. simpl.
    intuition (subst; auto 10).
  - intros groupedTenders frequency user html text.
    unfold generateSummaryEmailHTML, generateSummaryEmailText.
    destruct (mapM summarySectionHTML groupedTenders) as [sections|] eqn:Hsections;
      [|done].
    destruct (mapM_mapM_mirrors summarySectionHTML summarySectionText
                summarySection_mirrored groupedTenders sections Hsections)
      as (texts & -> & Htexts).
    simpl. destruct user as [u|]; simpl.
    + destruct (totalTenders groupedTenders =? 0)%nat; intros [= <-] [= <-].
      * facts.
      * intros fact. specialize (Htexts fact). simpl. rewrite !in_app_iff. simpl.
        intuition (subst; auto 10).
    + by destruct (totalTenders groupedTenders =? 0)%nat.
Qed.

Lemma text_mirrors_html_but_excerpt_and_total_witness :
  exists html text,
    generateAlertEmailHTML [laptopTender] laptopsDaily = Ret html /\
    generateAlertEmailText [laptopTender] laptopsDaily = Ret text /\
    Mirrors html text.
Proof.
  destruct (generateAlertEmailHTML [laptopTender] laptopsDaily) as [html|] eqn:Hhtml;
    [|by vm_compute in Hhtml].
  destruct (proj1 text_mirrors_html_but_excerpt_and_total [laptopTender] laptopsDaily
              html Hhtml) as (text & Htext & Hmirror).
  by exists html, text.
Defined.

(** * Further properties of the code *)

(** ** The predicate evaluator *)

(** X1: an active configuration without any filter triggers for every record,
    also for a record that has nothing but an id, and does not throw. *)
Theorem configuration_without_filters_matches_everything
  (now : Z) (this : AlertConfiguration) (tender : Tender) :
  isActive this = true -> NoFilters this ->
  shouldTriggerForTender now this tender = Ret true.
Proof.
  intros Hact (Hk & Hx & Hc & Hp & Hd & Hci & Ho & Hlo & Hhi & Hmin & Hmax & Hs & Hpr).
  apply shouldTrigger_true. repeat split; try done.
  - unfold checkKeywords. by rewrite Hk.
  - unfold checkExcludeKeywords. by rewrite Hx.
  - unfold checkCategories. by rewrite Hc.
  - unfold checkProvinces. by rewrite Hp.
  - unfold checkDistricts. by rewrite Hd.
  - unfold checkCities. by rewrite Hci.
  - unfold checkOrganizationTypes. by rewrite Ho.
  - unfold checkEstimatedValue. by rewrite Hlo, Hhi.
  - unfold checkDaysUntilClosing. by rewrite Hmin, Hmax.
  - unfold checkStatuses. by rewrite Hs.
  - unfold checkPriorities. by rewrite Hpr.
Qed.

Lemma configuration_without_filters_matches_everything_witness :
  shouldTriggerForTender 0 (configOf "all" None daily []) (bareTender "t") = Ret true.
Proof.
  apply configuration_without_filters_matches_everything; [reflexivity|].
  repeat split; reflexivity.
Defined.

(** X2: the match modes nest. On the same term and text, a clause that matches
    in mode [exact] also matches in the modes [starts_with] and [ends_with], and
    a clause that matches in one of these two also matches in mode [contains]. *)
Theorem match_modes_nest (term text : string) :
  (keywordMatchesText exact term text = true ->
   keywordMatchesText starts_with term text = true /\
   keywordMatchesText ends_with term text = true) /\
  (keywordMatchesText starts_with term text = true ->
   keywordMatchesText contains term text = true) /\
  (keywordMatchesText ends_with term text = true ->
   keywordMatchesText contains term text = true).
Proof.
  unfold keywordMatchesText.
  rewrite !orb_true_iff, !includes_spec, !startsWith_spec, !endsWith_spec,
    String.eqb_eq.
  split; [|split].
  - intros [[[[a [b ->]] | [r ->]] | [a ->]] | ->]; split.
    + left. exists a, (" " +:+ b). by rewrite !append_assoc.
    + left. exists (a +:+ " "), b. by rewrite !append_assoc.
    + right. exists (" " +:+ r). by rewrite append_assoc.
    + left. exists "", r. by rewrite append_nil_l.
    + left. exists a, "". by rewrite append_nil_r.
    + right. exists (a +:+ " "). by rewrite append_assoc.
    + right. exists "". by rewrite append_nil_r.
    + right. by exists "".
  - intros [[a [b ->]] | [r ->]].
    + exists (a +:+ " "), b. by rewrite !append_assoc.
    + by exists "", r.
  - intros [[a [b ->]] | [a ->]].
    + exists a, (" " +:+ b). by rewrite !append_assoc.
    + exists a, "". by rewrite append_nil_r.
Qed.

Lemma match_modes_nest_witness :
  keywordMatchesText starts_with "it" "need it now" = true /\
  keywordMatchesText ends_with "it" "need it now" = true /\
  keywordMatchesText contains "it" "need it now" = true.
Proof.
  destruct (match_modes_nest "it" "need it now") as (Hexact & Hstarts & _).
  destruct (Hexact eq_refl) as [H1 H2].
  split; [exact H1|]. split; [exact H2|]. exact (Hstarts H1).
Defined.

(** X3: an exclude-keyword is a veto. When the lower-cased text of the record
    contains one of the configuration's exclude-keywords, the evaluator returns
    [false], whatever the other filters say. *)
Theorem exclude_keyword_is_a_veto
  (now : Z) (this : AlertConfiguration) (tender : Tender) (text keyword : string) :
  textToSearch tender = Ret text ->
  In keyword (excludeKeywords (advancedFilters this)) ->
  includes text (toLowerCase keyword) = true ->
  shouldTriggerForTender now this tender = Ret false.
Proof.
  intros Htext Hin Hinc.
  assert (is_Some (title tender)) as Htitle.
  { unfold textToSearch in Htext. destruct (title tender); [by eexists | done]. }
  destruct (checkKeywords_returns this tender (fun _ => Htitle)) as [b Hb].
  assert (checkExcludeKeywords this tender = Ret false) as Hex.
  { unfold checkExcludeKeywords.
    destruct (excludeKeywords (advancedFilters this)) as [|k rest] eqn:Hx; [done|].
    cbn [nonEmpty]. rewrite Htext. cbn [bind].
    replace (existsb _ (k :: rest)) with true; [done|].
    symmetry. apply existsb_exists. by exists keyword. }
  unfold shouldTriggerForTender, andThen. rewrite Hb, Hex. cbn [bind].
  by destruct (isActive this), b.
Qed.

Lemma exclude_keyword_is_a_veto_witness :
  shouldTriggerForTender 0
    (advancedConfig
       {| excludeKeywords := ["URGENT"]; minDaysUntilClosing := None;
          maxDaysUntilClosing := None; includedStatuses := [];
          includedPriorities := [] |})
    (tenderOf "t" "Laptops" "Delivery is urgent" None)
  = Ret false.
Proof.
  apply (exclude_keyword_is_a_veto 0 _ _ "laptops delivery is urgent " "URGENT");
    [reflexivity | by left | reflexivity].
Defined.

(** X4: what a missing property of the record does to the filter on it. A
    record without category, province, district, organization type, status or
    priority never triggers a configuration whose set for that property is not
    empty. A record without city, without closing date or without estimated
    amount passes the filter on that property. *)
Theorem missing_property_fails_or_passes
  (now : Z) (this : AlertConfiguration) (tender : Tender) :
  (nonEmpty (categories this) = true -> category tender = None ->
   shouldTriggerForTender now this tender <> Ret true) /\
  (forall l, location tender = Some l ->
     (nonEmpty (provinces (locations this)) = true -> province l = None ->
      shouldTriggerForTender now this tender <> Ret true) /\
     (nonEmpty (districts (locations this)) = true -> district l = None ->
      shouldTriggerForTender now this tender <> Ret true) /\
     (city l = None -> checkCities this tender = Ret true)) /\
  (forall o, organization tender = Some o ->
     nonEmpty (organizationTypes this) = true -> org_type o = None ->
     shouldTriggerForTender now this tender <> Ret true) /\
  (nonEmpty (includedStatuses (advancedFilters this)) = true -> status tender = None ->
   shouldTriggerForTender now this tender <> Ret true) /\
  (nonEmpty (includedPriorities (advancedFilters this)) = true ->
   priority tender = None ->
   shouldTriggerForTender now this tender <> Ret true) /\
  (forall d, dates tender = Some d -> closing d = None ->
     checkDaysUntilClosing now this tender = Ret true) /\
  (tenderAmount tender = None -> checkEstimatedValue this tender = true).
Proof.
  split; [|split; [|split; [|split; [|split; [|split]]]]].
  - intros Hne Hnone Htrue. apply shouldTrigger_true in Htrue.
    destruct Htrue as (_ & _ & _ & H & _).
    unfold checkCategories in H. by rewrite Hne, Hnone in H.
  - intros l Hl. split; [|split].
    + intros Hne Hnone Htrue. apply shouldTrigger_true in Htrue.
      destruct Htrue as (_ & _ & _ & _ & Hp & _).
      unfold checkProvinces in Hp. rewrite Hne, Hl in Hp. cbn [reading bind] in Hp.
      by rewrite Hnone in Hp.
    + intros Hne Hnone Htrue. apply shouldTrigger_true in Htrue.
      destruct Htrue as (_ & _ & _ & _ & _ & Hd & _).
      unfold checkDistricts in Hd. rewrite Hne, Hl in Hd. cbn [reading bind] in Hd.
      by rewrite Hnone in Hd.
    + intros Hnone. unfold checkCities. rewrite Hl. cbn [reading bind].
      rewrite Hnone. by destruct (nonEmpty (cities (locations this))).
  - intros o Ho Hne Hnone Htrue. apply shouldTrigger_true in Htrue.
    destruct Htrue as (_ & _ & _ & _ & _ & _ & _ & Hty & _).
    unfold checkOrganizationTypes in Hty. rewrite Hne, Ho in Hty.
    cbn [reading bind] in Hty. by rewrite Hnone in Hty.
  - intros Hne Hnone Htrue. apply shouldTrigger_true in Htrue.
    destruct Htrue as (_ & _ & _ & _ & _ & _ & _ & _ & _ & _ & Hs & _).
    unfold checkStatuses in Hs. by rewrite Hne, Hnone in Hs.
  - intros Hne Hnone Htrue. apply shouldTrigger_true in Htrue.
    destruct Htrue as (_ & _ & _ & _ & _ & _ & _ & _ & _ & _ & _ & Hp).
    unfold checkPriorities in Hp. by rewrite Hne, Hnone in Hp.
  - intros d Hd Hnone. unfold checkDaysUntilClosing. rewrite Hd. cbn [reading bind].
    rewrite Hnone.
    by destruct (truthyFraction (minDaysUntilClosing (advancedFilters this))),
                (truthyFraction (maxDaysUntilClosing (advancedFilters this))).
  - intros Hnone. apply checkEstimatedValue_absent. by rewrite Hnone.
Qed.

Lemma missing_property_fails_or_passes_witness :
  let this :=
    locationConfig {| provinces := []; districts := ["Colombo"]; cities := ["Kandy"] |} in
  let l := {| province := Some "Western Province"; district := None; city := None |} in
  let tender :=
    {| tender_id := "t"; title := Some "Laptops"; description := None;
       fullTextMarkdown := None; category := None; organization := None;
       location := Some l; dates := None; financials := None; status := None;
       priority := None |} in
  shouldTriggerForTender 0 this tender <> Ret true /\
  checkCities this tender = Ret true.
Proof.
  intros this l tender.
  destruct (missing_property_fails_or_passes 0 this tender) as (_ & Hloc & _).
  destruct (Hloc l eq_refl) as (_ & Hdistrict & Hcity).
  split; [by apply Hdistrict | by apply Hcity].
Defined.

(** ** Days until closing *)

Lemma ceilDiv_le (a b k : Z) : 0 < b -> ceilDiv a b <= k <-> a <= k * b.
Proof.
  intros Hb. unfold ceilDiv.
  pose proof (Z.div_mod (- a) b ltac:(lia)) as Hdm.
  pose proof (Z.mod_pos_bound (- a) b Hb) as Hr.
  split; intros H; nia.
Qed.

Lemma truthyFraction_Some (n : option Q) (q : Q) :
  truthyFraction n = Some q <-> n = Some q /\ ~ (q == 0)%Q.
Proof.
  unfold truthyFraction. destruct n as [p|]; [|by split; [|intros []]].
  destruct (Qeq_bool p 0) eqn:Hp.
  - apply Qeq_bool_iff in Hp. split; [done|]. by intros [[= ->] ?].
  - apply Qeq_bool_neq in Hp. split.
    + by intros [= ->].
    + by intros [-> _].
Qed.

(** A whole number is at least a fraction when it is at least the fraction
    rounded up, and at most a fraction when it is at most the fraction rounded
    down. *)
Lemma Qle_inject_ceiling (q : Q) (k : Z) : (q <= inject_Z k)%Q <-> Qceiling q <= k.
Proof.
  split.
  - intros H. apply Qceiling_resp_le in H. by rewrite Qceiling_Z in H.
  - intros H. eapply Qle_trans; [apply Qle_ceiling|]. by rewrite <- Zle_Qle.
Qed.

Lemma Qle_inject_floor (q : Q) (k : Z) : (inject_Z k <= q)%Q <-> k <= Qfloor q.
Proof.
  split.
  - intros H. apply Qfloor_resp_le in H. by rewrite Qfloor_Z in H.
  - intros H. eapply Qle_trans; [|apply Qfloor_le]. by rewrite <- Zle_Qle.
Qed.

Lemma belowDays_false (bound : option Q) (days : Z) :
  belowDays bound days = false <->
  forall lo, truthyFraction bound = Some lo -> Qceiling lo <= days.
Proof.
  unfold belowDays. destruct (truthyFraction bound) as [b|]; [|done].
  rewrite negb_false_iff, Qle_bool_iff, Qle_inject_ceiling.
  split; [by intros ? ? [= <-] | eauto].
Qed.

Lemma aboveDays_false (bound : option Q) (days : Z) :
  aboveDays bound days = false <->
  forall hi, truthyFraction bound = Some hi -> days <= Qfloor hi.
Proof.
  unfold aboveDays. destruct (truthyFraction bound) as [b|]; [|done].
  rewrite negb_false_iff, Qle_bool_iff, Qle_inject_floor.
  split; [by intros ? ? [= <-] | eauto].
Qed.

Lemma belowDays_timeLeft (bound : option Q) (timeLeft : Z) :
  belowDays bound (ceilDiv timeLeft msPerDay) = false <->
  forall lo, truthyFraction bound = Some lo ->
             (Qceiling lo - 1) * msPerDay < timeLeft.
Proof.
  assert (0 < msPerDay) as Hday by (by vm_compute).
  rewrite belowDays_false. split; intros H lo Hlo; specialize (H lo Hlo);
    pose proof (ceilDiv_le timeLeft msPerDay (Qceiling lo - 1) Hday); lia.
Qed.

Lemma aboveDays_timeLeft (bound : option Q) (timeLeft : Z) :
  aboveDays bound (ceilDiv timeLeft msPerDay) = false <->
  forall hi, truthyFraction bound = Some hi -> timeLeft <= Qfloor hi * msPerDay.
Proof.
  assert (0 < msPerDay) as Hday by (by vm_compute).
  rewrite aboveDays_false. split; intros H hi Hhi; specialize (H hi Hhi);
    pose proof (ceilDiv_le timeLeft msPerDay (Qfloor hi) Hday); lia.
Qed.

Lemma checkDaysUntilClosing_closing (now : Z) (this : AlertConfiguration)
  (tender : Tender) (d : Dates) (closingDate : Z) :
  dates tender = Some d -> closing d = Some closingDate ->
  checkDaysUntilClosing now this tender
  = Ret (negb (belowDays (minDaysUntilClosing (advancedFilters this))
                 (ceilDiv (closingDate - now) msPerDay)) &&
         negb (aboveDays (maxDaysUntilClosing (advancedFilters this))
                 (ceilDiv (closingDate - now) msPerDay))).
Proof.
  intros Hd Hc. unfold checkDaysUntilClosing, belowDays, aboveDays.
  rewrite Hd. cbn [reading bind]. rewrite Hc.
  by destruct (truthyFraction (minDaysUntilClosing (advancedFilters this))),
              (truthyFraction (maxDaysUntilClosing (advancedFilters this))).
Qed.

Lemma days_until_closing_check (now : Z) (this : AlertConfiguration) (tender : Tender)
  (d : Dates) (closingDate : Z) :
  dates tender = Some d -> closing d = Some closingDate ->
  checkDaysUntilClosing now this tender = Ret true ->
  belowDays (minDaysUntilClosing (advancedFilters this))
    (ceilDiv (closingDate - now) msPerDay) = false /\
  aboveDays (maxDaysUntilClosing (advancedFilters this))
    (ceilDiv (closingDate - now) msPerDay) = false.
Proof.
  intros Hd Hc.
  rewrite (checkDaysUntilClosing_closing now this tender d closingDate Hd Hc).
  intros [= H]. apply andb_true_iff in H as [H1 H2].
  by apply negb_true_iff in H1, H2.
Qed.

(** X5: with a closing date, the days-until-closing filter is a filter on the
    time left. The bounds may be fractions and are compared with the number of
    days left rounded up to a whole number: a minimum of [lo] days admits
    exactly the records that close more than [lo] rounded up, less one, days of
    24 hours after the evaluation, a maximum of [hi] days exactly those that
    close at most [hi] rounded down days after it. A bound of 0 days is not a
    bound. *)
Theorem days_until_closing_bounds
  (now : Z) (this : AlertConfiguration) (tender : Tender) (d : Dates) (closingDate : Z) :
  dates tender = Some d -> closing d = Some closingDate ->
  (checkDaysUntilClosing now this tender = Ret true <->
   (forall lo, truthyFraction (minDaysUntilClosing (advancedFilters this)) = Some lo ->
               (Qceiling lo - 1) * msPerDay < closingDate - now) /\
   (forall hi, truthyFraction (maxDaysUntilClosing (advancedFilters this)) = Some hi ->
               closingDate - now <= Qfloor hi * msPerDay)).
Proof.
  intros Hd Hc.
  rewrite <- belowDays_timeLeft, <- aboveDays_timeLeft.
  rewrite (checkDaysUntilClosing_closing now this tender d closingDate Hd Hc).
  split.
  - intros [= H]. apply andb_true_iff in H as [H1 H2].
    by apply negb_true_iff in H1, H2.
  - by intros [-> ->].
Qed.

Lemma days_until_closing_bounds_witness :
  let this :=
    advancedConfig
      {| excludeKeywords := []; minDaysUntilClosing := Some (3 # 2);
         maxDaysUntilClosing := Some (61 # 2); includedStatuses := [];
         includedPriorities := [] |} in
  let closesIn (timeLeft : Z) :=
    {| tender_id := "t"; title := None; description := None;
       fullTextMarkdown := None; category := None; organization := None;
       location := None;
       dates := Some {| published := None; closing := Some timeLeft |};
       financials := None; status := None; priority := None |} in
  checkDaysUntilClosing 0 this (closesIn (3 * msPerDay)) = Ret true /\
  checkDaysUntilClosing 0 this (closesIn 64800000) <> Ret true /\
  checkDaysUntilClosing 0 this (closesIn (30 * msPerDay + 1)) <> Ret true.
Proof.
  intros this closesIn.
  assert (forall timeLeft,
            checkDaysUntilClosing 0 this (closesIn timeLeft) = Ret true <->
            (2 - 1) * msPerDay < timeLeft - 0 /\ timeLeft - 0 <= 30 * msPerDay) as H.
  { intros timeLeft.
    rewrite (days_until_closing_bounds 0 this (closesIn timeLeft)
               {| published := None; closing := Some timeLeft |} timeLeft
               eq_refl eq_refl).
    split.
    - intros [Hlo Hhi]. split; [by apply (Hlo (3 # 2)%Q) | by apply (Hhi (61 # 2)%Q)].
    - intros [Hlo Hhi]. split; by intros ? [= <-]. }
  split; [|split]; rewrite H; unfold msPerDay; lia.
Defined.

(** ** What a run leaves of a document *)

Lemma UpdatedFrom_refl (alert : AlertConfiguration) : UpdatedFrom alert alert.
Proof. unfold UpdatedFrom. repeat split; try done; lia. Qed.

Lemma UpdatedFrom_trans (a b c : AlertConfiguration) :
  UpdatedFrom a b -> UpdatedFrom b c -> UpdatedFrom a c.
Proof.
  unfold UpdatedFrom. intros H1 H2.
  repeat match goal with H : _ /\ _ |- _ => destruct H as [? H] end.
  repeat split; try congruence; lia.
Qed.

Lemma UpdatedFrom_updateStats (now : Z) (alert : AlertConfiguration) (tender : Tender) :
  UpdatedFrom alert (updateStats now alert tender).
Proof. unfold UpdatedFrom. simpl. repeat split; try done; lia. Qed.

Lemma UpdatedFrom_incrementEmailSent (now : Z) (alert : AlertConfiguration) :
  UpdatedFrom alert (incrementEmailSent now alert).
Proof. unfold UpdatedFrom. simpl. repeat split; try done; lia. Qed.

Lemma UpdatedFrom_fold (now : Z) (matches : list Tender) (alert : AlertConfiguration) :
  UpdatedFrom alert (fold_left (updateStats now) matches alert).
Proof.
  revert alert. induction matches as [|t rest IH]; intros alert; simpl.
  - apply UpdatedFrom_refl.
  - eapply UpdatedFrom_trans; [apply UpdatedFrom_updateStats | apply IH].
Qed.

Lemma UpdatedFrom_recordMatches (now : Z) (matches : list Tender)
  (alert : AlertConfiguration) :
  UpdatedFrom alert (recordMatches now matches alert).
Proof.
  unfold recordMatches. destruct (nonEmpty matches); [|apply UpdatedFrom_refl].
  eapply UpdatedFrom_trans; [apply UpdatedFrom_fold | apply UpdatedFrom_incrementEmailSent].
Qed.

(** The evaluator reads nothing that a run writes. *)
Lemma UpdatedFrom_same_matches (now : Z) (alert doc : AlertConfiguration)
  (tender : Tender) :
  UpdatedFrom alert doc ->
  shouldTriggerForTender now doc tender = shouldTriggerForTender now alert tender.
Proof.
  unfold UpdatedFrom. intros H.
  repeat match goal with H : _ /\ _ |- _ => destruct H as [? H] end.
  destruct alert, doc. simpl in *. by subst.
Qed.

Lemma processAlert_UpdatedFrom (now : Z) (transport : Transport) (tender : Tender)
  (alert : AlertConfiguration) (st : RunState) :
  UpdatedFrom alert (step_doc (processAlert now transport tender alert st)).
Proof.
  unfold processAlert.
  destruct (user alert) as [u|]; [|apply UpdatedFrom_refl].
  destruct (lacksEmailAlerts alert); [apply UpdatedFrom_refl|].
  destruct (shouldTriggerForTender now alert tender) as [[]|?];
    try apply UpdatedFrom_refl.
  destruct (_ && _); [|apply UpdatedFrom_updateStats].
  destruct (sendImmediateAlert _ _ _ _); simpl; [|apply UpdatedFrom_updateStats].
  eapply UpdatedFrom_trans;
    [apply UpdatedFrom_updateStats | apply UpdatedFrom_incrementEmailSent].
Qed.

Lemma processAlerts_UpdatedFrom (now : Z) (transport : Transport) (tender : Tender)
  (alerts : list AlertConfiguration) (st : RunState) :
  Forall2 UpdatedFrom alerts (fst (fst (processAlerts now transport tender alerts st))).
Proof.
  revert st. induction alerts as [|alert rest IH]; intros st; simpl; [constructor|].
  specialize (IH (step_state (processAlert now transport tender alert st))).
  destruct (processAlerts now transport tender rest _) as [[docs ev] final].
  simpl in *. constructor; [apply processAlert_UpdatedFrom | exact IH].
Qed.

(** X6: an immediate run leaves every document of the cohort in place and
    writes nothing but statistics: the documents after the run are, in cohort
    order, the documents before it with the same id, owner, filters and email
    settings; only totalMatches and emailsSent, which do not decrease, the last
    matched record and the times of the last match and the last mail may differ.
    So no run changes what a configuration matches. *)
Theorem immediate_run_writes_only_statistics
  (now : Z) (transport : Transport) (tender : Tender)
  (immediateAlerts : list AlertConfiguration) :
  Forall2 UpdatedFrom immediateAlerts
    (imm_docs (processTenderAlertsOn now transport tender immediateAlerts)) /\
  Forall2 (fun alert doc =>
             forall now' tender',
               shouldTriggerForTender now' doc tender'
               = shouldTriggerForTender now' alert tender')
    immediateAlerts
    (imm_docs (processTenderAlertsOn now transport tender immediateAlerts)).
Proof.
  assert (Forall2 UpdatedFrom immediateAlerts
            (imm_docs (processTenderAlertsOn now transport tender immediateAlerts)))
    as Hdocs.
  { unfold processTenderAlertsOn.
    destruct immediateAlerts as [|alert rest]; [constructor|].
    cbn [nonEmpty].
    pose proof (processAlerts_UpdatedFrom now transport tender (alert :: rest)
                  initialState) as H.
    by destruct (processAlerts now transport tender (alert :: rest) initialState)
      as [[docs ev] final]. }
  split; [exact Hdocs|].
  induction Hdocs as [|alert doc alerts docs Hone Hrest IH]; constructor; [|exact IH].
  intros now' tender'. by apply UpdatedFrom_same_matches.
Qed.

(** ** The counters of an immediate run *)

Lemma ImmediateDelta_refl (st : RunState) : ImmediateDelta st st 0 0 0.
Proof. unfold ImmediateDelta. repeat split; simpl; lia. Qed.

Lemma ImmediateDelta_trans (st1 st2 st3 : RunState) (s1 f1 t1 s2 f2 t2 : nat) :
  ImmediateDelta st1 st2 s1 f1 t1 -> ImmediateDelta st2 st3 s2 f2 t2 ->
  ImmediateDelta st1 st3 (s1 + s2) (f1 + f2) (t1 + t2).
Proof.
  unfold ImmediateDelta. intros (A1 & A2 & A3 & A4 & A5 & A6) (B1 & B2 & B3 & B4 & B5 & B6).
  repeat split; lia.
Qed.

Lemma processAlert_accounts (now : Z) (transport : Transport) (tender : Tender)
  (alert : AlertConfiguration) (st : RunState) :
  enabled (emailSettings alert) &&
    frequencyIs (frequency (emailSettings alert)) immediate = true ->
  exists sent failed thrown,
    ImmediateDelta st (step_state (processAlert now transport tender alert st))
      sent failed thrown /\
    (sent + failed + thrown <= if lacksEmailAlerts alert then 0 else 1)%nat /\
    step_evaluated (processAlert now transport tender alert st)
    = negb (lacksEmailAlerts alert).
Proof.
  intros Himm. unfold processAlert.
  destruct (user alert) as [u|] eqn:Huser; cycle 1.
  { exists 0%nat, 0%nat, 0%nat. unfold lacksEmailAlerts. rewrite Huser.
    split; [apply ImmediateDelta_refl | split; [simpl; lia | done]]. }
  destruct (lacksEmailAlerts alert).
  { exists 0%nat, 0%nat, 0%nat. split; [apply ImmediateDelta_refl | split; [simpl; lia | done]]. }
  destruct (shouldTriggerForTender now alert tender) as [[]|message].
  - change (emailSettings (updateStats now alert tender)) with (emailSettings alert).
    rewrite Himm.
    destruct (sendImmediateAlert transport u tender (updateStats now alert tender))
      as [mail|message].
    + exists 1%nat, 0%nat, 0%nat. split; [|split; [simpl; lia | done]].
      unfold ImmediateDelta, errorsOfType. simpl.
      rewrite length_app. simpl. repeat split; lia.
    + exists 0%nat, 1%nat, 0%nat. split; [|split; [simpl; lia | done]].
      unfold ImmediateDelta, errorsOfType. simpl.
      rewrite !List.filter_app, !length_app. simpl. repeat split; lia.
  - exists 0%nat, 0%nat, 0%nat. split; [apply ImmediateDelta_refl | split; [simpl; lia | done]].
  - exists 0%nat, 0%nat, 1%nat. split; [|split; [simpl; lia | done]].
    unfold ImmediateDelta, errorsOfType. simpl.
    rewrite !List.filter_app, !length_app. simpl. repeat split; lia.
Qed.

Lemma processAlerts_accounts (now : Z) (transport : Transport) (tender : Tender)
  (alerts : list AlertConfiguration) (st : RunState) :
  (forall a, In a alerts ->
     enabled (emailSettings a) && frequencyIs (frequency (emailSettings a)) immediate
     = true) ->
  exists sent failed thrown,
    ImmediateDelta st (snd (processAlerts now transport tender alerts st))
      sent failed thrown /\
    (sent + failed + thrown <= List.length (entitled alerts))%nat /\
    snd (fst (processAlerts now transport tender alerts st))
    = map alert_id (entitled alerts).
Proof.
  revert st. induction alerts as [|alert rest IH]; intros st Himm.
  - exists 0%nat, 0%nat, 0%nat. simpl.
    split; [apply ImmediateDelta_refl | by split].
  - destruct (processAlert_accounts now transport tender alert st
                (Himm alert (or_introl eq_refl))) as (s1 & f1 & t1 & H1 & Hle1 & Hev).
    destruct (IH (step_state (processAlert now transport tender alert st))
                (fun a Ha => Himm a (or_intror Ha)))
      as (s2 & f2 & t2 & H2 & Hle2 & Hevs).
    exists (s1 + s2)%nat, (f1 + f2)%nat, (t1 + t2)%nat.
    simpl processAlerts.
    destruct (processAlerts now transport tender rest _) as [[docs ev] final].
    simpl in *. split; [by eapply ImmediateDelta_trans|].
    unfold entitled in *. simpl. rewrite Hev.
    destruct (lacksEmailAlerts alert); simpl; subst ev; split; (lia || done).
Qed.

Lemma findImmediateAlerts_immediate (db : list AlertConfiguration) (a : AlertConfiguration) :
  In a (findImmediateAlerts db) ->
  enabled (emailSettings a) && frequencyIs (frequency (emailSettings a)) immediate = true.
Proof.
  unfold findImmediateAlerts, activeWithFrequency. intros H%filter_In.
  destruct H as [_ H]. apply andb_true_iff in H as [H1 H2].
  apply andb_true_iff in H1 as [_ H1]. by rewrite H1, H2.
Qed.

(** X7: the counters of an immediate run add up. [emailsSent] is the number
    of mails the transport accepted; [processed] is [emailsSent] plus the number
    of errors of type "email": every configuration that triggered got its mail
    or an error. The predicate is called on the entitled configurations of the
    cohort, each exactly once and in cohort order, and each of them counts at
    most once, as processed or as an error of type "processing". *)
Theorem immediate_run_accounts
  (now : Z) (transport : Transport) (db : list AlertConfiguration) (tender : Tender) :
  let run := processTenderAlerts now transport db tender in
  let errs := default [] (errors (imm_results run)) in
  results_emailsSent (imm_results run) = Z.of_nat (List.length (imm_outbox run)) /\
  processed (imm_results run)
  = results_emailsSent (imm_results run)
    + Z.of_nat (List.length (errorsOfType "email" errs)) /\
  processed (imm_results run) + Z.of_nat (List.length (errorsOfType "processing" errs))
  <= Z.of_nat (List.length (entitled (findImmediateAlerts db))) /\
  List.length errs
  = (List.length (errorsOfType "email" errs)
     + List.length (errorsOfType "processing" errs))%nat /\
  imm_evaluated run = map alert_id (entitled (findImmediateAlerts db)).
Proof.
  unfold processTenderAlerts, processTenderAlertsOn.
  destruct (findImmediateAlerts db) as [|alert rest] eqn:Hcohort.
  { simpl. repeat split; lia. }
  cbn [nonEmpty].
  destruct (processAlerts_accounts now transport tender (alert :: rest) initialState)
    as (sent & failed & thrown & Hdelta & Hle & Hev).
  { intros a Ha. apply (findImmediateAlerts_immediate db). by rewrite Hcohort. }
  destruct (processAlerts now transport tender (alert :: rest) initialState)
    as [[docs ev] final].
  destruct Hdelta as (H1 & H2 & H3 & H4 & H5 & H6). simpl in *.
  repeat split; try done; lia.
Qed.

(** ** What a digest run leaves of the cohort *)

Lemma updateTriggered_UpdatedFrom (now : Z) (uniqueTenders : list Tender)
  (alerts : list AlertConfiguration) :
  Forall2 UpdatedFrom alerts (fst (updateTriggered now uniqueTenders alerts)).
Proof.
  induction alerts as [|alert rest IH]; simpl; [constructor|].
  destruct (filterM _ uniqueTenders) as [matches|].
  - destruct (updateTriggered now uniqueTenders rest) as [rest' failure]. simpl in *.
    constructor; [apply UpdatedFrom_recordMatches | exact IH].
  - simpl. constructor; [apply UpdatedFrom_refl|].
    clear. induction rest; constructor; [apply UpdatedFrom_refl | done].
Qed.

Lemma Forall2_UpdatedFrom_refl (alerts : list AlertConfiguration) :
  Forall2 UpdatedFrom alerts alerts.
Proof. induction alerts; constructor; [apply UpdatedFrom_refl | done]. Qed.

Lemma ownerDocs_UpdatedFrom (kind : Digest) (now : Z) (transport : Transport)
  (recentTenders : list Tender) (alerts : list AlertConfiguration) :
  Forall2 UpdatedFrom alerts (ownerDocs kind now transport recentTenders alerts).
Proof.
  unfold ownerDocs, processOwner.
  destruct (firstUser alerts) as [u|]; [|apply Forall2_UpdatedFrom_refl].
  destruct (uniqueMatches now alerts recentTenders) as [unique|];
    [|apply Forall2_UpdatedFrom_refl].
  destruct (nonEmpty unique); [|apply Forall2_UpdatedFrom_refl].
  destruct (sendSummary kind now transport u unique alerts) as [sent|];
    [|apply Forall2_UpdatedFrom_refl].
  pose proof (updateTriggered_UpdatedFrom now unique alerts) as H.
  by destruct (updateTriggered now unique alerts) as [alerts' [failure|]].
Qed.

Lemma pushToGroup_Permutation (userId : string) (alert : AlertConfiguration)
  (userMap : list (string * list AlertConfiguration)) :
  Permutation (concat (map snd (pushToGroup userId alert userMap)))
              (concat (map snd userMap) ++ [alert]).
Proof.
  induction userMap as [|[key alerts] rest IH]; simpl; [done|].
  destruct (String.eqb key userId); simpl.
  - rewrite <- !app_assoc. apply Permutation_app_head. apply Permutation_app_comm.
  - rewrite IH. by rewrite app_assoc.
Qed.

Lemma groupInto_Permutation (userMap grouped : list (string * list AlertConfiguration))
  (alerts : list AlertConfiguration) :
  groupInto userMap alerts = Ret grouped ->
  Permutation (concat (map snd userMap) ++ alerts) (concat (map snd grouped)).
Proof.
  revert userMap. induction alerts as [|alert rest IH]; intros userMap; simpl.
  - intros [= <-]. by rewrite app_nil_r.
  - destruct (user alert) as [u|]; [|done]. simpl. intros Hrest.
    rewrite <- (IH _ Hrest), pushToGroup_Permutation. by rewrite <- app_assoc.
Qed.

Lemma Forall2_concat_map {A B} (R : A -> A -> Prop) (F : list A -> list A)
  (groups : list (B * list A)) :
  (forall l, Forall2 R l (F l)) ->
  Forall2 R (concat (map snd groups)) (concat (map (fun group => F (snd group)) groups)).
Proof.
  intros HF. induction groups as [|[key l] rest IH]; simpl; [constructor|].
  apply Forall2_app; [apply HF | exact IH].
Qed.

(** X8: a daily or weekly run that returns loses no document and writes
    nothing but statistics: the documents after the run are the cohort,
    regrouped by owner, each with the same id, owner, filters and email settings
    as before; only the statistics, which do not decrease, and the time of the
    last mail may differ. *)
Theorem digest_run_writes_only_statistics
  (kind : Digest) (now : Z) (transport : Transport) (alerts : list AlertConfiguration)
  (recentTenders : list Tender) (run : DigestRun) :
  processSummaries kind now transport alerts recentTenders = Ret run ->
  exists regrouped,
    Permutation alerts regrouped /\ Forall2 UpdatedFrom regrouped (dig_docs run).
Proof.
  unfold processSummaries.
  destruct (nonEmpty alerts); cycle 1.
  { intros [= <-]. exists alerts. split; [done | apply Forall2_UpdatedFrom_refl]. }
  destruct (nonEmpty recentTenders); cycle 1.
  { intros [= <-]. exists alerts. split; [done | apply Forall2_UpdatedFrom_refl]. }
  destruct (groupAlertsByUser alerts) as [grouped|] eqn:Hgroup; [|done].
  simpl.
  destruct (processOwners_spec kind now transport recentTenders grouped initialState)
    as [Hdocs _].
  destruct (processOwners kind now transport recentTenders grouped initialState)
    as [groups final].
  intros [= <-]. simpl in *. subst groups.
  exists (concat (map snd grouped)). split.
  - apply (groupInto_Permutation [] grouped alerts Hgroup).
  - rewrite map_map. simpl.
    apply (Forall2_concat_map UpdatedFrom
             (ownerDocs kind now transport recentTenders) grouped).
    intros l. apply ownerDocs_UpdatedFrom.
Qed.

Lemma digest_run_writes_only_statistics_witness :
  exists run regrouped,
    processSummaries dailyDigest 7 smtpUp [laptopsDaily; furnitureDaily; suppliesDaily]
      [laptopTender] = Ret run /\
    Permutation [laptopsDaily; furnitureDaily; suppliesDaily] regrouped /\
    Forall2 UpdatedFrom regrouped (dig_docs run).
Proof.
  destruct (processSummaries dailyDigest 7 smtpUp
              [laptopsDaily; furnitureDaily; suppliesDaily] [laptopTender])
    as [run|] eqn:Hrun; [|by vm_compute in Hrun].
  destruct (digest_run_writes_only_statistics _ _ _ _ _ _ Hrun) as (regrouped & H).
  by exists run, regrouped.
Defined.

(** ** The counters of a digest run *)

Lemma DigestDelta_refl (kind : Digest) (st : RunState) : DigestDelta kind st st 0 0 0.
Proof. unfold DigestDelta. repeat split; simpl; try lia. done. Qed.

Lemma DigestDelta_trans (kind : Digest) (st1 st2 st3 : RunState)
  (d1 f1 s1 d2 f2 s2 : nat) :
  DigestDelta kind st1 st2 d1 f1 s1 -> DigestDelta kind st2 st3 d2 f2 s2 ->
  DigestDelta kind st1 st3 (d1 + d2) (f1 + f2) (s1 + s2).
Proof.
  unfold DigestDelta. intros (A1 & A2 & A3 & A4 & A5) (B1 & B2 & B3 & B4 & B5).
  repeat split; try lia. auto.
Qed.

Lemma DigestDelta_pushError (kind : Digest) (ref message : string) (st : RunState) :
  DigestDelta kind st (pushError ref (digestErrorType kind) message st) 0 1 0.
Proof.
  unfold DigestDelta. simpl. rewrite length_app. simpl.
  repeat split; try lia. intros H. apply Forall_app. split; [done|].
  by repeat constructor.
Qed.

Lemma processOwner_accounts (kind : Digest) (now : Z) (transport : Transport)
  (recentTenders : list Tender) (userId : string) (alerts : list AlertConfiguration)
  (st : RunState) :
  exists done failed sent,
    DigestDelta kind st
      (snd (processOwner kind now transport recentTenders userId alerts st))
      done failed sent /\
    (done + failed = 1)%nat /\ (sent <= done)%nat.
Proof.
  unfold processOwner.
  destruct (firstUser alerts) as [u|].
  2: { exists 0%nat, 1%nat, 0%nat. split; [apply DigestDelta_pushError | lia]. }
  destruct (uniqueMatches now alerts recentTenders) as [unique|] eqn:Hunique.
  2: { exists 0%nat, 1%nat, 0%nat. split; [apply DigestDelta_pushError | lia]. }
  destruct (nonEmpty unique) eqn:Hne.
  2: { exists 1%nat, 0%nat, 0%nat. split; [|lia].
       unfold DigestDelta. simpl. repeat split; try lia. done. }
  destruct (sendSummary kind now transport u unique alerts) as [sent|] eqn:Hsend.
  2: { exists 0%nat, 1%nat, 0%nat. split; [apply DigestDelta_pushError | lia]. }
  assert (exists mail, sent = Some mail) as [mail ->].
  { unfold sendSummary in Hsend. rewrite Hne in Hsend.
    destruct (groupTendersByAlert now unique alerts); [|done]. simpl in Hsend.
    destruct (sendSummaryEmail _ _ _ _ _); [|done]. injection Hsend as <-. by eexists. }
  destruct (uniqueMatches_Ret now alerts recentTenders unique Hunique)
    as (Hdef & Hsub & _).
  rewrite updateTriggered_defined by (intros a t Ha Ht; apply Hdef; auto).
  exists 1%nat, 0%nat, 1%nat. split; [|lia].
  unfold DigestDelta. simpl. rewrite length_app. simpl.
  repeat split; try lia. done.
Qed.

Lemma processOwners_accounts (kind : Digest) (now : Z) (transport : Transport)
  (recentTenders : list Tender) (userAlerts : list (string * list AlertConfiguration))
  (st : RunState) :
  exists done failed sent,
    DigestDelta kind st
      (snd (processOwners kind now transport recentTenders userAlerts st))
      done failed sent /\
    (done + failed = List.length userAlerts)%nat /\ (sent <= done)%nat.
Proof.
  revert st. induction userAlerts as [|[userId alerts] rest IH]; intros st.
  - exists 0%nat, 0%nat, 0%nat. split; [apply DigestDelta_refl | simpl; lia].
  - destruct (processOwner_accounts kind now transport recentTenders userId alerts st)
      as (d1 & f1 & s1 & H1 & Hone & Hle1).
    simpl processOwners.
    destruct (processOwner kind now transport recentTenders userId alerts st)
      as [alerts' st'].
    destruct (IH st') as (d2 & f2 & s2 & H2 & Hlen & Hle2).
    destruct (processOwners kind now transport recentTenders rest st')
      as [rest' final].
    simpl in *. exists (d1 + d2)%nat, (f1 + f2)%nat, (s1 + s2)%nat.
    split; [by eapply DigestDelta_trans | lia].
Qed.

(** X9: the counters of a daily or weekly run add up. In a run that reaches
    the loop over the owners, every owner of the cohort counts exactly once, as
    processed or as one entry of the error list, and every entry has the type of
    the run; [emailsSent] is the number of mails the transport accepted and is
    at most [processed]. *)
Theorem digest_run_accounts
  (kind : Digest) (now : Z) (transport : Transport) (alerts : list AlertConfiguration)
  (recentTenders : list Tender) (run : DigestRun) :
  processSummaries kind now transport alerts recentTenders = Ret run ->
  nonEmpty alerts = true -> nonEmpty recentTenders = true ->
  exists owners errs,
    groupAlertsByUser alerts = Ret owners /\
    List.NoDup (map fst owners) /\
    errors (dig_results run) = Some errs /\
    processed (dig_results run) + Z.of_nat (List.length errs)
    = Z.of_nat (List.length owners) /\
    results_emailsSent (dig_results run) = Z.of_nat (List.length (dig_outbox run)) /\
    results_emailsSent (dig_results run) <= processed (dig_results run) /\
    Forall (fun e => error_type e = digestErrorType kind) errs.
Proof.
  intros Hrun Ha Ht. unfold processSummaries in Hrun. rewrite Ha, Ht in Hrun.
  destruct (groupAlertsByUser alerts) as [grouped|] eqn:Hgroup; [|done].
  simpl in Hrun.
  destruct (processOwners_accounts kind now transport recentTenders grouped
              initialState) as (d & f & s & Hdelta & Hlen & Hle).
  destruct (processOwners kind now transport recentTenders grouped initialState)
    as [groups final].
  injection Hrun as <-. destruct Hdelta as (H1 & H2 & H3 & H4 & H5). simpl in *.
  exists grouped, (run_errors final).
  destruct (groupAlertsByUser_spec alerts grouped Hgroup) as [Hnodup _].
  repeat split; try done; try lia. apply H5. constructor.
Qed.

Lemma digest_run_accounts_witness :
  exists run owners errs,
    processSummaries dailyDigest 7 smtpDown [laptopsDaily; furnitureDaily; suppliesDaily]
      [laptopTender] = Ret run /\
    groupAlertsByUser [laptopsDaily; furnitureDaily; suppliesDaily] = Ret owners /\
    errors (dig_results run) = Some errs /\
    processed (dig_results run) + Z.of_nat (List.length errs)
    = Z.of_nat (List.length owners) /\
    List.length owners = 2%nat.
Proof.
  destruct (processSummaries dailyDigest 7 smtpDown
              [laptopsDaily; furnitureDaily; suppliesDaily] [laptopTender])
    as [run|] eqn:Hrun; [|by vm_compute in Hrun].
  destruct (digest_run_accounts _ _ _ _ _ _ Hrun eq_refl eq_refl)
    as (owners & errs & Hgroup & _ & Herrs & Hsum & _).
  exists run, owners, errs. repeat split; try done.
  vm_compute in Hgroup. by injection Hgroup as <-.
Defined.

(** ** A configuration whose owner is gone *)

Lemma groupInto_Throw (userMap : list (string * list AlertConfiguration))
  (alerts : list AlertConfiguration) :
  (exists message, groupInto userMap alerts = Throw message) <->
  exists a, In a alerts /\ user a = None.
Proof.
  revert userMap. induction alerts as [|alert rest IH]; intros userMap; simpl.
  - split; [by intros [? ?] | by intros (? & [] & _)].
  - destruct (user alert) as [u|] eqn:Huser; simpl.
    + rewrite IH. split.
      * intros (a & Ha & Hnone). exists a. auto.
      * intros (a & [<- | Ha] & Hnone); [congruence | by exists a].
    + split; [|by eexists]. intros _. exists alert. auto.
Qed.

(** X10: a daily or weekly run fails as a whole exactly when there are
    records in the window and the cohort holds a configuration whose populated
    user is absent: grouping by owner throws before any owner is processed,
    whereas the immediate run skips such a configuration. *)
Theorem digest_run_throws_on_missing_owner
  (kind : Digest) (now : Z) (transport : Transport) (alerts : list AlertConfiguration)
  (recentTenders : list Tender) :
  (exists message,
     processSummaries kind now transport alerts recentTenders = Throw message) <->
  recentTenders <> [] /\ exists a, In a alerts /\ user a = None.
Proof.
  unfold processSummaries. destruct alerts as [|alert rest].
  { simpl. split; [by intros [? ?] | by intros (_ & ? & [] & _)]. }
  cbn [nonEmpty]. destruct recentTenders as [|tender tenders].
  { simpl. split; [by intros [? ?] | by intros [? _]]. }
  cbn [nonEmpty]. rewrite <- (groupInto_Throw [] (alert :: rest)).
  fold (groupAlertsByUser (alert :: rest)).
  destruct (groupAlertsByUser (alert :: rest)) as [grouped|message]; simpl.
  - destruct (processOwners _ _ _ _ _ _) as [groups final].
    split; [by intros [? ?] | by intros (_ & ? & ?)].
  - split; [intros _; split; [done | by eexists] | by eexists].
Qed.

(** ** The weekly cadence *)











(** ** The scheduler service *)

Lemma mapGet_mapSet (key key' : string) (value : SchedulerService.CronJob)
  (m : list (string * SchedulerService.CronJob)) :
  SchedulerService.mapGet key' (SchedulerService.mapSet key value m)
  = if String.eqb key key' then Some value else SchedulerService.mapGet key' m.
Proof.
  induction m as [|[k v] rest IH]; simpl.
  - done.
  - destruct (String.eqb_spec k key) as [-> | Hne]; simpl.
    + by destruct (String.eqb key key').
    + rewrite IH. destruct (String.eqb_spec k key') as [-> | ?]; [|done].
      by destruct (String.eqb_spec key key').
Qed.

Lemma mapSet_keys (key : string) (value : SchedulerService.CronJob)
  (m : list (string * SchedulerService.CronJob)) :
  is_Some (SchedulerService.mapGet key m) ->
  map fst (SchedulerService.mapSet key value m) = map fst m.
Proof.
  induction m as [|[k v] rest IH]; simpl; [by intros [? ?]|].
  destruct (String.eqb k key); simpl; [done|]. intros H. by rewrite IH.
Qed.

Lemma mapSet_same (key : string) (value : SchedulerService.CronJob)
  (m : list (string * SchedulerService.CronJob)) :
  SchedulerService.mapGet key m = Some value ->
  SchedulerService.mapSet key value m = m.
Proof.
  induction m as [|[k v] rest IH]; simpl; [done|].
  destruct (String.eqb k key); [by intros [= ->] | intros H; by rewrite IH].
Qed.

Lemma mapSet_mapSet (key : string) (v w : SchedulerService.CronJob)
  (m : list (string * SchedulerService.CronJob)) :
  is_Some (SchedulerService.mapGet key m) ->
  SchedulerService.mapSet key w (SchedulerService.mapSet key v m)
  = SchedulerService.mapSet key w m.
Proof.
  induction m as [|[k u] rest IH]; simpl; [by intros [? ?]|].
  destruct (String.eqb k key) eqn:Hk; simpl; rewrite Hk; [done|].
  intros H. by rewrite IH.
Qed.

(** X12: the life cycle of the scheduler service. [initialize] on a fresh
    service registers seven running jobs under distinct names; calling it again
    changes nothing; [shutdown] leaves a service without jobs whatever it held,
    and [initialize] after [shutdown] gives the same service as on a fresh one. *)
Theorem scheduler_life_cycle (s : SchedulerService.State) :
  SchedulerService.initialize (SchedulerService.initialize s)
  = SchedulerService.initialize s /\
  SchedulerService.shutdown s = SchedulerService.constructor /\
  SchedulerService.initialize (SchedulerService.shutdown s)
  = SchedulerService.initialize SchedulerService.constructor /\
  map fst (SchedulerService.jobs
             (SchedulerService.initialize SchedulerService.constructor))
  = ["daily-09:00"; "weekly"; "daily-08:00"; "daily-10:00"; "daily-12:00";
     "daily-18:00"; "cleanup"] /\
  Forall (fun entry => SchedulerService.running (snd entry) = true)
    (SchedulerService.jobs
       (SchedulerService.initialize SchedulerService.constructor)).
Proof.
  split; [|split; [|split; [|split]]].
  - assert (SchedulerService.isInitialized (SchedulerService.initialize s) = true)
      as Hinit.
    { unfold SchedulerService.initialize.
      by destruct (SchedulerService.isInitialized s) eqn:Hs. }
    unfold SchedulerService.initialize at 1. by rewrite Hinit.
  - reflexivity.
  - reflexivity.
  - reflexivity.
  - repeat constructor.
Qed.

(** X13: stopping and starting a job by name. For a name that is not
    registered both calls return [false] and change nothing. For a registered
    name they return [true], set the running bit of that job and leave the names
    and every other job as they were; starting a running job that was stopped
    gives back the service as it was. *)
Theorem stop_and_start_by_name (jobName : string) (s : SchedulerService.State) :
  (SchedulerService.mapGet jobName (SchedulerService.jobs s) = None ->
   SchedulerService.stopJob jobName s = (false, s) /\
   SchedulerService.startJob jobName s = (false, s)) /\
  (forall job,
     SchedulerService.mapGet jobName (SchedulerService.jobs s) = Some job ->
     let stopped := SchedulerService.stopJob jobName s in
     fst stopped = true /\
     SchedulerService.mapGet jobName (SchedulerService.jobs (snd stopped))
     = Some (SchedulerService.stop job) /\
     (forall other, other <> jobName ->
        SchedulerService.mapGet other (SchedulerService.jobs (snd stopped))
        = SchedulerService.mapGet other (SchedulerService.jobs s)) /\
     map fst (SchedulerService.jobs (snd stopped)) = map fst (SchedulerService.jobs s) /\
     fst (SchedulerService.startJob jobName (snd stopped)) = true /\
     (SchedulerService.running job = true ->
      snd (SchedulerService.startJob jobName (snd stopped)) = s)).
Proof.
  split.
  - intros Hnone. unfold SchedulerService.stopJob, SchedulerService.startJob.
    by rewrite Hnone.
  - intros job Hjob stopped. subst stopped.
    unfold SchedulerService.stopJob. rewrite Hjob. simpl.
    assert (SchedulerService.mapGet jobName
              (SchedulerService.mapSet jobName (SchedulerService.stop job)
                 (SchedulerService.jobs s)) = Some (SchedulerService.stop job)) as Hget
      by (by rewrite mapGet_mapSet, String.eqb_refl).
    split; [done|]. split; [done|]. split; [|split; [|split]].
    + intros other Hne. rewrite mapGet_mapSet.
      by destruct (String.eqb_spec jobName other) as [<- | ?].
    + apply mapSet_keys. by eexists.
    + unfold SchedulerService.startJob. simpl. by rewrite Hget.
    + intros Hrunning. unfold SchedulerService.startJob. simpl. rewrite Hget. simpl.
      rewrite mapSet_mapSet by (by eexists).
      assert (SchedulerService.start (SchedulerService.stop job) = job) as ->
        by (destruct job; simpl in *; by subst).
      rewrite mapSet_same by done. by destruct s.
Qed.

Lemma stop_and_start_by_name_witness :
  let s := SchedulerService.initialize SchedulerService.constructor in
  SchedulerService.stopJob "monthly" s = (false, s) /\
  fst (SchedulerService.stopJob "weekly" s) = true /\
  snd (SchedulerService.startJob "weekly" (snd (SchedulerService.stopJob "weekly" s)))
  = s.
Proof.
  intros s.
  destruct (stop_and_start_by_name "monthly" s) as [Hunknown _].
  destruct (stop_and_start_by_name "weekly" s) as [_ Hknown].
  destruct (Hknown _ eq_refl) as (Htrue & _ & _ & _ & _ & Hback).
  split; [by apply Hunknown|]. split; [exact Htrue | by apply Hback].
Defined.

(** X14: a daily configuration is served by a timer only if its time of day
    is one of the five times for which the service registers a daily job. A
    configuration with any other [dailySummaryTime] is in the cohort of none of
    the registered daily jobs. *)
Theorem unscheduled_daily_time_is_never_served
  (db : list AlertConfiguration) (a : AlertConfiguration) (time : string) :
  ~ In (dailySummaryTime (emailSettings a)) ["09:00"; "08:00"; "10:00"; "12:00"; "18:00"] ->
  In time (SchedulerService.dailyTimes
             (SchedulerService.initialize SchedulerService.constructor)) ->
  ~ In a (findDailyAlerts time db).
Proof.
  intros Hnot Htime Hin. apply Hnot.
  unfold findDailyAlerts in Hin. apply filter_In in Hin as [_ Hin].
  apply andb_true_iff in Hin as [_ Heq]. apply String.eqb_eq in Heq. rewrite Heq.
  exact Htime.
Qed.

Lemma unscheduled_daily_time_is_never_served_witness :
  let a :=
    {| alert_id := "early"; user := Some (subscriber "u1"); name := "early";
       isActive := true; keywords := []; categories := []; locations := noLocations;
       organizationTypes := []; estimatedValue := noRange;
       emailSettings :=
         {| enabled := true; frequency := daily; customEmail := None;
            lastSentAt := None; dailySummaryTime := "07:30" |};
       stats := freshStats; advancedFilters := noAdvancedFilters |} in
  ~ In a (findDailyAlerts "09:00" [a]) /\ In a (findDailyAlerts "07:30" [a]).
Proof.
  intros a. split.
  - apply (unscheduled_daily_time_is_never_served [a] a "09:00").
    + simpl. intros [H | [H | [H | [H | [H | []]]]]]; discriminate H.
    + by left.
  - by left.
Defined.

(** ** Recipients *)

Lemma sendImmediateAlert_Ret (transport : Transport) (owner : User) (tender : Tender)
  (alert : AlertConfiguration) (mail : Mail) :
  user alert = Some owner ->
  sendImmediateAlert transport owner tender alert = Ret mail ->
  mail_to mail = immediateRecipient alert owner /\
  mail_subject mail = NewTenderAlert (title tender).
Proof.
  intros Huser. unfold sendImmediateAlert, sendAlertEmail, sendMail.
  destruct (generateAlertEmailHTML [tender] alert) as [html|]; [|done].
  destruct (generateAlertEmailText [tender] alert) as [text|]; [|done].
  cbn [bind]. destruct (transport _); [done|]. intros [= <-]. simpl. split; [|done].
  unfold immediateRecipient, effectiveEmail. rewrite Huser.
  destruct (truthyString (customEmail (emailSettings alert))) as [custom|] eqn:Hcustom.
  - destruct (customEmail (emailSettings alert)) as [[|c rest]|]; simpl in Hcustom;
      try done. by injection Hcustom as <-.
  - simpl. by destruct (email owner).
Qed.

Lemma processAlert_outbox (now : Z) (transport : Transport) (tender : Tender)
  (alert : AlertConfiguration) (st : RunState) :
  exists more,
    run_outbox (step_state (processAlert now transport tender alert st))
    = run_outbox st ++ more /\
    forall ref mail, In (ref, mail) more -> ImmediateMailOf tender [alert] ref mail.
Proof.
  unfold processAlert.
  destruct (user alert) as [owner|] eqn:Huser;
    [|exists []; by rewrite app_nil_r].
  destruct (lacksEmailAlerts alert); [exists []; by rewrite app_nil_r|].
  destruct (shouldTriggerForTender now alert tender) as [[|]|];
    [|exists []; by rewrite app_nil_r..].
  destruct (_ && _); [|exists []; by rewrite app_nil_r].
  destruct (sendImmediateAlert transport owner tender (updateStats now alert tender))
    as [mail|] eqn:Hsend; [|exists []; by rewrite app_nil_r].
  exists [(alert_id alert, mail)]. split; [done|].
  intros ref mail' [[= <- <-] | []].
  apply sendImmediateAlert_Ret in Hsend as [Hto Hsubject]; [|done].
  exists alert, owner. repeat split; try done. by left.
Qed.

Lemma processAlerts_outbox (now : Z) (transport : Transport) (tender : Tender)
  (alerts : list AlertConfiguration) (st : RunState) :
  exists more,
    run_outbox (snd (processAlerts now transport tender alerts st))
    = run_outbox st ++ more /\
    forall ref mail, In (ref, mail) more -> ImmediateMailOf tender alerts ref mail.
Proof.
  revert st. induction alerts as [|alert rest IH]; intros st; simpl.
  - exists []. by rewrite app_nil_r.
  - destruct (processAlert_outbox now transport tender alert st)
      as (first & Hfirst & Hmails).
    destruct (IH (step_state (processAlert now transport tender alert st)))
      as (more & Hmore & Hrest).
    destruct (processAlerts now transport tender rest _) as [[docs evaluated] final].
    simpl in *. exists (first ++ more). split.
    + by rewrite Hmore, Hfirst, app_assoc.
    + intros ref mail Hin. apply in_app_or in Hin as [Hin | Hin].
      * destruct (Hmails ref mail Hin) as (a & owner & [<- | []] & H).
        exists alert, owner. split; [by left | done].
      * destruct (Hrest ref mail Hin) as (a & owner & Ha & H).
        exists a, owner. split; [by right | done].
Qed.

Lemma ownerMails_recipient (kind : Digest) (now : Z) (transport : Transport)
  (recentTenders : list Tender) (userId : string) (alerts : list AlertConfiguration)
  (ref : string) (mail : Mail) :
  In (ref, mail) (ownerMails kind now transport recentTenders userId alerts) ->
  exists first owner,
    head alerts = Some first /\ user first = Some owner /\
    mail_to mail = email owner.
Proof.
  unfold ownerMails, processOwner, firstUser.
  destruct alerts as [|first rest]; [done|]. cbn [head reading bind].
  destruct (uniqueMatches now (first :: rest) recentTenders) as [unique|]; [|done].
  destruct (nonEmpty unique) eqn:Hunique; [|done].
  unfold sendSummary. rewrite Hunique.
  destruct (groupTendersByAlert now unique (first :: rest)) as [sections|]; [|done].
  cbn [bind].
  destruct (sendSummaryEmail transport (user first) _ sections (digestFrequency kind))
    as [sent|] eqn:Hsend; [|done].
  apply sendSummaryEmail_Ret in Hsend as (_ & _ & _ & (owner & Howner & Hto) & _).
  cbn [bind].
  destruct (updateTriggered now unique (first :: rest)) as [alerts' [failure|]];
    simpl; intros [[= <- <-] | []]; by exists first, owner.
Qed.

(** X15: whom the mails of a run are addressed to. Every mail of an immediate
    run goes back to a configuration of the cohort under whose id it is logged:
    it is addressed to the custom address of that configuration when one is set,
    to the owner's address otherwise, and its subject carries the title of the
    record. Every mail of a daily or weekly run is logged under the id of an
    owner of a configuration of the cohort and is addressed to that owner's own
    address: the custom addresses of the configurations play no part in it. *)
Theorem recipients_of_a_run (kind : Digest) (now : Z) (transport : Transport)
  (tender : Tender) (recentTenders : list Tender) (cohort : list AlertConfiguration)
  (ref : string) (mail : Mail) :
  (In (ref, mail) (imm_outbox (processTenderAlertsOn now transport tender cohort)) ->
   ImmediateMailOf tender cohort ref mail) /\
  (forall run,
     processSummaries kind now transport cohort recentTenders = Ret run ->
     In (ref, mail) (dig_outbox run) ->
     exists alert owner,
       In alert cohort /\ user alert = Some owner /\ user_id owner = ref /\
       mail_to mail = email owner).
Proof.
  split.
  - unfold processTenderAlertsOn. destruct (nonEmpty cohort); [|done].
    destruct (processAlerts_outbox now transport tender cohort initialState)
      as (more & Hout & Hmails).
    destruct (processAlerts now transport tender cohort initialState)
      as [[docs evaluated] final].
    simpl in *. rewrite Hout. apply Hmails.
  - intros run Hrun Hin.
    destruct (nonEmpty cohort) eqn:Hcohort; cycle 1.
    { unfold processSummaries in Hrun. rewrite Hcohort in Hrun.
      by injection Hrun as <-. }
    destruct (nonEmpty recentTenders) eqn:Hrecent; cycle 1.
    { unfold processSummaries in Hrun. rewrite Hcohort, Hrecent in Hrun.
      by injection Hrun as <-. }
    destruct (digest_run_owner kind now transport cohort recentTenders run ref
                Hrun Hcohort Hrecent) as [_ Hmails].
    apply Hmails in Hin. apply ownerMails_recipient in Hin
      as (first & owner & Hhead & Howner & Hto).
    assert (In first (List.filter (ownedBy ref) cohort)) as Hfirst.
    { destruct (List.filter (ownedBy ref) cohort); [done|].
      injection Hhead as ->. by left. }
    apply filter_In in Hfirst as [Hfirst Howned].
    exists first, owner. repeat split; try done.
    unfold ownedBy in Howned. rewrite Howner in Howned. by apply String.eqb_eq.
Qed.

Lemma recipients_of_a_run_witness :
  (exists mail,
     imm_outbox (processTenderAlertsOn 7 smtpUp laptopTender
                   [customAddressConfig immediate]) = [("custom", mail)] /\
     mail_to mail = "office@example.org") /\
  (exists run mail,
     processSummaries dailyDigest 7 smtpUp [customAddressConfig daily] [laptopTender]
     = Ret run /\
     dig_outbox run = [("u1", mail)] /\
     mail_to mail = "u1@example.com").
Proof.
  split.
  - destruct (imm_outbox (processTenderAlertsOn 7 smtpUp laptopTender
                            [customAddressConfig immediate]))
      as [|[ref mail] rest] eqn:Hout; [by vm_compute in Hout|].
    destruct (recipients_of_a_run dailyDigest 7 smtpUp laptopTender [laptopTender]
                [customAddressConfig immediate] ref mail) as [Himmediate _].
    rewrite Hout in Himmediate.
    destruct (Himmediate (or_introl eq_refl))
      as (alert & owner & [<- | []] & Href & Howner & Hto & _).
    injection Howner as <-. simpl in Href. subst ref.
    exists mail. split; [|exact Hto].
    vm_compute in Hout. by injection Hout as <- <-.
  - destruct (processSummaries dailyDigest 7 smtpUp [customAddressConfig daily]
                [laptopTender]) as [run|] eqn:Hrun; [|by vm_compute in Hrun].
    destruct (dig_outbox run) as [|[ref mail] rest] eqn:Hout.
    { vm_compute in Hrun. injection Hrun as <-. by vm_compute in Hout. }
    destruct (recipients_of_a_run dailyDigest 7 smtpUp laptopTender [laptopTender]
                [customAddressConfig daily] ref mail) as [_ Hdigest].
    destruct (Hdigest run Hrun) as (alert & owner & [<- | []] & Howner & Href & Hto);
      [rewrite Hout; by left|].
    injection Howner as <-. simpl in Href. subst ref.
    exists run, mail. split; [done|]. split; [|exact Hto].
    vm_compute in Hrun. injection Hrun as <-. vm_compute in Hout.
    by injection Hout as <- <-.
Defined.

(** ** Records the immediate templates cannot print *)

Lemma alertCardHTML_unprintable (tender : Tender) :
  Unprintable tender -> exists message, alertCardHTML tender = Throw message.
Proof.
  unfold alertCardHTML. intros Hun.
  destruct (organization tender) as [o|]; [|by eexists]. cbn [reading bind].
  destruct (description tender) as [d|] eqn:Hd; [|by eexists]. cbn [reading bind].
  destruct (location tender) as [l|]; [|by eexists]. cbn [reading bind].
  destruct (dates tender) as [ds|]; [|by eexists]. cbn [reading bind].
  destruct Hun as [? | (f & ev & Hf & Hev & Hamount)]; [congruence|].
  unfold estimatedValueFacts. rewrite Hf, Hev, Hamount. by eexists.
Qed.

Lemma sendImmediateAlert_unprintable (transport : Transport) (owner : User)
  (tender : Tender) (alert : AlertConfiguration) :
  Unprintable tender ->
  exists message, sendImmediateAlert transport owner tender alert = Throw message.
Proof.
  intros Hun. apply alertCardHTML_unprintable in Hun as [message Hcard].
  unfold sendImmediateAlert, sendAlertEmail, generateAlertEmailHTML.
  cbn [mapM]. rewrite Hcard. by eexists.
Qed.

Lemma processAlert_unprintable (now : Z) (transport : Transport) (tender : Tender)
  (alert : AlertConfiguration) (st : RunState) :
  Unprintable tender ->
  let step := processAlert now transport tender alert st in
  run_outbox (step_state step) = run_outbox st /\
  run_emailsSent (step_state step) = run_emailsSent st /\
  SameMailStats alert (step_doc step).
Proof.
  intros Hun. unfold processAlert, SameMailStats.
  destruct (user alert) as [owner|]; [|done].
  destruct (lacksEmailAlerts alert); [done|].
  destruct (shouldTriggerForTender now alert tender) as [[|]|]; [|done..].
  destruct (_ && _); [|done].
  destruct (sendImmediateAlert_unprintable transport owner tender
              (updateStats now alert tender) Hun) as [message ->].
  done.
Qed.

Lemma processAlerts_unprintable (now : Z) (transport : Transport) (tender : Tender)
  (alerts : list AlertConfiguration) (st : RunState) :
  Unprintable tender ->
  let '(docs, _, final) := processAlerts now transport tender alerts st in
  run_outbox final = run_outbox st /\
  run_emailsSent final = run_emailsSent st /\
  Forall2 SameMailStats alerts docs.
Proof.
  intros Hun. revert st. induction alerts as [|alert rest IH]; intros st; simpl.
  - by repeat split.
  - destruct (processAlert_unprintable now transport tender alert st Hun)
      as (Hout & Hsent & Hdoc).
    specialize (IH (step_state (processAlert now transport tender alert st))).
    destruct (processAlerts now transport tender rest _) as [[docs evaluated] final].
    destruct IH as (IHout & IHsent & IHdocs).
    split; [by rewrite IHout|]. split; [by rewrite IHsent|]. by constructor.
Qed.

(** X16: a record the immediate templates cannot print. When the description of
    a record is missing, or its estimated value is there without an amount,
    sending the immediate alert throws for every configuration and transport;
    an immediate run on such a record hands no mail to the transport, counts no
    sent mail and leaves [emailsSent] and [lastSentAt] of every configuration of
    the cohort as they were. The rows of the summary read neither property: they
    are printed as soon as the organization, the location and the dates are
    there. *)
Theorem unprintable_record_gets_no_immediate_mail (tender : Tender) :
  Unprintable tender ->
  (forall transport owner alert,
     exists message, sendImmediateAlert transport owner tender alert = Throw message) /\
  (forall now transport cohort,
     let run := processTenderAlertsOn now transport tender cohort in
     imm_outbox run = [] /\
     results_emailsSent (imm_results run) = 0 /\
     Forall2 SameMailStats cohort (imm_docs run)) /\
  (organization tender <> None -> location tender <> None -> dates tender <> None ->
   forall index,
     (exists row, summaryRowHTML tender = Ret row) /\
     (exists item, summaryItemText index tender = Ret item)).
Proof.
  intros Hun. split; [|split].
  - intros transport owner alert. by apply sendImmediateAlert_unprintable.
  - intros now transport cohort. unfold processTenderAlertsOn.
    destruct cohort as [|alert rest]; [by repeat split|].
    cbn [nonEmpty].
    pose proof (processAlerts_unprintable now transport tender (alert :: rest)
                  initialState Hun) as H.
    destruct (processAlerts now transport tender (alert :: rest) initialState)
      as [[docs evaluated] final].
    destruct H as (Hout & Hsent & Hdocs). simpl. by rewrite Hout, Hsent.
  - intros Ho Hl Hds index. unfold summaryRowHTML, summaryItemText.
    destruct (organization tender); [|done].
    destruct (location tender); [|done].
    destruct (dates tender); [|done].
    split; by eexists.
Qed.

Lemma unprintable_record_gets_no_immediate_mail_witness :
  imm_outbox (processTenderAlertsOn 7 smtpUp amountlessTender
                [configOf "a1" (Some (subscriber "u1")) immediate [laptopClause]]) = [] /\
  exists row, summaryRowHTML amountlessTender = Ret row.
Proof.
  assert (Unprintable amountlessTender) as Hun.
  { right. eexists _, _. by repeat split. }
  destruct (unprintable_record_gets_no_immediate_mail amountlessTender Hun)
    as (_ & Hrun & Hrows).
  split.
  - by destruct (Hrun 7 smtpUp
                   [configOf "a1" (Some (subscriber "u1")) immediate [laptopClause]])
      as [Hout _].
  - by destruct (Hrows ltac:(done) ltac:(done) ltac:(done) 0%nat) as [Hrow _].
Defined.

(** ** De-duplication *)

Lemma keepUnseen_sublist (seen : gset string) (tenders : list Tender) :
  sublist (keepUnseen seen tenders) tenders.
Proof.
  revert seen. induction tenders as [|x rest IH]; intros seen; simpl.
  - constructor.
  - destruct (decide (tender_id x ∈ seen)).
    + apply sublist_cons, IH.
    + apply sublist_skip, IH.
Qed.

Lemma keepUnseen_first (seen : gset string) (tenders : list Tender) (t : Tender) :
  In t (keepUnseen seen tenders) <->
  exists before after,
    tenders = before ++ t :: after /\ (tender_id t ∉ seen) /\
    ~ In (tender_id t) (map tender_id before).
Proof.
  revert seen. induction tenders as [|x rest IH]; intros seen; simpl.
  - split; [done|]. intros (before & after & H & _). by destruct before.
  - destruct (decide (tender_id x ∈ seen)) as [Hseen | Hnew].
    + rewrite IH. split.
      * intros (before & after & -> & Hnot & Hfirst).
        exists (x :: before), after. split; [done|]. split; [done|].
        simpl. intros [Heq | Hin]; [|done]. by rewrite <- Heq in Hnot.
      * intros (before & after & Heq & Hnot & Hfirst).
        destruct before as [|y before].
        { injection Heq as -> ->. done. }
        injection Heq as -> ->. exists before, after. split; [done|].
        split; [done|]. intros Hin. apply Hfirst. by right.
    + simpl. rewrite IH. split.
      * intros [<- | (before & after & -> & Hnot & Hfirst)].
        { exists [], rest. split; [done|]. split; [done|]. by intros []. }
        exists (x :: before), after. split; [done|].
        split; [intros Hin; apply Hnot, elem_of_union; by right|].
        simpl. intros [Heq | Hin]; [|done].
        apply Hnot, elem_of_union. left. by apply elem_of_singleton.
      * intros (before & after & Heq & Hnot & Hfirst).
        destruct before as [|y before].
        { injection Heq as -> ->. by left. }
        injection Heq as -> ->. right. exists before, after. split; [done|].
        split.
        -- intros Hin. apply elem_of_union in Hin as [Hin | Hin]; [|done].
           apply elem_of_singleton in Hin. apply Hfirst. left. done.
        -- intros Hin. apply Hfirst. by right.
Qed.

Lemma keepUnseen_id (seen : gset string) (tenders : list Tender) :
  (forall t, In t tenders -> tender_id t ∉ seen) ->
  List.NoDup (map tender_id tenders) ->
  keepUnseen seen tenders = tenders.
Proof.
  revert seen. induction tenders as [|x rest IH]; intros seen Hnew Hnodup; simpl.
  - done.
  - simpl in Hnodup. apply List.NoDup_cons_iff in Hnodup as [Hx Hnodup].
    destruct (decide (tender_id x ∈ seen)) as [Hseen | _].
    + destruct (Hnew x); [by left | done].
    + f_equal. apply IH; [|done]. intros t Hin Hmem.
      apply elem_of_union in Hmem as [Hmem | Hmem].
      * apply elem_of_singleton in Hmem. apply Hx. rewrite <- Hmem. by apply in_map.
      * apply (Hnew t); [by right | done].
Qed.

(** X17: [removeDuplicateTenders] keeps the first record of every id, in the
    order of the list: its result is a sublist of the list, a record is kept
    exactly when it stands at a place before which its id does not occur, a
    list without a repeated id is returned as it is, and de-duplicating twice is
    de-duplicating once. *)
Theorem deduplication_keeps_first_occurrences (tenders : list Tender) :
  sublist (removeDuplicateTenders tenders) tenders /\
  (forall t,
     In t (removeDuplicateTenders tenders) <->
     exists before after,
       tenders = before ++ t :: after /\ ~ In (tender_id t) (map tender_id before)) /\
  (List.NoDup (map tender_id tenders) -> removeDuplicateTenders tenders = tenders) /\
  removeDuplicateTenders (removeDuplicateTenders tenders)
  = removeDuplicateTenders tenders.
Proof.
  unfold removeDuplicateTenders. split; [apply keepUnseen_sublist|].
  split; [|split].
  - intros t. rewrite keepUnseen_first. split.
    + intros (before & after & ? & _ & ?). by exists before, after.
    + intros (before & after & ? & ?). exists before, after.
      split; [done|]. split; [set_solver | done].
  - intros Hnodup. apply keepUnseen_id; [set_solver | done].
  - apply keepUnseen_id; [set_solver | apply keepUnseen_NoDup].
Qed.

Lemma deduplication_keeps_first_occurrences_witness :
  removeDuplicateTenders [laptopTender; newlineTender] = [laptopTender; newlineTender].
Proof.
  destruct (deduplication_keeps_first_occurrences [laptopTender; newlineTender])
    as (_ & _ & Hid & _).
  apply Hid. simpl. apply List.NoDup_cons; [|apply List.NoDup_cons; [|constructor]].
  - simpl. intros [H | []]. discriminate H.
  - by intros [].
Defined.

(** ** The processing queue *)

Lemma QueueSerialized_new : QueueSerialized newService.
Proof. by right. Qed.

Lemma step_nothing_stranded (s : Service) (e : Event) :
  e <> ItemFailed -> QueueSerialized s -> NothingStranded s ->
  NothingStranded (step s e).
Proof.
  unfold NothingStranded. intros He Hs Hinv.
  destruct e as [jobName | jobName | tender | | |]; simpl; try done.
  - unfold queueTenderForProcessing, processQueue. simpl.
    destruct (isProcessing s) eqn:Hflag; simpl; [done|].
    by destruct (processingQueue s).
  - unfold processQueue.
    destruct (isProcessing s) eqn:Hflag; simpl; [by rewrite Hflag|].
    destruct (processingQueue s) eqn:Hqueue; simpl; [|done].
    by rewrite Hqueue.
  - unfold itemDone. destruct (draining s) as [|others] eqn:Hn; [done|].
    destruct (processingQueue s) as [|next rest]; simpl; [done|].
    intros _. destruct Hs as [[Hflag _] | [_ Hzero]]; [done | congruence].
Qed.

Lemma events_nothing_stranded (events : list Event) (s : Service) :
  ~ In ItemFailed events -> QueueSerialized s -> NothingStranded s ->
  NothingStranded (fold_left step events s).
Proof.
  revert s. induction events as [|e rest IH]; intros s Hnot Hs Hinv; simpl; [done|].
  apply IH.
  - intros Hin. apply Hnot. by right.
  - by apply step_serialized.
  - apply step_nothing_stranded; [|done..]. intros ->. apply Hnot. by left.
Qed.

(** X18: what becomes of queued records. As long as no call of
    [processTenderAlerts] rejects, a record never waits in the queue without an
    activation of [processQueue] being in its loop. When a call rejects, the
    loop is left with the flag cleared and the records still queued stay where
    they are; the next record that is queued starts the loop again, with the
    oldest waiting record. *)
Theorem queue_is_drained_unless_an_item_fails (events : list Event) :
  (~ In ItemFailed events -> NothingStranded (afterEvents events)) /\
  (let s := itemFailed (afterEvents events) in
   isProcessing s = false /\
   processingQueue s = processingQueue (afterEvents events) /\
   forall tender,
     let s' := queueTenderForProcessing tender s in
     isProcessing s' = true /\
     processingQueue s' = tail (processingQueue s ++ [tender])).
Proof.
  split.
  - intros Hnot. apply events_nothing_stranded; [done | apply QueueSerialized_new|].
    by intros [].
  - pose proof (events_serialized events newService QueueSerialized_new) as Hs.
    fold (afterEvents events) in Hs.
    assert (isProcessing (itemFailed (afterEvents events)) = false /\
            processingQueue (itemFailed (afterEvents events))
            = processingQueue (afterEvents events)) as [Hflag Hqueue].
    { unfold itemFailed. destruct (draining (afterEvents events)) eqn:Hn; [|done].
      split; [|done]. destruct Hs as [[_ Hone] | [Hflag _]]; [congruence | done]. }
    split; [done|]. split; [done|]. intros tender.
    unfold queueTenderForProcessing, processQueue. cbn [isProcessing processingQueue].
    rewrite Hflag. simpl.
    by destruct (processingQueue (itemFailed (afterEvents events))).
Qed.

Lemma queue_is_drained_unless_an_item_fails_witness :
  NothingStranded
    (afterEvents [QueueTender laptopTender; QueueTender newlineTender; ItemDone]) /\
  ~ NothingStranded
      (afterEvents [QueueTender laptopTender; QueueTender newlineTender; ItemFailed]).
Proof.
  split.
  - destruct (queue_is_drained_unless_an_item_fails
                [QueueTender laptopTender; QueueTender newlineTender; ItemDone])
      as [Hdrained _].
    apply Hdrained. simpl. intros [H | [H | [H | []]]]; discriminate H.
  - intros Hstranded. by specialize (Hstranded ltac:(done)).
Defined.

(** ** Cleanup *)

Lemma cleanup_active_filter (p : AlertConfiguration -> bool) (ninetyDaysAgo : Z)
  (collection : list SchedulerService.StoredAlert) :
  (forall a, p a = true -> isActive a = true) ->
  List.filter p
    (map SchedulerService.document
       (List.filter (fun stored => negb (SchedulerService.expired ninetyDaysAgo stored))
          collection))
  = List.filter p (map SchedulerService.document collection).
Proof.
  intros Hactive. induction collection as [|stored rest IH]; simpl; [done|].
  unfold SchedulerService.expired at 1.
  destruct (isActive (SchedulerService.document stored)) eqn:Hflag; simpl.
  - by rewrite IH.
  - destruct (SchedulerService.updatedAt stored <? ninetyDaysAgo); simpl.
    + rewrite IH. destruct (p (SchedulerService.document stored)) eqn:Hp; [|done].
      apply Hactive in Hp. congruence.
    + by rewrite IH.
Qed.

Lemma activeWithFrequency_active (f : Frequency) (a : AlertConfiguration) :
  activeWithFrequency f a = true -> isActive a = true.
Proof.
  unfold activeWithFrequency. intros H.
  apply andb_true_iff in H as [H _]. by apply andb_true_iff in H as [H _].
Qed.

Lemma filter_partition_length {A} (p : A -> bool) (l : list A) :
  (List.length (List.filter (fun x => negb (p x)) l)
   + List.length (List.filter p l))%nat = List.length l.
Proof.
  induction l as [|x rest IH]; simpl; [done|].
  destruct (p x); simpl; lia.
Qed.

(** X19: the nightly cleanup. [cleanupOldData] deletes exactly the stored
    configurations that are inactive and were last updated before the cut-off,
    the instant that has, in the local time of the process, the time of day of
    the run ninety calendar days earlier, and reports their number; every
    active configuration stays. The cut-off is within [shift] of ninety days of
    24 hours before the run when the offsets of local time at both ends differ
    by at most [shift]. The cohorts of the immediate, daily and weekly runs are
    the same before and after the cleanup, at whatever time they are read, and
    a second cleanup at the same time deletes nothing. *)
Theorem cleanup_deletes_only_old_inactive_configurations (tz : TimeZone) (now : Z)
  (collection : list SchedulerService.StoredAlert) :
  let kept := fst (SchedulerService.cleanupOldData tz now collection) in
  let deletedCount := snd (SchedulerService.cleanupOldData tz now collection) in
  (forall stored,
     In stored kept <->
     In stored collection /\
     (isActive (SchedulerService.document stored) = true \/
      daysAgo tz 90 now <= SchedulerService.updatedAt stored)) /\
  (forall shift,
     Z.abs (utcOffset tz now - localOffset tz (LocalTime tz now - 90 * msPerDay))
     <= shift ->
     now - 90 * msPerDay - shift <= daysAgo tz 90 now <= now - 90 * msPerDay + shift) /\
  (List.length kept + deletedCount)%nat = List.length collection /\
  findImmediateAlerts (map SchedulerService.document kept)
  = findImmediateAlerts (map SchedulerService.document collection) /\
  (forall time,
     findDailyAlerts time (map SchedulerService.document kept)
     = findDailyAlerts time (map SchedulerService.document collection)) /\
  (forall zone later,
     findWeeklyAlerts zone later (map SchedulerService.document kept)
     = findWeeklyAlerts zone later (map SchedulerService.document collection)) /\
  SchedulerService.cleanupOldData tz now kept = (kept, 0%nat).
Proof.
  intros kept deletedCount. subst kept deletedCount.
  unfold SchedulerService.cleanupOldData. cbn [fst snd].
  split; [|split; [|split; [|split; [|split; [|split]]]]].
  - intros stored. rewrite filter_In. unfold SchedulerService.expired.
    destruct (isActive (SchedulerService.document stored)); simpl.
    + split; [intros [? _] | intros [? _]]; auto.
    + destruct (Z.ltb_spec (SchedulerService.updatedAt stored) (daysAgo tz 90 now)).
      * split; [by intros [_ ?]|]. intros [_ [? | ?]]; [done | lia].
      * split; [intros [? _] | intros [? _]]; auto.
  - intros shift. apply daysAgo_within.
  - apply filter_partition_length.
  - apply cleanup_active_filter. apply activeWithFrequency_active.
  - intros time. apply cleanup_active_filter. intros a H.
    apply andb_true_iff in H as [H _]. by apply activeWithFrequency_active in H.
  - intros zone later. apply cleanup_active_filter. intros a H.
    apply andb_true_iff in H as [H _]. by apply activeWithFrequency_active in H.
  - f_equal.
    + apply filter_all. intros stored Hin. by apply filter_In in Hin as [_ ?].
    + rewrite filter_none; [done|]. intros stored Hin.
      apply filter_In in Hin as [_ Hin]. by apply negb_true_iff in Hin.
Qed.

(** ** The alert controller *)

(** X20: who may create a configuration. [createAlert] answers 201 exactly
    when the stored user has the email alerts feature, is on the professional
    plan, owns fewer than ten configurations and the new document is valid. A
    user on the enterprise plan is answered 403 whatever the number of
    configurations, because the limit of that plan is -1 and the count is compared
    with [>=]. Any answer other than 201 leaves the collection as it was. *)
Theorem create_alert_gate {Body : Type} (save : Body -> string -> AlertController.Saved)
  (account : option AlertController.Account) (userId : string) (body : Body)
  (db : list AlertConfiguration) :
  let response := fst (AlertController.createAlert save account userId body db) in
  let db' := snd (AlertController.createAlert save account userId body db) in
  (forall alert,
     response = AlertController.Created alert <->
     exists user,
       account = Some user /\
       AlertController.features_emailAlerts user = true /\
       AlertController.plan user = "professional" /\
       AlertController.countDocuments userId db < 10 /\
       save body userId = AlertController.Document alert) /\
  (forall user,
     account = Some user -> AlertController.plan user = "enterprise" ->
     AlertController.statusCode response = 403) /\
  (AlertController.statusCode response <> 201 -> db' = db) /\
  (forall alert, response = AlertController.Created alert -> db' = db ++ [alert]).
Proof.
  intros response db'. subst response db'. unfold AlertController.createAlert.
  assert (0 <= AlertController.countDocuments userId db) as Hcount
    by (unfold AlertController.countDocuments; lia).
  destruct account as [user|]; cycle 1.
  { split; [|split; [|split]]; try done.
    intros alert. split; [done|]. by intros (user & ? & _). }
  destruct (AlertController.features_emailAlerts user) eqn:Hfeature; simpl; cycle 1.
  { split; [|split; [|split]]; try done.
    intros alert. split; [done|]. intros (u & [= <-] & ? & _). congruence. }
  unfold AlertController.getMaxAlertsForPlan.
  destruct (String.eqb_spec (AlertController.plan user) "professional") as [Hplan | Hplan].
  - destruct (Z.geb_spec (AlertController.countDocuments userId db) 10) as [Hfull | Hroom].
    + split; [|split; [|split]]; try done.
      intros alert. split; [done|]. intros (u & [= <-] & _ & _ & ? & _). lia.
    + destruct (save body userId) as [alert | fields |] eqn:Hsave; simpl.
      * split; [|split; [|split]].
        -- intros a. split.
           ++ intros [= <-]. by exists user.
           ++ intros (u & [= <-] & _ & _ & _ & [= <-]). done.
        -- intros u [= <-] Henterprise. rewrite Hplan in Henterprise.
           discriminate Henterprise.
        -- intros Hstatus. by destruct Hstatus.
        -- by intros a [= <-].
      * split; [|split; [|split]]; try done.
        -- intros a. split; [done|]. by intros (u & _ & _ & _ & _ & ?).
        -- intros u [= <-] Henterprise. rewrite Hplan in Henterprise.
           discriminate Henterprise.
      * split; [|split; [|split]]; try done.
        -- intros a. split; [done|]. by intros (u & _ & _ & _ & _ & ?).
        -- intros u [= <-] Henterprise. rewrite Hplan in Henterprise.
           discriminate Henterprise.
  - assert ((AlertController.countDocuments userId db >=?
             (if String.eqb (AlertController.plan user) "enterprise" then -1 else 0))
            = true) as ->.
    { destruct (String.eqb _ _); lia. }
    simpl. split; [|split; [|split]]; try done.
    intros alert. split; [done|]. intros (u & [= <-] & _ & ? & _). done.
Qed.

Lemma findOne_Some (id userId : string) (db : list AlertConfiguration)
  (alert : AlertConfiguration) :
  AlertController.findOne id userId db = Some alert ->
  In alert db /\ alert_id alert = id /\ ownedBy userId alert = true.
Proof.
  unfold AlertController.findOne. intros H. apply find_some in H as [Hin H].
  apply andb_true_iff in H as [Hid Howned]. by apply String.eqb_eq in Hid.
Qed.

Lemma unique_id (db : list AlertConfiguration) (a b : AlertConfiguration) :
  List.NoDup (map alert_id db) -> In a db -> In b db -> alert_id a = alert_id b ->
  a = b.
Proof.
  induction db as [|x rest IH]; simpl; [done|].
  intros Hnodup. apply List.NoDup_cons_iff in Hnodup as [Hx Hnodup].
  intros [<- | Ha] [<- | Hb] Heq; try done.
  - destruct Hx. rewrite Heq. by apply in_map.
  - destruct Hx. rewrite <- Heq. by apply in_map.
  - by apply IH.
Qed.

Lemma saveDocument_ids (alert : AlertConfiguration) (db : list AlertConfiguration) :
  map alert_id (AlertController.saveDocument alert db) = map alert_id db.
Proof.
  unfold AlertController.saveDocument. rewrite map_map. apply map_ext. intros a.
  by destruct (String.eqb_spec (alert_id a) (alert_id alert)).
Qed.

Lemma saveDocument_In (alert d : AlertConfiguration) (db : list AlertConfiguration) :
  In d (AlertController.saveDocument alert db) <->
  (In d db /\ alert_id d <> alert_id alert) \/
  (d = alert /\ In (alert_id alert) (map alert_id db)).
Proof.
  unfold AlertController.saveDocument. rewrite in_map_iff. split.
  - intros (a & Heq & Hin).
    destruct (String.eqb_spec (alert_id a) (alert_id alert)) as [Hid | Hid].
    + right. split; [done|]. rewrite <- Hid. by apply in_map.
    + left. by subst d.
  - intros [[Hin Hid] | [-> Hin]].
    + exists d. split; [|done].
      by destruct (String.eqb_spec (alert_id d) (alert_id alert)).
    + apply in_map_iff in Hin as (a & Hid & Hin). exists a. split; [|done].
      by rewrite Hid, String.eqb_refl.
Qed.

Lemma saveDocument_same (alert : AlertConfiguration) (db : list AlertConfiguration) :
  List.NoDup (map alert_id db) -> In alert db ->
  AlertController.saveDocument alert db = db.
Proof.
  intros Hnodup Hin. unfold AlertController.saveDocument.
  rewrite <- (map_id db) at 2. apply map_ext_in. intros a Ha.
  destruct (String.eqb_spec (alert_id a) (alert_id alert)) as [Hid | Hid]; [|done].
  symmetry. by apply (unique_id db).
Qed.

Lemma saveDocument_twice (first second : AlertConfiguration)
  (db : list AlertConfiguration) :
  alert_id first = alert_id second ->
  AlertController.saveDocument second (AlertController.saveDocument first db)
  = AlertController.saveDocument second db.
Proof.
  intros Hid. unfold AlertController.saveDocument. rewrite map_map.
  apply map_ext. intros a. rewrite Hid.
  destruct (String.eqb_spec (alert_id a) (alert_id second)) as [Ha | Ha].
  - by rewrite Hid, String.eqb_refl.
  - by destruct (String.eqb_spec (alert_id a) (alert_id second)).
Qed.

Lemma findOne_saveDocument (id userId : string) (db : list AlertConfiguration)
  (alert alert' : AlertConfiguration) :
  List.NoDup (map alert_id db) ->
  AlertController.findOne id userId db = Some alert ->
  alert_id alert' = alert_id alert -> user alert' = user alert ->
  AlertController.findOne id userId (AlertController.saveDocument alert' db)
  = Some alert'.
Proof.
  intros Hnodup Hfind Hid Huser.
  destruct (findOne_Some _ _ _ _ Hfind) as (Hin & Halert & Howned).
  assert (forall a, In a db -> alert_id a = id -> a = alert) as Hunique.
  { intros a Ha Hida. apply (unique_id db); try done. congruence. }
  clear Hnodup Hin. revert Hfind Hunique. unfold AlertController.findOne.
  induction db as [|a rest IH]; simpl; [done|]. intros Hfind Hunique.
  destruct (String.eqb_spec (alert_id a) id) as [Ha | Ha]; simpl in *.
  - assert (a = alert) as -> by (apply Hunique; auto).
    rewrite Howned in Hfind. rewrite Hid, String.eqb_refl.
    rewrite Hid, Halert, String.eqb_refl. simpl.
    assert (ownedBy userId alert' = true) as ->; [|done].
    unfold ownedBy in *. by rewrite Huser.
  - destruct (String.eqb_spec (alert_id a) (alert_id alert')) as [Heq | Hne].
    { destruct Ha. congruence. }
    destruct (String.eqb_spec (alert_id a) id); [done|]. simpl.
    apply IH; [done|]. intros b Hb. apply Hunique. by right.
Qed.

Lemma deleteFirst_In (id userId : string) (db : list AlertConfiguration)
  (a : AlertConfiguration) :
  In a db -> alert_id a <> id \/ ownedBy userId a = false ->
  In a (AlertController.deleteFirst id userId db).
Proof.
  induction db as [|x rest IH]; simpl; [done|].
  intros [<- | Hin] Hother.
  - destruct (String.eqb_spec (alert_id x) id) as [Hid | Hid]; simpl; [|by left].
    destruct Hother as [? | ->]; [done | by left].
  - destruct (_ && _); [done|]. right. by apply IH.
Qed.

Lemma deleteFirst_length (id userId : string) (db : list AlertConfiguration) :
  is_Some (AlertController.findOne id userId db) ->
  S (List.length (AlertController.deleteFirst id userId db)) = List.length db.
Proof.
  unfold AlertController.findOne.
  induction db as [|x rest IH]; simpl; [by intros [? ?]|].
  destruct (_ && _); [done|]. intros H. simpl. by rewrite IH.
Qed.

Lemma deleteFirst_sublist (id userId : string) (db : list AlertConfiguration) :
  sublist (AlertController.deleteFirst id userId db) db.
Proof.
  induction db as [|x rest IH]; simpl; [constructor|].
  destruct (_ && _); [by apply sublist_cons | by apply sublist_skip].
Qed.

(** X21: the handlers that change or delete a configuration reach only the
    configuration with the given id of the authenticated user. When the user has
    no configuration with that id, [toggleAlert] and [deleteAlert] answer 404 and
    leave the collection as it was. Otherwise every configuration with another id
    is still stored unchanged, [toggleAlert] keeps the ids of the collection and
    stores the found configuration with [isActive] negated, toggling a second
    time gives back the collection, and [deleteAlert] removes one document, after
    which the id is no longer found. *)
Theorem handlers_reach_only_the_own_configuration (id userId : string)
  (db : list AlertConfiguration) :
  List.NoDup (map alert_id db) ->
  let toggled := AlertController.toggleAlert id userId db in
  let deleted := AlertController.deleteAlert id userId db in
  (AlertController.findOne id userId db = None ->
   toggled = (AlertController.NotFound, db) /\
   deleted = (AlertController.NotFound, db)) /\
  (forall a, In a db -> alert_id a <> id -> In a (snd toggled) /\ In a (snd deleted)) /\
  (forall alert,
     AlertController.findOne id userId db = Some alert ->
     let alert' := AlertController.withActive alert (negb (isActive alert)) in
     fst toggled = AlertController.Ok alert' /\
     map alert_id (snd toggled) = map alert_id db /\
     (forall d, In d (snd toggled) <-> (In d db /\ alert_id d <> id) \/ d = alert') /\
     AlertController.toggleAlert id userId (snd toggled) = (AlertController.Ok alert, db) /\
     fst deleted = AlertController.Deleted /\
     S (List.length (snd deleted)) = List.length db /\
     (forall d, In d (snd deleted) <-> In d db /\ alert_id d <> id) /\
     AlertController.findOne id userId (snd deleted) = None).
Proof.
  intros Hnodup toggled deleted. subst toggled deleted.
  unfold AlertController.toggleAlert, AlertController.deleteAlert.
  destruct (AlertController.findOne id userId db) as [alert|] eqn:Hfind; cycle 1.
  { split; [done|]. split; [done|]. done. }
  destruct (findOne_Some _ _ _ _ Hfind) as (Hin & Hid & Howned).
  split; [done|]. split.
  { intros a Ha Hne. simpl. split.
    - apply saveDocument_In. left. split; [done|]. simpl. congruence.
    - apply deleteFirst_In; auto. }
  intros found [= <-]. cbn [fst snd].
  set (alert' := AlertController.withActive alert (negb (isActive alert))).
  assert (alert_id alert' = id) as Hid' by done.
  split; [done|]. split; [apply saveDocument_ids|]. split.
  { intros d. rewrite saveDocument_In, Hid'. split.
    - intros [? | [? _]]; auto.
    - intros [? | ->]; [by left|]. right. split; [done|].
      rewrite <- Hid. by apply in_map. }
  split.
  { rewrite (findOne_saveDocument id userId db alert alert' Hnodup Hfind)
      by reflexivity.
    assert (AlertController.withActive alert' (negb (isActive alert')) = alert)
      as ->.
    { unfold alert'. destruct alert. simpl. by rewrite negb_involutive. }
    f_equal. rewrite saveDocument_twice by done. by apply saveDocument_same. }
  split; [done|]. split; [apply deleteFirst_length; by eexists|].
  assert (forall x, In x db -> alert_id x = id -> ownedBy userId x = true) as Hown.
  { intros x Hx Hxid. rewrite (unique_id db x alert); try done. congruence. }
  assert (forall d, In d (AlertController.deleteFirst id userId db) <->
                    In d db /\ alert_id d <> id) as Hdeleted.
  { clear Hfind Hin. intros d. revert Hnodup Hown.
    induction db as [|x rest IH]; simpl; [intros _ _; tauto|].
    intros Hnodup Hown. apply List.NoDup_cons_iff in Hnodup as [Hx Hnodup].
    destruct (String.eqb_spec (alert_id x) id) as [Hxid | Hxid]; simpl.
    - rewrite (Hown x) by auto. split.
      + intros Hd. split; [by right|]. intros Hdid. apply Hx.
        rewrite Hxid, <- Hdid. by apply in_map.
      + intros [[<- | Hd] Hne]; [done | done].
    - split.
      + intros [<- | Hd]; [split; [by left | done]|].
        apply IH in Hd as [? ?]; [|done|by auto]. split; [by right | done].
      + intros [[<- | Hd] Hne]; [by left | right]. apply IH; auto. }
  split; [exact Hdeleted|].
  destruct (AlertController.findOne id userId (AlertController.deleteFirst id userId db))
    as [other|] eqn:Hother; [|done].
  apply findOne_Some in Hother as (Hin' & Hid'' & _).
  apply Hdeleted in Hin' as [_ Hne]. done.
Qed.

Lemma handlers_reach_only_the_own_configuration_witness :
  AlertController.toggleAlert "laptops" "u2" [laptopsDaily; furnitureDaily]
  = (AlertController.NotFound, [laptopsDaily; furnitureDaily]) /\
  In furnitureDaily
    (snd (AlertController.deleteAlert "laptops" "u1" [laptopsDaily; furnitureDaily])).
Proof.
  assert (List.NoDup (map alert_id [laptopsDaily; furnitureDaily])) as Hnodup.
  { apply List.NoDup_cons; [|apply List.NoDup_cons; [|constructor]].
    - simpl. intros [H | []]. discriminate H.
    - by intros []. }
  split.
  - destruct (handlers_reach_only_the_own_configuration "laptops" "u2"
                [laptopsDaily; furnitureDaily] Hnodup) as ([Hnone _] & _); done.
  - destruct (handlers_reach_only_the_own_configuration "laptops" "u1"
                [laptopsDaily; furnitureDaily] Hnodup) as (_ & Hothers & _).
    apply Hothers; [by right; left | done].
Defined.

Lemma cohort_after_toggle (p : AlertConfiguration -> bool) (id userId : string)
  (db : list AlertConfiguration) (alert d : AlertConfiguration) :
  (forall a, p a = true -> isActive a = true) ->
  AlertController.findOne id userId db = Some alert -> isActive alert = true ->
  In d (List.filter p (snd (AlertController.toggleAlert id userId db))) <->
  In d (List.filter p db) /\ alert_id d <> id.
Proof.
  intros Hactive Hfind Halert. unfold AlertController.toggleAlert. rewrite Hfind.
  destruct (findOne_Some _ _ _ _ Hfind) as (Hin & Hid & _).
  cbn [snd]. rewrite !filter_In, saveDocument_In. simpl. rewrite Hid, Halert.
  split.
  - intros [[[? ?] | [-> _]] Hp]; [done|].
    apply Hactive in Hp. discriminate Hp.
  - intros [[? ?] ?]. split; [by left | done].
Qed.

(** X22: switching a configuration off takes it out of every run. After
    [toggleAlert] on an active configuration of the user, no document with that
    id is in the cohort of the immediate run, of a daily run at any time of day
    or of a weekly run at any time, the cohorts hold the same other
    configurations as before, and the evaluator returns [false] for the stored
    document on every record. *)
Theorem deactivated_configuration_is_out_of_every_run (id userId : string)
  (db : list AlertConfiguration) (alert : AlertConfiguration) :
  AlertController.findOne id userId db = Some alert ->
  isActive alert = true ->
  let db' := snd (AlertController.toggleAlert id userId db) in
  (forall d,
     (In d (findImmediateAlerts db') <->
      In d (findImmediateAlerts db) /\ alert_id d <> id) /\
     (forall time,
        In d (findDailyAlerts time db') <->
        In d (findDailyAlerts time db) /\ alert_id d <> id) /\
     (forall tz now,
        In d (findWeeklyAlerts tz now db') <->
        In d (findWeeklyAlerts tz now db) /\ alert_id d <> id)) /\
  (forall d now tender,
     In d db' -> alert_id d = id -> shouldTriggerForTender now d tender = Ret false).
Proof.
  intros Hfind Halert db'. subst db'. split.
  - intros d. split; [|split].
    + apply (cohort_after_toggle _ id userId db alert); [|done..].
      apply activeWithFrequency_active.
    + intros time. apply (cohort_after_toggle _ id userId db alert); [|done..].
      intros a H. apply andb_true_iff in H as [H _].
      by apply activeWithFrequency_active in H.
    + intros tz now. apply (cohort_after_toggle _ id userId db alert); [|done..].
      intros a H. apply andb_true_iff in H as [H _].
      by apply activeWithFrequency_active in H.
  - intros d now tender Hin Hd. apply inactive_never_triggers.
    unfold AlertController.toggleAlert in Hin. rewrite Hfind in Hin.
    destruct (findOne_Some _ _ _ _ Hfind) as (_ & Hid & _).
    cbn [snd] in Hin. apply saveDocument_In in Hin as [[_ Hne] | [-> _]].
    + simpl in Hne. congruence.
    + simpl. by rewrite Halert.
Qed.

Lemma deactivated_configuration_is_out_of_every_run_witness :
  ~ In (AlertController.withActive laptopsDaily false)
      (findDailyAlerts "09:00"
         (snd (AlertController.toggleAlert "laptops" "u1"
                 [laptopsDaily; furnitureDaily]))) /\
  In furnitureDaily
    (findDailyAlerts "09:00"
       (snd (AlertController.toggleAlert "laptops" "u1"
               [laptopsDaily; furnitureDaily]))).
Proof.
  destruct (deactivated_configuration_is_out_of_every_run "laptops" "u1"
              [laptopsDaily; furnitureDaily] laptopsDaily eq_refl eq_refl)
    as [Hcohorts _].
  split.
  - intros Hin. destruct (Hcohorts (AlertController.withActive laptopsDaily false))
      as (_ & Hdaily & _).
    apply Hdaily in Hin as [_ Hne]. by apply Hne.
  - destruct (Hcohorts furnitureDaily) as (_ & Hdaily & _).
    apply Hdaily. split; [by right; left | done].
Defined.

(** ** Statistics of a user *)

Lemma insertRecent_Permutation (entry : AlertController.RecentMatch)
  (sorted : list AlertController.RecentMatch) :
  Permutation (AlertController.insertRecent entry sorted) (entry :: sorted).
Proof.
  induction sorted as [|next rest IH]; simpl; [done|].
  destruct (_ <=? _); [done|].
  rewrite IH. apply perm_swap.
Qed.

Lemma sortRecent_Permutation (entries : list AlertController.RecentMatch) :
  Permutation (AlertController.sortRecent entries) entries.
Proof.
  induction entries as [|entry rest IH]; simpl; [done|].
  rewrite insertRecent_Permutation. by constructor.
Qed.

Lemma insertRecent_sorted (entry : AlertController.RecentMatch)
  (sorted : list AlertController.RecentMatch) :
  StronglySorted NotMoreRecent sorted ->
  StronglySorted NotMoreRecent (AlertController.insertRecent entry sorted).
Proof.
  induction sorted as [|next rest IH]; simpl; intros Hsorted.
  - by repeat constructor.
  - apply StronglySorted_inv in Hsorted as [Hrest Hnext].
    destruct (Z.leb_spec (AlertController.recent_lastMatchedAt next)
                (AlertController.recent_lastMatchedAt entry)) as [Hle | Hlt].
    + constructor; [by constructor|]. constructor; [done|].
      eapply List.Forall_impl; [|exact Hnext]. unfold NotMoreRecent. intros; lia.
    + constructor; [by apply IH|].
      eapply Permutation_Forall; [symmetry; apply insertRecent_Permutation|].
      constructor; [unfold NotMoreRecent; lia | done].
Qed.

Lemma sortRecent_sorted (entries : list AlertController.RecentMatch) :
  StronglySorted NotMoreRecent (AlertController.sortRecent entries).
Proof.
  induction entries as [|entry rest IH]; simpl; [constructor|].
  by apply insertRecent_sorted.
Qed.

Lemma StronglySorted_split {A} (R : A -> A -> Prop) (front back : list A) :
  StronglySorted R (front ++ back) ->
  StronglySorted R front /\ forall a b, In a front -> In b back -> R a b.
Proof.
  induction front as [|x rest IH]; simpl; intros Hsorted.
  - split; [constructor | done].
  - apply StronglySorted_inv in Hsorted as [Hrest Hx].
    destruct (IH Hrest) as [Hfront Hcross].
    apply List.Forall_app in Hx as [Hxfront Hxback].
    split; [by constructor|]. intros a b [<- | Ha] Hb.
    + rewrite List.Forall_forall in Hxback. by apply Hxback.
    + by apply Hcross.
Qed.

Lemma countWhere_frequencies (alerts : list AlertConfiguration) :
  List.length alerts
  = (AlertController.countWhere
       (fun a => frequencyIs (frequency (emailSettings a)) immediate) alerts
     + AlertController.countWhere
         (fun a => frequencyIs (frequency (emailSettings a)) daily) alerts
     + AlertController.countWhere
         (fun a => frequencyIs (frequency (emailSettings a)) weekly) alerts)%nat.
Proof.
  unfold AlertController.countWhere.
  induction alerts as [|a rest IH]; simpl; [done|].
  destruct (frequency (emailSettings a)); simpl; lia.
Qed.

(** X23: the statistics of a user add up. In the object of [getAlertStats] the
    total is the number of active plus the number of inactive configurations and
    also the sum of the three counts by frequency. [recentMatches] has at most
    five entries, most recent first, and they are the most recent ones: the
    matched configurations of the user are these entries together with others
    none of which was matched later than any entry listed. *)
Theorem alert_statistics_add_up (userId : string) (db : list AlertConfiguration) :
  let s := AlertController.getAlertStats userId db in
  AlertController.totalAlerts s
  = (AlertController.activeAlerts s + AlertController.inactiveAlerts s)%nat /\
  AlertController.totalAlerts s
  = (AlertController.immediateAlerts s + AlertController.dailyAlerts s
     + AlertController.weeklyAlerts s)%nat /\
  (List.length (AlertController.recentMatches s) <= 5)%nat /\
  StronglySorted NotMoreRecent (AlertController.recentMatches s) /\
  exists older,
    Permutation (AlertController.recentMatches s ++ older)
      (AlertController.matchedAlerts (List.filter (ownedBy userId) db)) /\
    forall listed other,
      In listed (AlertController.recentMatches s) -> In other older ->
      NotMoreRecent listed other.
Proof.
  intros s. subst s. unfold AlertController.getAlertStats. cbn.
  set (alerts := List.filter (ownedBy userId) db).
  set (sorted := AlertController.sortRecent (AlertController.matchedAlerts alerts)).
  pose proof (sortRecent_sorted (AlertController.matchedAlerts alerts)) as Hsorted.
  fold sorted in Hsorted. rewrite <- (firstn_skipn 5 sorted) in Hsorted.
  apply StronglySorted_split in Hsorted as [Hfront Hcross].
  split; [|split; [|split; [|split]]].
  - unfold AlertController.countWhere.
    rewrite <- (filter_partition_length isActive alerts). lia.
  - apply countWhere_frequencies.
  - apply List.firstn_le_length.
  - exact Hfront.
  - exists (skipn 5 sorted). split; [|exact Hcross].
    rewrite firstn_skipn. apply sortRecent_Permutation.
Qed.

(** ** Testing a configuration *)

Lemma filterM_Throw {A} (f : A -> Result bool) (arr : list A) :
  (exists message, filterM f arr = Throw message) <->
  exists x message, In x arr /\ f x = Throw message.
Proof.
  induction arr as [|x rest IH]; simpl.
  - split; [by intros [? ?] | by intros (? & ? & [] & _)].
  - destruct (f x) as [b|thrown] eqn:Hx; simpl.
    + destruct (filterM f rest) as [kept|message] eqn:Hrest; simpl.
      * split; [by intros [? ?]|]. intros (y & m & [<- | Hy] & Hthrow); [congruence|].
        destruct IH as [_ IH]. destruct IH as [? ?]; [by exists y, m | done].
      * split; [|by eexists]. intros _.
        destruct IH as [IH _]. destruct IH as (y & m & Hy & Hthrow); [by eexists|].
        exists y, m. split; [by right | done].
    + split; [|by eexists]. intros _. exists x, thrown. split; [by left | done].
Qed.

Lemma filter_length_bound {A} (p : A -> bool) (l : list A) :
  (List.length (List.filter p l) <= List.length l)%nat.
Proof. induction l as [|x rest IH]; simpl; [done|]. destruct (p x); simpl; lia. Qed.

Lemma slice0_prefix {A} (end_ : option Z) (arr : list A) :
  exists more, arr = AlertController.slice0 end_ arr ++ more.
Proof.
  unfold AlertController.slice0. destruct end_ as [e|]; [|by exists arr].
  destruct (e <? 0); eexists; symmetry; apply firstn_skipn.
Qed.

Lemma slice0_length {A} (n : Z) (arr : list A) :
  0 <= n -> Z.of_nat (List.length (AlertController.slice0 (Some n) arr)) <= n.
Proof.
  intros Hn. unfold AlertController.slice0.
  destruct (Z.ltb_spec n 0); [lia|].
  pose proof (List.firstn_le_length (Z.to_nat n) arr). lia.
Qed.

(** X24: what [testAlert] lists. For a configuration of the user, the handler
    fails with 500 exactly when the evaluator throws on one of the records
    tested, wherever that record stands. Otherwise the records listed are the
    first of those on which the evaluator returns [true], in the order of
    the records tested; their number is the reported count, it is at most the
    number tested and at most a limit that is not negative; an inactive
    configuration lists nothing. *)
Theorem test_alert_lists_first_matches (now : Z) (id userId : string)
  (limit : option Z) (db : list AlertConfiguration) (tenders : list Tender)
  (alert : AlertConfiguration) :
  AlertController.findOne id userId db = Some alert ->
  let response := AlertController.testAlert now id userId limit db tenders in
  (response = AlertController.ServerError <->
   exists tender message,
     In tender tenders /\ shouldTriggerForTender now alert tender = Throw message) /\
  (forall listed count total,
     response = AlertController.Tested listed count total ->
     count = List.length listed /\
     total = List.length tenders /\
     (count <= total)%nat /\
     (forall n, limit = Some n -> 0 <= n -> Z.of_nat count <= n) /\
     (exists more, List.filter (triggers now alert) tenders = listed ++ more) /\
     (isActive alert = false -> listed = [])).
Proof.
  intros Hfind response. subst response. unfold AlertController.testAlert.
  rewrite Hfind.
  destruct (filterM (shouldTriggerForTender now alert) tenders) as [matching|message]
    eqn:Hfilter.
  - split.
    + split; [done|]. intros Hthrow.
      apply (filterM_Throw (shouldTriggerForTender now alert)) in Hthrow as [m Hm].
      congruence.
    + intros listed count total [= <- <- <-].
      apply filterM_Ret in Hfilter as [_ ->]. rewrite holds_triggers.
      destruct (slice0_prefix limit (List.filter (triggers now alert) tenders))
        as [more Hmore].
      split; [done|]. split; [done|]. split; [|split; [|split]].
      * pose proof (filter_length_bound (triggers now alert) tenders) as Hbound.
        rewrite Hmore, length_app in Hbound. lia.
      * intros n -> Hn. by apply slice0_length.
      * by exists more.
      * intros Hinactive.
        assert (List.filter (triggers now alert) tenders = []) as Hnone.
        { apply filter_none. intros t _. unfold triggers.
          by rewrite inactive_never_triggers. }
        rewrite Hnone in Hmore |- *.
        symmetry in Hmore. by apply app_eq_nil in Hmore as [? _].
  - split; [|done]. split; [|done]. intros _.
    apply (filterM_Throw (shouldTriggerForTender now alert)). by eexists.
Qed.

Lemma test_alert_lists_first_matches_witness :
  AlertController.testAlert 0 "laptops" "u1" (Some 1) [laptopsDaily; furnitureDaily]
    [newlineTender; laptopTender; laptopTender]
  = AlertController.Tested [laptopTender] 1 3 /\
  List.filter (triggers 0 laptopsDaily) [newlineTender; laptopTender; laptopTender]
  = [laptopTender; laptopTender].
Proof.
  destruct (test_alert_lists_first_matches 0 "laptops" "u1" (Some 1)
              [laptopsDaily; furnitureDaily]
              [newlineTender; laptopTender; laptopTender] laptopsDaily eq_refl)
    as [_ Hlisted].
  destruct (Hlisted [laptopTender] 1%nat 3%nat) as (_ & _ & _ & _ & _ & _);
    [by vm_compute|].
  split; by vm_compute.
Defined.

(** X25: the test mail does not depend on the settings of the configuration.
    For every configuration of the user, active or not, enabled or not, whatever
    its filters and frequency, both bodies of the test mail are rendered, the
    mail is addressed like an immediate alert of the configuration, and the
    handler answers 200 exactly when the transport accepts that mail. *)
Theorem test_email_depends_only_on_the_transport (now : Z) (transport : Transport)
  (id userId : string) (db : list AlertConfiguration) (alert : AlertConfiguration) :
  AlertController.findOne id userId db = Some alert ->
  exists owner mail,
    user alert = Some owner /\
    mail_to mail = immediateRecipient alert owner /\
    mail_subject mail = NewTenderAlert (title (AlertController.mockTender now)) /\
    generateAlertEmailHTML [AlertController.mockTender now] alert = Ret (mail_html mail) /\
    generateAlertEmailText [AlertController.mockTender now] alert = Ret (mail_text mail) /\
    AlertController.sendTestEmail now transport id userId db
    = match transport mail with
      | None => AlertController.TestEmailSent mail
      | Some _ => AlertController.ServerError
      end.
Proof.
  intros Hfind. destruct (findOne_Some _ _ _ _ Hfind) as (_ & _ & Howned).
  unfold ownedBy in Howned. destruct (user alert) as [owner|] eqn:Huser; [|done].
  destruct (generateAlertEmailHTML [AlertController.mockTender now] alert)
    as [html|] eqn:Hhtml; [|by vm_compute in Hhtml].
  destruct (generateAlertEmailText [AlertController.mockTender now] alert)
    as [text|] eqn:Htext; [|by vm_compute in Htext].
  exists owner,
    {| mail_to := immediateRecipient alert owner;
       mail_subject := NewTenderAlert (title (AlertController.mockTender now));
       mail_text := text; mail_html := html |}.
  split; [done|]. split; [done|]. split; [done|]. split; [done|]. split; [done|].
  unfold AlertController.sendTestEmail. rewrite Hfind, Huser. cbn [reading bind].
  unfold sendImmediateAlert, sendAlertEmail. rewrite Hhtml, Htext. cbn [bind].
  assert (match truthyString (effectiveEmail alert) with
          | Some e => e
          | None => email owner
          end = immediateRecipient alert owner) as ->.
  { unfold immediateRecipient, effectiveEmail. rewrite Huser.
    destruct (customEmail (emailSettings alert)) as [[|c rest]|]; simpl; try done;
      by destruct (email owner). }
  unfold sendMail. by destruct (transport _).
Qed.

Lemma test_email_depends_only_on_the_transport_witness :
  exists mail,
    AlertController.sendTestEmail 0 smtpUp "custom" "u1"
      [AlertController.withActive (customAddressConfig weekly) false]
    = AlertController.TestEmailSent mail /\
    mail_to mail = "office@example.org".
Proof.
  destruct (test_email_depends_only_on_the_transport 0 smtpUp "custom" "u1"
              [AlertController.withActive (customAddressConfig weekly) false]
              (AlertController.withActive (customAddressConfig weekly) false) eq_refl)
    as (owner & mail & _ & Hto & _ & _ & _ & Hsent).
  exists mail. split; [exact Hsent | exact Hto].
Defined.

(** ** The record model *)

Lemma ceilDiv_nonneg (a b : Z) : 0 < b -> 0 <= a -> 0 <= ceilDiv a b.
Proof.
  intros Hb Ha. destruct (Z.le_gt_cases 0 (ceilDiv a b)) as [? | Hneg]; [done|].
  assert (ceilDiv a b <= -1) as Hle by lia.
  apply ceilDiv_le in Hle; [|done]. lia.
Qed.

(** X26: a record that is stored as published has not closed. The save hook
    changes nothing but the status, and only from published to closed; a record
    that leaves it as published with a closing date closes at the time of the
    save or later, and its [daysRemaining] is then the number of days the
    evaluator compares with the days-until-closing bounds. Saving the stored
    record again at the same time changes nothing. *)
Theorem stored_published_record_has_not_closed (now : Z) (this stored : Tender) :
  TenderModel.preSave now this = Ret stored ->
  TenderModel.withStatus stored (status this) = this /\
  (status stored <> status this ->
   status this = Some "published" /\ status stored = Some "closed") /\
  (forall d closingDate,
     status stored = Some "published" -> dates stored = Some d ->
     closing d = Some closingDate ->
     now <= closingDate /\
     TenderModel.daysRemaining now stored
     = Ret (Some (ceilDiv (closingDate - now) msPerDay))) /\
  TenderModel.preSave now stored = Ret stored.
Proof.
  unfold TenderModel.preSave, TenderModel.isExpired.
  destruct (dates this) as [d|] eqn:Hdates; [|done]. cbn [reading bind].
  set (expired := match closing d with
                  | Some closingDate => closingDate <? now
                  | None => false
                  end).
  destruct (expired && TenderModel.statusIs this "published") eqn:Hclose.
  - apply andb_true_iff in Hclose as [Hexpired Hpublished].
    intros [= <-]. split; [by destruct this|]. split.
    + intros _. split; [|done]. unfold TenderModel.statusIs in Hpublished.
      destruct (status this) as [s|]; [|done]. by apply String.eqb_eq in Hpublished as ->.
    + split; [done|]. simpl. rewrite Hdates. cbn [reading bind]. fold expired.
      by rewrite Hexpired.
  - intros [= <-]. split; [by destruct this|]. split; [done|]. split.
    + intros d' closingDate Hstatus Hd' Hclosing.
      rewrite Hdates in Hd'. injection Hd' as <-.
      assert (TenderModel.statusIs this "published" = true) as Hpublished
        by (unfold TenderModel.statusIs; by rewrite Hstatus).
      rewrite Hpublished, andb_true_r in Hclose. unfold expired in Hclose.
      rewrite Hclosing in Hclose. apply Z.ltb_ge in Hclose. split; [done|].
      unfold TenderModel.daysRemaining. rewrite Hpublished, Hdates.
      cbn [negb reading bind]. rewrite Hclosing. do 2 f_equal.
      apply Z.max_r, ceilDiv_nonneg; [by vm_compute | lia].
    + rewrite Hdates. cbn [reading bind]. fold expired. by rewrite Hclose.
Qed.

Lemma stored_published_record_has_not_closed_witness :
  TenderModel.preSave 864000001 laptopTender
  = Ret (TenderModel.withStatus laptopTender (Some "closed")) /\
  TenderModel.preSave 864000001 (TenderModel.withStatus laptopTender (Some "closed"))
  = Ret (TenderModel.withStatus laptopTender (Some "closed")).
Proof.
  assert (TenderModel.preSave 864000001 laptopTender
          = Ret (TenderModel.withStatus laptopTender (Some "closed"))) as Hsave
    by reflexivity.
  split; [exact Hsave|].
  by destruct (stored_published_record_has_not_closed _ _ _ Hsave) as (_ & _ & _ & ?).
Defined.

(** ** Request validation *)

Lemma ceilDiv_mul (k b : Z) : 0 < b -> ceilDiv (k * b) b = k.
Proof.
  intros Hb. unfold ceilDiv. rewrite <- Z.mul_opp_l, Z.div_mul by lia. lia.
Qed.

Lemma days_satisfiable (now : Z) (this : AlertConfiguration) :
  DaysSatisfiable now this <->
  forall lo hi,
    truthyFraction (minDaysUntilClosing (advancedFilters this)) = Some lo ->
    truthyFraction (maxDaysUntilClosing (advancedFilters this)) = Some hi ->
    Qceiling lo <= Qfloor hi.
Proof.
  assert (0 < msPerDay) as Hday by (by vm_compute).
  assert (forall k tender d,
            dates tender = Some d -> closing d = Some (now + k * msPerDay) ->
            checkDaysUntilClosing now this tender
            = Ret (negb (belowDays (minDaysUntilClosing (advancedFilters this)) k) &&
                   negb (aboveDays (maxDaysUntilClosing (advancedFilters this)) k)))
    as Hat.
  { intros k tender d Hd Hc.
    rewrite (checkDaysUntilClosing_closing now this tender d _ Hd Hc).
    replace (now + k * msPerDay - now) with (k * msPerDay) by lia.
    by rewrite ceilDiv_mul. }
  split.
  - intros (closingDate & Hpass) lo hi Hlo Hhi.
    specialize (Hpass (closingAt closingDate) _ eq_refl eq_refl).
    destruct (days_until_closing_check now this (closingAt closingDate)
                {| published := None; closing := Some closingDate |} closingDate
                eq_refl eq_refl Hpass) as [Hbelow Habove].
    pose proof (proj1 (belowDays_false _ _) Hbelow lo Hlo).
    pose proof (proj1 (aboveDays_false _ _) Habove hi Hhi). lia.
  - intros Hfit.
    destruct (truthyFraction (minDaysUntilClosing (advancedFilters this)))
      as [lo|] eqn:Hlo.
    + exists (now + Qceiling lo * msPerDay). intros tender d Hd Hc.
      rewrite (Hat _ tender d Hd Hc). f_equal. apply andb_true_iff.
      split; apply negb_true_iff.
      * apply belowDays_false. intros lo' Hlo'. rewrite Hlo in Hlo'.
        by injection Hlo' as <-.
      * apply aboveDays_false. intros hi Hhi. by apply Hfit.
    + destruct (truthyFraction (maxDaysUntilClosing (advancedFilters this)))
        as [hi|] eqn:Hhi.
      * exists (now + Qfloor hi * msPerDay). intros tender d Hd Hc.
        rewrite (Hat _ tender d Hd Hc). f_equal. apply andb_true_iff.
        split; apply negb_true_iff.
        -- apply belowDays_false. intros lo' Hlo'. by rewrite Hlo in Hlo'.
        -- apply aboveDays_false. intros hi' Hhi'. rewrite Hhi in Hhi'.
           by injection Hhi' as <-.
      * exists (now + 0 * msPerDay). intros tender d Hd Hc.
        rewrite (Hat _ tender d Hd Hc). unfold belowDays, aboveDays.
        by rewrite Hlo, Hhi.
Qed.

(** X27: what the custom rules of the request validation admit. The rule of
    [estimatedValue] returns the value exactly when some amount other than zero
    passes the value-range check of the evaluator. The rule of [advancedFilters]
    returns the value for all day bounds that the closing date of some record
    can satisfy, and for more: bounds can be satisfied exactly when the minimum
    rounded up is at most the maximum rounded down, whereas the rule compares
    the bounds as they are, so that it admits a minimum of half a day with a
    maximum of 0.7 day, which no record with a closing date passes. *)
Theorem validation_admits_satisfiable_bounds (now : Z) (this : AlertConfiguration) :
  (Validation.estimatedValueRule (estimatedValue this) = true <->
   exists value,
     value <> 0 /\
     forall tender, tenderAmount tender = Some value ->
                    checkEstimatedValue this tender = true) /\
  (DaysSatisfiable now this <->
   forall lo hi,
     truthyFraction (minDaysUntilClosing (advancedFilters this)) = Some lo ->
     truthyFraction (maxDaysUntilClosing (advancedFilters this)) = Some hi ->
     Qceiling lo <= Qfloor hi) /\
  (DaysSatisfiable now this ->
   Validation.advancedFiltersRule (advancedFilters this) = true) /\
  (Validation.advancedFiltersRule narrowDays = true /\
   forall tender d closingDate,
     dates tender = Some d -> closing d = Some closingDate ->
     checkDaysUntilClosing now (advancedConfig narrowDays) tender = Ret false).
Proof.
  split; [|split; [|split]].
  - unfold Validation.estimatedValueRule.
    assert (forall value tender,
              value <> 0 -> tenderAmount tender = Some value ->
              checkEstimatedValue this tender =
              negb (belowBound (range_min (estimatedValue this)) value) &&
              negb (aboveBound (range_max (estimatedValue this)) value)) as Hcheck.
    { intros value tender Hvalue Hamount. unfold checkEstimatedValue.
      rewrite Hamount. unfold belowBound, aboveBound.
      assert (truthyNumber (Some value) = Some value) as ->
        by (by apply truthyNumber_Some).
      by destruct (truthyNumber (range_min (estimatedValue this))),
                  (truthyNumber (range_max (estimatedValue this))). }
    assert (forall value, tenderAmount (tenderOf "t" "" "" (Some value)) = Some value)
      as Hsample by done.
    destruct (truthyNumber (range_min (estimatedValue this))) as [lo|] eqn:Hlo,
             (truthyNumber (range_max (estimatedValue this))) as [hi|] eqn:Hhi.
    + rewrite negb_true_iff, Z.ltb_ge. split.
      * intros Hle. exists hi. apply truthyNumber_Some in Hhi as Hhi'.
        split; [by destruct Hhi'|]. intros tender Hamount.
        rewrite (Hcheck hi) by (by destruct Hhi'). unfold belowBound, aboveBound.
        rewrite Hlo, Hhi. apply andb_true_iff.
        split; apply negb_true_iff, Z.ltb_ge; lia.
      * intros (value & Hvalue & Hpass). specialize (Hpass _ (Hsample value)).
        rewrite (Hcheck value) in Hpass by done. unfold belowBound, aboveBound in Hpass.
        rewrite Hlo, Hhi in Hpass. apply andb_true_iff in Hpass as [H1 H2].
        apply negb_true_iff, Z.ltb_ge in H1, H2. lia.
    + split; [|done]. intros _. exists lo. apply truthyNumber_Some in Hlo as Hlo'.
      split; [by destruct Hlo'|]. intros tender Hamount.
      rewrite (Hcheck lo) by (by destruct Hlo'). unfold belowBound, aboveBound.
      rewrite Hlo, Hhi. simpl. rewrite andb_true_r. apply negb_true_iff, Z.ltb_ge. lia.
    + split; [|done]. intros _. exists hi. apply truthyNumber_Some in Hhi as Hhi'.
      split; [by destruct Hhi'|]. intros tender Hamount.
      rewrite (Hcheck hi) by (by destruct Hhi'). unfold belowBound, aboveBound.
      rewrite Hlo, Hhi. simpl. apply negb_true_iff, Z.ltb_ge. lia.
    + split; [|done]. intros _. exists 1. split; [done|]. intros tender Hamount.
      rewrite (Hcheck 1) by done. unfold belowBound, aboveBound. by rewrite Hlo, Hhi.
  - apply days_satisfiable.
  - intros Hsat. pose proof (proj1 (days_satisfiable now this) Hsat) as Hfit.
    unfold Validation.advancedFiltersRule.
    destruct (truthyFraction (minDaysUntilClosing (advancedFilters this)))
      as [lo|] eqn:Hlo; [|done].
    destruct (truthyFraction (maxDaysUntilClosing (advancedFilters this)))
      as [hi|] eqn:Hhi; [|done].
    apply Qle_bool_iff. specialize (Hfit lo hi eq_refl eq_refl).
    eapply Qle_trans; [apply Qle_ceiling|].
    eapply Qle_trans; [|apply Qfloor_le]. by rewrite <- Zle_Qle.
  - split; [reflexivity|]. intros tender d closingDate Hd Hc.
    rewrite (checkDaysUntilClosing_closing now (advancedConfig narrowDays) tender d
               closingDate Hd Hc).
    f_equal. apply andb_false_iff.
    set (days := ceilDiv (closingDate - now) msPerDay).
    destruct (Z.le_gt_cases days 0) as [Hle | Hgt].
    + left. apply negb_false_iff. unfold belowDays. simpl.
      apply negb_true_iff. destruct (Qle_bool (1 # 2) (inject_Z days)) eqn:Hq; [|done].
      apply Qle_bool_iff, Qle_inject_ceiling in Hq.
      change (Qceiling (1 # 2)) with 1 in Hq. lia.
    + right. apply negb_false_iff. unfold aboveDays. simpl.
      apply negb_true_iff. destruct (Qle_bool (inject_Z days) (7 # 10)) eqn:Hq; [|done].
      apply Qle_bool_iff, Qle_inject_floor in Hq.
      change (Qfloor (7 # 10)) with 0 in Hq. lia.
Qed.
